(** * ClueCortex crossword solver: candidate filter, feedback store, ranking

    A shallow embedding of [Final/ClueCortex.py].  The source file holds two
    programs one after the other: the application proper (classes
    [CrosswordSolver] and [ModernCrosswordApp], source lines 38-558) and the
    variant that follows the marker [# === test cluecortex.py ===] (the same
    two classes, source lines 586-964).  Functions that are textually the same
    in both programs are embedded once; the functions that differ live in the
    modules [Final] and [TestVariant].

    Conventions of the embedding.
    - A Python [str] is a [list ascii].  The development covers ASCII text:
      [isalpha], [upper], [lower] and [isspace] follow Python on the code
      points below 128 and treat the remaining values as caseless characters
      that are neither letters nor white space.  Letters outside ASCII are
      not covered (upper-casing one can give several characters, as for the
      sharp s); a statement on what the letters of a pattern do asks for an
      ASCII pattern ([Py.isascii]).
    - [json.load] is modelled on the texts [json.dump] writes for a store,
      flat objects of strings; any other text is read as no store.
    - A raised exception is [None] in the [option] monad; a function written
      without [option] cannot raise on the modelled inputs.
    - NLTK and WordNet are outside the repository.  They are passed around as
      a record [nltk]; the tokenizer field is optional because
      [word_tokenize] raises [LookupError] when its data package is not
      installed (the first program has the download of that package
      commented out).
    - Python floats used as scores are modelled by exact rationals ([Q]). *)

From Stdlib Require Import String Ascii.
From Stdlib Require Import List ZArith QArith Qminmax Lia Bool Arith NArith.
From Stdlib Require Import Sorting.Sorted Sorting.Permutation.
Import ListNotations.
Local Open Scope string_scope.
Local Open Scope list_scope.

Abbreviation str := (list ascii).
Coercion list_ascii_of_string : string >-> list.

(** ** The option monad used for code that may raise *)

Definition bind {A B} (m : option A) (k : A -> option B) : option B :=
  match m with Some a => k a | None => None end.

Notation "x <- m ;; k" := (bind m (fun x => k))
  (at level 61, m at next level, right associativity).

(** [try: body except: handler] *)
Definition try_except {A} (body : option A) (handler : A) : A :=
  match body with Some a => a | None => handler end.

(** ** Python string primitives (module [Py]) *)

Module Py.

Definition code (c : ascii) : N := N_of_ascii c.

Definition between (lo hi : N) (c : ascii) : bool :=
  ((lo <=? code c) && (code c <=? hi))%N.

Definition isupper (c : ascii) : bool := between 65 90 c.
Definition islower (c : ascii) : bool := between 97 122 c.

(** [c.isalpha()] for an ASCII character [c] *)
Definition isalpha (c : ascii) : bool := isupper c || islower c.

(** [s.isascii()] *)
Definition isascii (s : str) : bool :=
  forallb (fun c => (code c <? 128)%N) s.

(** [c.upper()] and [c.lower()] for one ASCII character *)
Definition upper_char (c : ascii) : ascii :=
  if islower c then ascii_of_N (code c - 32) else c.
Definition lower_char (c : ascii) : ascii :=
  if isupper c then ascii_of_N (code c + 32) else c.

Definition upper (s : str) : str := map upper_char s.
Definition lower (s : str) : str := map lower_char s.

(** [c.isspace()]: tab, LF, VT, FF, CR, the separators 28-31 and the space *)
Definition isspace (c : ascii) : bool :=
  between 9 13 c || between 28 32 c.

Fixpoint lstrip (s : str) : str :=
  match s with
  | c :: r => if isspace c then lstrip r else s
  | [] => []
  end.

Definition rstrip (s : str) : str := rev (lstrip (rev s)).

(** [s.strip()] *)
Definition strip (s : str) : str := rstrip (lstrip s).

(** [not s] for a string: true exactly on the empty string *)
Definition is_empty (s : str) : bool :=
  match s with [] => true | _ => false end.

Definition str_eqb (a b : str) : bool :=
  if list_eq_dec ascii_dec a b then true else false.

(** [x in l] for a list of strings *)
Definition mem (x : str) (l : list str) : bool := existsb (str_eqb x) l.

(** [len(s)] as an integer *)
Definition len {A} (l : list A) : Z := Z.of_nat (length l).

(** [s.split(sep)] for a one-character separator *)
Fixpoint split (sep : ascii) (s : str) : list str :=
  match s with
  | [] => [[]]
  | c :: r =>
      if Ascii.eqb c sep then [] :: split sep r
      else match split sep r with
           | w :: ws => (c :: w) :: ws
           | [] => [[c]]
           end
  end.

(** Two lower-case hexadecimal digits of a character code *)
Definition hex_digit (n : N) : ascii :=
  if (n <? 10)%N then ascii_of_N (48 + n) else ascii_of_N (87 + n).

Definition hex2 (c : ascii) : str :=
  [hex_digit (code c / 16); hex_digit (code c mod 16)].

Definition dquote : ascii := "034"%char.
Definition newline : ascii := "010"%char.

(** [repr(s)] for a string: quote selection and escapes of [unicode_repr] *)
Definition repr_quote (s : str) : ascii :=
  if existsb (Ascii.eqb "'") s && negb (existsb (Ascii.eqb dquote) s)
  then dquote else "'"%char.

Definition repr_char (q c : ascii) : str :=
  if Ascii.eqb c q || Ascii.eqb c "\" then ["\"%char; c]
  else if Ascii.eqb c "009" then "\t"
  else if Ascii.eqb c "010" then "\n"
  else if Ascii.eqb c "013" then "\r"
  else if (code c <? 32)%N || Ascii.eqb c "127" then "\x" ++ hex2 c
  else [c].

Definition repr (s : str) : str :=
  let q := repr_quote s in
  [q] ++ concat (map (repr_char q) s) ++ [q].

(** [str((a, b))] for a pair of strings *)
Definition str_of_pair (a b : str) : str :=
  "(" ++ repr a ++ ", " ++ repr b ++ ")".

End Py.

(** ** The regular expressions the solver builds (module [Re])

    [re.match] is modelled on the fragment of the syntax that
    [pattern_to_regex] can emit: the anchors, a range class [[x-y]], a
    literal character, and a counted repetition [{m,n}] after a class or a
    literal.  Anything else is reported as a compile error. *)

Module Re.

Inductive atom : Type :=
| Class (lo hi : ascii)
| Lit (c : ascii).

Inductive node : Type :=
| Bol                              (* ^ *)
| Eol                              (* $ *)
| Rep (a : atom) (mn mx : nat).    (* a{mn,mx}; a plain atom is a{1,1} *)

Definition is_digit (c : ascii) : bool := Py.between 48 57 c.

Definition is_meta (c : ascii) : bool :=
  existsb (Ascii.eqb c) ".^$*+?{}[]\|()".

Fixpoint read_digits (s : str) (acc : nat) : nat * str :=
  match s with
  | c :: r =>
      if is_digit c
      then read_digits r (10 * acc + (N.to_nat (Py.code c) - 48))
      else (acc, s)
  | [] => (acc, [])
  end.

Definition starts_with_digit (s : str) : bool :=
  match s with c :: _ => is_digit c | [] => false end.

(** The optional [{m,n}] after an atom: bounds and the rest of the text *)
Definition read_quant (s : str) : option (nat * nat * str) :=
  match s with
  | c :: r =>
      if Ascii.eqb c "{" then
        if starts_with_digit r then
          let '(m, r1) := read_digits r 0 in
          match r1 with
          | c1 :: r2 =>
              if Ascii.eqb c1 "," && starts_with_digit r2 then
                let '(n, r3) := read_digits r2 0 in
                match r3 with
                | c3 :: r4 =>
                    if Ascii.eqb c3 "}" && (m <=? n)%nat
                    then Some (m, n, r4) else None
                | [] => None
                end
              else None
          | [] => None
          end
        else None
      else Some (1%nat, 1%nat, s)
  | [] => Some (1%nat, 1%nat, [])
  end.

Definition read_atom (s : str) : option (atom * str) :=
  match s with
  | c :: r =>
      if Ascii.eqb c "[" then
        match r with
        | lo :: d :: hi :: b :: r' =>
            if Ascii.eqb d "-" && Ascii.eqb b "]"
               && negb (is_meta lo) && negb (is_meta hi)
            then Some (Class lo hi, r') else None
        | _ => None
        end
      else if is_meta c then None
      else Some (Lit c, r)
  | [] => None
  end.

Fixpoint parse (fuel : nat) (s : str) : option (list node) :=
  match fuel with
  | O => None
  | S f =>
      match s with
      | [] => Some []
      | c :: r =>
          if Ascii.eqb c "^" then ns <- parse f r ;; Some (Bol :: ns)
          else if Ascii.eqb c "$" then ns <- parse f r ;; Some (Eol :: ns)
          else
            ar <- read_atom s ;;
            q <- read_quant (snd ar) ;;
            let '(m, n, rest) := q in
            ns <- parse f rest ;;
            Some (Rep (fst ar) m n :: ns)
      end
  end.

(** [re.compile]: every step of [parse] consumes a character, so the length
    of the text (plus one for the final empty step) is enough fuel. *)
Definition compile (regex : str) : option (list node) :=
  parse (S (length regex)) regex.

Definition atom_ok (a : atom) (c : ascii) : bool :=
  match a with
  | Class lo hi => Py.between (Py.code lo) (Py.code hi) c
  | Lit x => Ascii.eqb x c
  end.

(** exactly [n] characters accepted by [a], then [k] on the rest *)
Fixpoint match_exactly (a : atom) (n : nat) (k : nat -> str -> bool)
    (pos : nat) (w : str) : bool :=
  match n with
  | O => k pos w
  | S n' =>
      match w with
      | c :: w' => atom_ok a c && match_exactly a n' k (S pos) w'
      | [] => false
      end
  end.

(** at most [n] characters accepted by [a], then [k] on the rest *)
Fixpoint match_upto (a : atom) (n : nat) (k : nat -> str -> bool)
    (pos : nat) (w : str) : bool :=
  match n with
  | O => k pos w
  | S n' =>
      match w with
      | c :: w' =>
          (atom_ok a c && match_upto a n' k (S pos) w') || k pos w
      | [] => k pos w
      end
  end.

(** [$] without [re.MULTILINE]: at the end of the text, or just before a
    line feed that ends the text *)
Definition at_end (w : str) : bool :=
  match w with
  | [] => true
  | [c] => Ascii.eqb c Py.newline
  | _ => false
  end.

Fixpoint match_nodes (ns : list node) (pos : nat) (w : str) : bool :=
  match ns with
  | [] => true
  | Bol :: ns' => (pos =? 0)%nat && match_nodes ns' pos w
  | Eol :: ns' => at_end w && match_nodes ns' pos w
  | Rep a mn mx :: ns' =>
      match_exactly a mn (match_upto a (mx - mn) (match_nodes ns')) pos w
  end.

(** [re.match(regex, word)], read as a truth value; [None] is [re.error] *)
Definition re_match (regex word : str) : option bool :=
  ns <- compile regex ;; Some (match_nodes ns 0 word).

End Re.

(** ** Python dictionaries from strings to strings

    A [dict] keeps its keys in insertion order and holds each key once;
    assigning to a key that is present replaces the value in place. *)

Definition dict := list (str * str).

Fixpoint dict_get (k : str) (d : dict) : option str :=
  match d with
  | [] => None
  | (k', v) :: r => if Py.str_eqb k k' then Some v else dict_get k r
  end.

(** [d[k] = v] *)
Fixpoint dict_set (k v : str) (d : dict) : dict :=
  match d with
  | [] => [(k, v)]
  | (k', v') :: r =>
      if Py.str_eqb k k' then (k', v) :: r else (k', v') :: dict_set k v r
  end.

Definition dict_keys (d : dict) : list str := map fst d.

(** [dict(pairs)] *)
Definition dict_of_pairs (pairs : list (str * str)) : dict :=
  fold_left (fun d kv => dict_set (fst kv) (snd kv) d) pairs [].

(** ** The feedback file format (module [Json])

    [json.dump(d, f, indent=4)] and [json.load(f)] for a flat object whose
    keys and values are strings, which is what the solver writes.  Other JSON
    documents are outside the model and are reported like a decode error. *)

Module Json.

Definition escape_char (c : ascii) : str :=
  if Ascii.eqb c Py.dquote then ["\"%char; Py.dquote]
  else if Ascii.eqb c "\" then "\\"
  else if Ascii.eqb c "010" then "\n"
  else if Ascii.eqb c "013" then "\r"
  else if Ascii.eqb c "009" then "\t"
  else if Ascii.eqb c "008" then "\b"
  else if Ascii.eqb c "012" then "\f"
  else if Py.between 32 126 c then [c]
  else "\u00" ++ Py.hex2 c.

(** [py_encode_basestring_ascii] *)
Definition encode_string (s : str) : str :=
  [Py.dquote] ++ concat (map escape_char s) ++ [Py.dquote].

Definition newline_indent : str := [Py.newline] ++ "    ".

Definition dump_item (kv : str * str) : str :=
  encode_string (fst kv) ++ ": " ++ encode_string (snd kv).

(** [json.dump(d, f, indent=4)]: the text written to the file *)
Definition dump (d : dict) : str :=
  match d with
  | [] => "{}"
  | kv :: r =>
      "{" ++ newline_indent ++ dump_item kv
      ++ concat (map (fun kv' => "," ++ newline_indent ++ dump_item kv') r)
      ++ [Py.newline] ++ "}"
  end.

Definition is_ws (c : ascii) : bool :=
  Ascii.eqb c " " || Ascii.eqb c "009" || Ascii.eqb c "010"
  || Ascii.eqb c "013".

Fixpoint skip_ws (s : str) : str :=
  match s with
  | c :: r => if is_ws c then skip_ws r else s
  | [] => []
  end.

Definition hex_val (c : ascii) : option N :=
  if Py.between 48 57 c then Some (Py.code c - 48)%N
  else if Py.between 97 102 c then Some (Py.code c - 87)%N
  else if Py.between 65 70 c then Some (Py.code c - 55)%N
  else None.

(** the four digits of a [\uXXXX] escape; code points that do not fit a
    character of the model are refused *)
Definition decode_u (h1 h2 h3 h4 : ascii) : option ascii :=
  a <- hex_val h1 ;; b <- hex_val h2 ;; c <- hex_val h3 ;; d <- hex_val h4 ;;
  if ((a =? 0) && (b =? 0))%N then Some (ascii_of_N (16 * c + d)) else None.

Definition unescape (e : ascii) : option ascii :=
  if Ascii.eqb e Py.dquote then Some Py.dquote
  else if Ascii.eqb e "\" then Some "\"%char
  else if Ascii.eqb e "/" then Some "/"%char
  else if Ascii.eqb e "b" then Some "008"%char
  else if Ascii.eqb e "f" then Some "012"%char
  else if Ascii.eqb e "n" then Some "010"%char
  else if Ascii.eqb e "r" then Some "013"%char
  else if Ascii.eqb e "t" then Some "009"%char
  else None.

(** [scanstring], strict: the text after an opening quote, up to and
    including the closing quote; returns the decoded string and the rest *)
Fixpoint scanstring (s : str) : option (str * str) :=
  match s with
  | [] => None
  | c :: r =>
      if Ascii.eqb c Py.dquote then Some ([], r)
      else if Ascii.eqb c "\" then
        match r with
        | [] => None
        | e :: r' =>
            if Ascii.eqb e "u" then
              match r' with
              | h1 :: h2 :: h3 :: h4 :: r'' =>
                  ch <- decode_u h1 h2 h3 h4 ;;
                  p <- scanstring r'' ;;
                  Some (ch :: fst p, snd p)
              | _ => None
              end
            else
              ch <- unescape e ;;
              p <- scanstring r' ;;
              Some (ch :: fst p, snd p)
        end
      else if (Py.code c <? 32)%N then None
      else p <- scanstring r ;; Some (c :: fst p, snd p)
  end.

(** a string value at the head of [s] *)
Definition scan_value (s : str) : option (str * str) :=
  match s with
  | c :: r => if Ascii.eqb c Py.dquote then scanstring r else None
  | [] => None
  end.

Definition expect (x : ascii) (s : str) : option str :=
  match s with
  | c :: r => if Ascii.eqb c x then Some r else None
  | [] => None
  end.

(** the members of an object, from the quote of the first key to the
    closing brace; returns the pairs in order and the rest *)
Fixpoint parse_pairs (fuel : nat) (s : str)
    : option (list (str * str) * str) :=
  match fuel with
  | O => None
  | S f =>
      kr <- scan_value s ;;
      r1 <- expect ":" (skip_ws (snd kr)) ;;
      vr <- scan_value (skip_ws r1) ;;
      match skip_ws (snd vr) with
      | c :: r2 =>
          if Ascii.eqb c "}" then Some ([(fst kr, fst vr)], r2)
          else if Ascii.eqb c "," then
            pr <- parse_pairs f (skip_ws r2) ;;
            Some ((fst kr, fst vr) :: fst pr, snd pr)
          else None
      | [] => None
      end
  end.

(** [JSONObject]: the text after the opening brace *)
Definition parse_object (s : str) : option (list (str * str) * str) :=
  match skip_ws s with
  | c :: r =>
      if Ascii.eqb c "}" then Some ([], r)
      else parse_pairs (length s) (c :: r)
  | [] => None
  end.

(** [json.load(f)]: [None] is [JSONDecodeError] *)
Definition load (text : str) : option dict :=
  r <- expect "{" (skip_ws text) ;;
  pr <- parse_object r ;;
  if Py.is_empty (skip_ws (snd pr)) then Some (dict_of_pairs (fst pr))
  else None.

End Json.

(** ** External collaborators *)

(** What the solver reads from a WordNet synset: [definition()], [name()]
    and the [name()] of each of its [hypernyms()]. *)
Record synset : Type := {
  definition : str;
  name : str;
  hypernyms : list str
}.

Record nltk : Type := {
  (** [word_tokenize]; [None] when the tokenizer data is not installed, in
      which case every call raises *)
  word_tokenize : option (str -> list str);
  (** [WordNetLemmatizer().lemmatize] *)
  lemmatize : str -> str;
  (** [wordnet.synsets] *)
  synsets : str -> list synset
}.

(** The sentence-embedding model of the first program, reduced to what the
    ranking reads from it: for a clue and a list of definitions, the cosine
    similarity of the clue with each definition. *)
Record sim_model : Type := {
  similarities : str -> list str -> list Q
}.

(** [(word, score, definition)] *)
Definition ranked : Type := str * Q * str.

Definition word_of (r : ranked) : str := fst (fst r).
Definition score_of (r : ranked) : Q := snd (fst r).
Definition def_of (r : ranked) : str := snd r.

(** ** class CrosswordSolver: the state *)

Record CrosswordSolver : Type := {
  word_list : list str;
  feedback_db : dict;
  excluded_words : list str;
  (** [None], or the one-entry dictionary [{(clue, PATTERN): ranked}] *)
  current_results : option ((str * str) * list ranked);
  (** not an attribute: the text of the file [feedback.json] that the solver
      loads and rewrites, [None] while the file does not exist *)
  feedback_json : option str
}.

Definition set_current_results (self : CrosswordSolver)
    (r : option ((str * str) * list ranked)) :=
  {| word_list := word_list self; feedback_db := feedback_db self;
     excluded_words := excluded_words self; current_results := r;
     feedback_json := feedback_json self |}.

Definition set_excluded_words (self : CrosswordSolver) (l : list str) :=
  {| word_list := word_list self; feedback_db := feedback_db self;
     excluded_words := l; current_results := current_results self;
     feedback_json := feedback_json self |}.

(** ** Functions shared by the two programs *)

(** [load_word_database], applied to the lines of the word file *)
Definition load_word_database (lines : list str) : list str :=
  map (fun line => Py.upper (Py.strip line))
      (filter (fun line => negb (Py.is_empty (Py.strip line))) lines).

(** [load_feedback_database]; the argument is the text of the feedback
    file, [None] when the file does not exist.  Every text [json.dump] writes
    for a store is read back ([load_dump]); a text [Json.load] does not read
    stands for one [json.load] rejects. *)
Definition load_feedback_database (file : option str) : dict :=
  match file with
  | None => []
  | Some text =>
      match Json.load text with
      | Some d => d
      | None => []
      end
  end.

(** [__init__] from the lines of the word file ([None] when the file is
    missing) and the feedback file; raises when no word was loaded *)
Definition init (word_file : option (list str)) (feedback_file : option str)
    : option CrosswordSolver :=
  let wl := match word_file with
            | Some lines => load_word_database lines
            | None => []
            end in
  match wl with
  | [] => None
  | _ => Some {| word_list := wl;
                 feedback_db := load_feedback_database feedback_file;
                 excluded_words := [];
                 current_results := None;
                 feedback_json := feedback_file |}
  end.

Definition feedback_key (clue pattern : str) : str :=
  Py.str_of_pair clue (Py.upper pattern).

(** [save_feedback]: the entry is set and the whole dictionary is written
    to the file *)
Definition save_feedback (self : CrosswordSolver)
    (clue pattern correct_word : str) : CrosswordSolver :=
  let key := feedback_key clue pattern in
  let db := dict_set key (Py.upper correct_word) (feedback_db self) in
  {| word_list := word_list self; feedback_db := db;
     excluded_words := excluded_words self;
     current_results := current_results self;
     feedback_json := Some (Json.dump db) |}.

Definition pattern_to_regex (pattern : str) : str :=
  if Py.is_empty pattern || Py.is_empty (Py.strip pattern)
  then "^[A-Z]{2,15}$"
  else
    let regex :=
      concat (map (fun c => if negb (Py.isalpha c) then ("[A-Z]" : str)
                            else [Py.upper_char c]) pattern) in
    "^" ++ regex ++ "$".

(** [[w for w in l if re.match(regex, w)]] *)
Fixpoint filter_re (regex : str) (l : list str) : option (list str) :=
  match l with
  | [] => Some []
  | w :: r =>
      b <- Re.re_match regex w ;;
      ms <- filter_re regex r ;;
      Some (if b then w :: ms else ms)
  end.

(** [int(n * 1.5)] for a length [n]: the product is exact in floating point
    and [int] drops the fraction *)
Definition int_times_1_5 (n : Z) : Z := (3 * n) / 2.

Definition est_len_of (clue_tokens : list str) : Z :=
  Z.max 2 (Z.min 15 (int_times_1_5 (Py.len clue_tokens))).

Definition near (est_len : Z) (w : str) : bool :=
  (Z.abs (Py.len w - est_len) <=? 3)%Z.

Definition is_vague (pattern : str) : bool :=
  Py.is_empty pattern || forallb (fun c => Ascii.eqb c "?") pattern.

(** the body of the [try] in [find_matches] *)
Definition find_matches_try (nl : nltk) (self : CrosswordSolver)
    (pattern clue : str) : option (list str) :=
  let regex := pattern_to_regex pattern in
  matches <- filter_re regex (word_list self) ;;
  if is_vague pattern then
    tokenize <- word_tokenize nl ;;
    let clue_tokens := tokenize (Py.lower clue) in
    let est_len := est_len_of clue_tokens in
    Some (filter (near est_len) matches)
  else Some matches.

Definition find_matches (nl : nltk) (self : CrosswordSolver)
    (pattern clue : str) : list str :=
  try_except (find_matches_try nl self pattern clue)
             (firstn 100 (word_list self)).

(** [sorted(l, key=lambda x: x[1], reverse=True)]: descending by score,
    equal scores in their original order *)
Fixpoint insert_desc (x : ranked) (l : list ranked) : list ranked :=
  match l with
  | [] => [x]
  | y :: r =>
      if Qle_bool (score_of y) (score_of x) then x :: l
      else y :: insert_desc x r
  end.

Definition sorted_desc (l : list ranked) : list ranked :=
  fold_right insert_desc [] l.

Definition str_dec : forall a b : str, {a = b} + {a <> b} :=
  list_eq_dec ascii_dec.

(** [set(lemmatize(w.lower()) for w in ws)] *)
Definition lemma_set (nl : nltk) (ws : list str) : list str :=
  nodup str_dec (map (fun w => lemmatize nl (Py.lower w)) ws).

(** [len(a.intersection(b))] for two sets *)
Definition inter_size (a b : list str) : Z :=
  Py.len (filter (fun x => Py.mem x b) a).

Definition weight (n : Z) (w : Q) : Q := inject_Z n * w.

(** the body of the loop of [_wordnet_ranking] for one word; the weights
    0.5, 0.7 and 0.3 are added as exact rationals *)
Definition score_word (nl : nltk) (tokenize : str -> list str)
    (clue_words : list str) (word : str) : ranked :=
  match synsets nl (Py.lower word) with
  | [] => (word, 0, "No definition" : str)
  | (s0 :: _) as syns =>
      let best_def := definition s0 in
      let def_words := lemma_set nl (tokenize best_def) in
      let score := 0 + weight (inter_size clue_words def_words) (5 # 10) in
      let score :=
        fold_left
          (fun score syn =>
             let syn_name := lemma_set nl (Py.split "." (name syn)) in
             let score :=
               score + weight (inter_size clue_words syn_name) (7 # 10) in
             fold_left
               (fun score hyper =>
                  let hyper_name := lemma_set nl (Py.split "." hyper) in
                  score + weight (inter_size clue_words hyper_name) (3 # 10))
               (hypernyms syn) score)
          syns score in
      (word, score, best_def)
  end.

Definition _wordnet_ranking (nl : nltk) (clue : str) (matches : list str)
    : option (list ranked) :=
  tokenize <- word_tokenize nl ;;
  let clue_words := lemma_set nl (tokenize (Py.lower clue)) in
  let ranked := map (score_word nl tokenize clue_words) matches in
  Some (firstn 3 (sorted_desc ranked)).

Definition no_clue (matches : list str) : list ranked :=
  map (fun m => (m, 0, "No clue provided" : str)) (firstn 3 matches).

Definition first_definition (nl : nltk) (word marker : str) : str :=
  match synsets nl (Py.lower word) with
  | s0 :: _ => definition s0
  | [] => marker
  end.

(** What the applications show in a message box *)
Inductive dialog : Type :=
| showerror (title message : str)
| showwarning (title message : str)
| showinfo (title message : str).

(** How a handler of the application ends: normally, or by an exception
    (which Tk reports and survives).  Either way the solver keeps the changes
    made so far and the boxes shown so far were shown. *)
Inductive handled : Type :=
| Done (self : CrosswordSolver) (shown : list dialog)
| Raised (self : CrosswordSolver) (shown : list dialog).

Definition solver_after (h : handled) : CrosswordSolver :=
  match h with Done s _ | Raised s _ => s end.

Definition shown_by (h : handled) : list dialog :=
  match h with Done _ d | Raised _ d => d end.

(** ** The first program (source lines 38-558) *)

Module Final.

Fixpoint list_max (l : list Q) : option Q :=
  match l with
  | [] => None
  | x :: r =>
      match list_max r with
      | Some m => Some (if Qle_bool m x then x else m)
      | None => Some x
      end
  end.

(** index of the first occurrence of the greatest element *)
Fixpoint argmax (l : list Q) : nat :=
  match l with
  | [] => O
  | x :: r =>
      match list_max r with
      | Some m => if Qle_bool m x then O else S (argmax r)
      | None => O
      end
  end.

Definition Zabs_Q (z : Z) : Q := inject_Z (Z.abs z).

(** the body of the loop of [_ai_ranking] for one word that is not
    excluded; [similarities.size] is a bound method, hence true, so the
    definition shown is always the one at [argmax] *)
Definition ai_score_word (nl : nltk) (model : sim_model) (clue word : str)
    : option ranked :=
  let syns := synsets nl (Py.lower word) in
  let definitions :=
    match syns with
    | [] => [word]
    | _ => map definition syns
    end in
  let sims := similarities model clue definitions in
  max_sim <- list_max sims ;;
  best_def <- nth_error definitions (argmax sims) ;;
  tokenize <- word_tokenize nl ;;
  let clue_len := Py.len (tokenize clue) in
  let length_boost :=
    Qmin (1 # 10) ((3 # 100) * Zabs_Q (Py.len word - clue_len)) in
  Some (word, max_sim + length_boost, best_def).

Fixpoint ai_loop (nl : nltk) (model : sim_model) (excluded : list str)
    (clue : str) (matches : list str) : option (list ranked) :=
  match matches with
  | [] => Some []
  | word :: rest =>
      if Py.mem word excluded then ai_loop nl model excluded clue rest
      else
        r <- ai_score_word nl model clue word ;;
        rs <- ai_loop nl model excluded clue rest ;;
        Some (r :: rs)
  end.

Definition _ai_ranking (nl : nltk) (model : sim_model)
    (self : CrosswordSolver) (clue : str) (matches : list str)
    : option (list ranked) :=
  ranked <- ai_loop nl model (excluded_words self) clue matches ;;
  Some (firstn 3 (sorted_desc ranked)).

(** the scorer that is active: [_ai_ranking] when the model was loaded,
    [_wordnet_ranking] otherwise *)
Definition scoring (nl : nltk) (similarity_model : option sim_model)
    (self : CrosswordSolver) (clue : str) (matches : list str)
    : option (list ranked) :=
  match similarity_model with
  | Some model => _ai_ranking nl model self clue matches
  | None => _wordnet_ranking nl clue matches
  end.

Definition rank_by_clue (nl : nltk) (similarity_model : option sim_model)
    (self : CrosswordSolver) (clue : str) (matches : list str)
    (pattern : str) : option (list ranked) :=
  if Py.is_empty clue then Some (no_clue matches)
  else
    let key := feedback_key clue pattern in
    match dict_get key (feedback_db self) with
    | Some correct_word =>
        if Py.mem correct_word matches then
          let definition := first_definition nl correct_word "User-corrected" in
          Some [(correct_word, 1, definition)]
        else scoring nl similarity_model self clue matches
    | None => scoring nl similarity_model self clue matches
    end.

(** [solve]: the solver afterwards and the returned one-entry dictionary *)
Definition solve (nl : nltk) (similarity_model : option sim_model)
    (self : CrosswordSolver) (clue pattern : str)
    : option (CrosswordSolver * ((str * str) * list ranked)) :=
  let matches := find_matches nl self pattern clue in
  ranked <- rank_by_clue nl similarity_model self clue matches pattern ;;
  let results := ((clue, Py.upper pattern), ranked) in
  Some (set_current_results self (Some results), results).

(** *** class ModernCrosswordApp: the feedback handlers

    The texts of the entry widgets are arguments. *)

(** [_solve]; the worker thread is run to its end, and an exception in the
    thread leaves [current_results] as it was *)
Definition _solve (nl : nltk) (similarity_model : option sim_model)
    (self : CrosswordSolver) (clue_entry pattern_entry : str) : handled :=
  let clue := Py.strip clue_entry in
  let pattern := Py.strip pattern_entry in
  let self := set_excluded_words self [] in
  if Py.is_empty clue then Done self [showerror "Error" "Please enter a clue"]
  else
    match solve nl similarity_model self clue pattern with
    | Some (self', _) => Done self' []
    | None => Done self []
    end.

Definition _process_feedback (self : CrosswordSolver)
    (clue_entry pattern_entry : str) (is_correct : bool) : handled :=
  let clue := clue_entry in
  let pattern := pattern_entry in
  if is_correct then
    (* [self.solver.current_results[(clue, pattern)][0][0]] *)
    match current_results self with
    | Some (key, ranked) =>
        if Py.str_eqb (fst key) clue && Py.str_eqb (snd key) pattern then
          match nth_error ranked 0 with
          | Some top =>
              let top_match := word_of top in
              Done (save_feedback self clue pattern top_match)
                   [showinfo "Thank you!" "Feedback recorded."]
          | None => Raised self []
          end
        else Raised self []
    | None => Raised self []
    end
  else
    Done self [showinfo "Help us improve" "Please enter the correct answer."].

Definition _submit_correction (nl : nltk)
    (similarity_model : option sim_model) (self : CrosswordSolver)
    (clue_entry pattern_entry correct_entry : str) : handled :=
  let clue := clue_entry in
  let pattern := pattern_entry in
  let correction := Py.upper (Py.strip correct_entry) in
  if Py.is_empty correction
  then Done self [showerror "Error" "Please enter a correction"]
  else
    let self := save_feedback self clue pattern correction in
    let h := _solve nl similarity_model self clue_entry pattern_entry in
    Done (solver_after h)
         (showinfo "Success" "Correction saved!" :: shown_by h).

(** Every method of the solver that can be called on it once it is built,
    and every handler of the application that reaches the solver, with its
    arguments.  (The handlers for themes and help do not touch the solver.) *)
Inductive operation : Type :=
| call_save_feedback (clue pattern correct_word : str)
| call_find_matches (pattern clue : str)
| call_rank_by_clue (clue : str) (matches : list str) (pattern : str)
| call_solve (clue pattern : str)
| press_solve (clue_entry pattern_entry : str)
| press_feedback (clue_entry pattern_entry : str) (is_correct : bool)
| press_submit_correction (clue_entry pattern_entry correct_entry : str)
| call_load_word_database (word_file : option (list str))
| call_load_feedback_database (feedback_file : option str)
| call_pattern_to_regex (pattern : str)
| call_wordnet_ranking (clue : str) (matches : list str)
| call_ai_ranking (clue : str) (matches : list str).

(** the solver after an operation *)
Definition run (nl : nltk) (similarity_model : option sim_model)
    (self : CrosswordSolver) (op : operation) : CrosswordSolver :=
  match op with
  | call_save_feedback clue pattern word =>
      save_feedback self clue pattern word
  | call_find_matches _ _ => self
  | call_rank_by_clue _ _ _ => self
  | call_solve clue pattern =>
      match solve nl similarity_model self clue pattern with
      | Some (self', _) => self'
      | None => self
      end
  | press_solve c p => solver_after (_solve nl similarity_model self c p)
  | press_feedback c p b => solver_after (_process_feedback self c p b)
  | press_submit_correction c p w =>
      solver_after (_submit_correction nl similarity_model self c p w)
  | call_load_word_database _ | call_load_feedback_database _
  | call_pattern_to_regex _ | call_wordnet_ranking _ _
  | call_ai_ranking _ _ => self
  end.

End Final.

(** ** The second program (source lines 586-964) *)

Module TestVariant.

Definition rank_by_clue (nl : nltk) (self : CrosswordSolver)
    (clue : str) (matches : list str) (pattern : str)
    : option (list ranked) :=
  if Py.is_empty clue then Some (no_clue matches)
  else
    let key := feedback_key clue pattern in
    (* [correct] is the stored word when the key is present; [ranked] holds
       it when it also matches the pattern *)
    let correct := dict_get key (feedback_db self) in
    ranked <-
      match correct with
      | Some correct =>
          ok <- Re.re_match (pattern_to_regex pattern) correct ;;
          if ok then
            let definition := first_definition nl correct "User-provided" in
            Some [(correct, 1, definition)]
          else Some []
      | None => Some []
      end ;;
    let other_matches :=
      match correct with
      | Some correct => filter (fun m => negb (Py.str_eqb m correct)) matches
      | None => matches
      end in
    other <- _wordnet_ranking nl clue other_matches ;;
    let other_ranked := firstn 2 other in
    let ranked := ranked ++ other_ranked in
    match ranked with
    | [] => all <- _wordnet_ranking nl clue matches ;; Some (firstn 3 all)
    | _ => Some ranked
    end.

Definition solve (nl : nltk) (self : CrosswordSolver) (clue pattern : str)
    : option (CrosswordSolver * ((str * str) * list ranked)) :=
  let matches := find_matches nl self pattern clue in
  ranked <- rank_by_clue nl self clue matches pattern ;;
  let results := ((clue, Py.upper pattern), ranked) in
  Some (set_current_results self (Some results), results).

(** *** class ModernCrosswordApp *)

Definition input_error : list dialog :=
  [showwarning "Input Error" "Please enter both clue and pattern."].

(** [ModernCrosswordApp.solve] *)
Definition app_solve (nl : nltk) (self : CrosswordSolver)
    (clue_entry pattern_entry : str) : handled :=
  let clue := Py.strip clue_entry in
  let pattern := Py.upper (Py.strip pattern_entry) in
  if Py.is_empty clue || Py.is_empty pattern then Done self input_error
  else
    match solve nl self clue pattern with
    | Some (self', _) => Done self' []
    | None => Raised self []
    end.

(** [ModernCrosswordApp.save_feedback]; [selected] is the word of the
    selected row of the result table, if a row is selected *)
Definition app_save_feedback (self : CrosswordSolver)
    (clue_entry pattern_entry : str) (selected : option str) : handled :=
  match selected with
  | None =>
      Done self [showwarning "Selection Error"
                   "Please select a word to save as feedback."]
  | Some word =>
      let clue := Py.strip clue_entry in
      let pattern := Py.upper (Py.strip pattern_entry) in
      Done (save_feedback self clue pattern word)
           [showinfo "Feedback Saved"
              ("Word '" ++ word ++ "' saved as feedback for clue '" ++ clue
               ++ "' and pattern '" ++ pattern ++ "'.")]
  end.

(** [enter_correct_word]; [answer] is what the input dialog returned *)
Definition enter_correct_word (nl : nltk) (self : CrosswordSolver)
    (clue_entry pattern_entry : str) (answer : option str) : handled :=
  let clue := Py.strip clue_entry in
  let pattern := Py.upper (Py.strip pattern_entry) in
  if Py.is_empty clue || Py.is_empty pattern then Done self input_error
  else
    match answer with
    | None | Some [] => Done self []
    | Some correct_word =>
        let correct_word := Py.upper (Py.strip correct_word) in
        let regex := pattern_to_regex pattern in
        match Re.re_match regex correct_word with
        | None => Raised self []
        | Some false =>
            Done self
                 [showerror "Invalid Word"
                    ("The word '" ++ correct_word
                     ++ "' does not match the pattern '" ++ pattern ++ "'.")]
        | Some true =>
            let self := save_feedback self clue pattern correct_word in
            let saved :=
              showinfo "Feedback Saved"
                ("Word '" ++ correct_word ++ "' saved as feedback for clue '"
                 ++ clue ++ "' and pattern '" ++ pattern ++ "'.") in
            match app_solve nl self clue_entry pattern_entry with
            | Done self' shown => Done self' (saved :: shown)
            | Raised self' shown => Raised self' (saved :: shown)
            end
        end
    end.

Inductive operation : Type :=
| call_save_feedback (clue pattern correct_word : str)
| call_find_matches (pattern clue : str)
| call_rank_by_clue (clue : str) (matches : list str) (pattern : str)
| call_solve (clue pattern : str)
| press_solve (clue_entry pattern_entry : str)
| press_save_feedback (clue_entry pattern_entry : str)
    (selected : option str)
| press_enter_correct_word (clue_entry pattern_entry : str)
    (answer : option str)
| call_load_word_database (word_file : option (list str))
| call_load_feedback_database (feedback_file : option str)
| call_pattern_to_regex (pattern : str)
| call_wordnet_ranking (clue : str) (matches : list str).

Definition run (nl : nltk) (self : CrosswordSolver) (op : operation)
    : CrosswordSolver :=
  match op with
  | call_save_feedback clue pattern word =>
      save_feedback self clue pattern word
  | call_find_matches _ _ => self
  | call_rank_by_clue _ _ _ => self
  | call_solve clue pattern =>
      match solve nl self clue pattern with
      | Some (self', _) => self'
      | None => self
      end
  | press_solve c p => solver_after (app_solve nl self c p)
  | press_save_feedback c p w => solver_after (app_save_feedback self c p w)
  | press_enter_correct_word c p w =>
      solver_after (enter_correct_word nl self c p w)
  | call_load_word_database _ | call_load_feedback_database _
  | call_pattern_to_regex _ | call_wordnet_ranking _ _ => self
  end.

End TestVariant.

(** * Vocabulary of the statements *)

(** ** Patterns *)

(** [bool(re.match(pattern_to_regex(pattern), word))], with a compile
    error counted as no match *)
Definition satisfies (pattern word : str) : bool :=
  match Re.re_match (pattern_to_regex pattern) word with
  | Some b => b
  | None => false
  end.

(** The words kept around an estimated length *)
Definition narrowed_to (estimated_length : Z) (self : CrosswordSolver)
    (pattern : str) : list str :=
  filter (fun w => (Z.abs (Py.len w - estimated_length) <=? 3)%Z)
         (filter (satisfies pattern) (word_list self)).

(** What [pattern_to_regex] emits, piece by piece, and what the text
    compiles to (see [compile_pattern_to_regex]) *)

Definition piece (c : ascii) : str :=
  if negb (Py.isalpha c) then ("[A-Z]" : str) else [Py.upper_char c].

Definition node_of (c : ascii) : Re.node :=
  if negb (Py.isalpha c) then Re.Rep (Re.Class "A" "Z") 1 1
  else Re.Rep (Re.Lit (Py.upper_char c)) 1 1.

Definition body (pattern : str) : str := concat (map piece pattern).

Definition is_blank (pattern : str) : bool :=
  Py.is_empty pattern || Py.is_empty (Py.strip pattern).

Definition compiled (pattern : str) : list Re.node :=
  if is_blank pattern then [Re.Bol; Re.Rep (Re.Class "A" "Z") 2 15; Re.Eol]
  else Re.Bol :: map node_of pattern ++ [Re.Eol].

(** ** The length estimate as the specification words it

    [clamp(round(token_count * 1.5), 2, 15)].  [round] is Python's, which
    sends a half to the even neighbour; [round_half_up] is the other common
    reading. *)

Definition round_times_1_5 (n : Z) : Z :=
  let q := ((3 * n) / 2)%Z in
  if ((3 * n) mod 2 =? 0)%Z then q
  else if Z.even q then q else (q + 1)%Z.

Definition round_half_up_times_1_5 (n : Z) : Z := ((3 * n + 1) / 2)%Z.

Definition clamp (x lo hi : Z) : Z := Z.max lo (Z.min hi x).

(** ** Rankings *)

(** [a] may stand before [b] in a ranking by descending score *)
Definition by_score_desc (a b : ranked) : Prop := score_of b <= score_of a.

Definition has_score (k : Q) (r : ranked) : bool := Qeq_bool (score_of r) k.

(** [s] is [scored] sorted by descending score, stably: the same
    candidates, in descending order, and the candidates of any one score in
    the order they have in [scored] *)
Definition stable_sort_of (scored s : list ranked) : Prop :=
  Permutation scored s
  /\ StronglySorted by_score_desc s
  /\ forall k, filter (has_score k) s = filter (has_score k) scored.

(** [l1] is [l2] with some elements left out, the others in place *)
Inductive subseq {A : Type} : list A -> list A -> Prop :=
| subseq_nil : subseq [] []
| subseq_keep x l1 l2 : subseq l1 l2 -> subseq (x :: l1) (x :: l2)
| subseq_drop x l1 l2 : subseq l1 l2 -> subseq l1 (x :: l2).

(** [r] is the first [n] candidates of a stable descending sort of scored
    candidates whose words are taken, in order, from [matches] *)
Definition ranking_of (matches : list str) (n : nat) (r : list ranked)
    : Prop :=
  exists scored s,
    subseq (map word_of scored) matches
    /\ stable_sort_of scored s
    /\ r = firstn n s.

(** the candidates of a result of [solve] *)
Definition ranked_of
    (res : option (CrosswordSolver * ((str * str) * list ranked)))
    : option (list ranked) :=
  option_map (fun x => snd (snd x)) res.

(** the remembered answer as the second program places it, and the
    candidates it ranks after it *)
Definition remembered_answer (nl : nltk) (self : CrosswordSolver)
    (clue pattern : str) : list ranked :=
  match dict_get (feedback_key clue pattern) (feedback_db self) with
  | Some correct =>
      if satisfies pattern correct
      then [(correct, 1, first_definition nl correct "User-provided")]
      else []
  | None => []
  end.

Definition other_matches (self : CrosswordSolver) (clue pattern : str)
    (matches : list str) : list str :=
  match dict_get (feedback_key clue pattern) (feedback_db self) with
  | Some correct => filter (fun m => negb (Py.str_eqb m correct)) matches
  | None => matches
  end.

(** ** The feedback store *)

(** what an operation may do to the store: nothing, or one assignment of
    an upper-cased word *)
Definition store_step (before after : dict) : Prop :=
  after = before
  \/ exists clue pattern word,
       after = dict_set (feedback_key clue pattern) (Py.upper word) before.

(** the stores that arise from a store [d0] by one [save_feedback] after
    another *)
Inductive recorded_from (d0 : dict) : dict -> Prop :=
| rec_start : recorded_from d0 d0
| rec_record (d : dict) (clue pattern word : str) :
    recorded_from d0 d ->
    recorded_from d0
      (dict_set (feedback_key clue pattern) (Py.upper word) d).

(** the stores that can arise at run time: records on top of the store
    loaded at start-up *)
Definition reachable_db (d : dict) : Prop :=
  exists file, recorded_from (load_feedback_database file) d.

(** a string with its characters escaped, and the text after the first
    member of an object: the shapes [json.dump] writes *)
Definition escaped (s : str) : str := concat (map Json.escape_char s).

Definition members_tail (r : list (str * str)) (rest : str) : str :=
  concat (map (fun kv => "," ++ Json.newline_indent ++ Json.dump_item kv) r)
  ++ Py.newline :: "}"%char :: rest.

(** ** Stand-ins for the external libraries, for evaluating the functions
    on concrete inputs *)

Definition words (l : list string) : list str := map list_ascii_of_string l.

(** Cuts a text at blanks.  On words separated by single blanks this is what
    [word_tokenize] returns. *)
Definition blank_tokenize (s : str) : list str :=
  filter (fun w => negb (Py.is_empty w)) (Py.split " " s).

(** A few entries in the shape WordNet has them *)
Definition toy_synsets (w : str) : list synset :=
  if Py.str_eqb w "pet" then
    [ {| definition :=
           "a domesticated animal kept for companionship or amusement";
         name := "pet.n.01";
         hypernyms := ["animal.n.01" : str] |};
      {| definition := "stroke or caress gently";
         name := "pet.v.01";
         hypernyms := ["caress.v.01" : str] |} ]
  else if Py.str_eqb w "vet" then
    [ {| definition := "a doctor who practices veterinary medicine";
         name := "veterinarian.n.01";
         hypernyms := ["doctor.n.01" : str] |} ]
  else if Py.str_eqb w "cat" then
    [ {| definition :=
           "feline mammal usually having thick soft fur and no ability to roar";
         name := "cat.n.01";
         hypernyms := ["feline.n.01" : str] |} ]
  else [].

(** NLTK with the tokenizer data installed *)
Definition toy_nltk : nltk :=
  {| word_tokenize := Some blank_tokenize;
     lemmatize := fun w => w;
     synsets := toy_synsets |}.

(** NLTK without the tokenizer data: [word_tokenize] raises *)
Definition nltk_without_punkt : nltk :=
  {| word_tokenize := None;
     lemmatize := fun w => w;
     synsets := toy_synsets |}.

(** a solver over the given word file and feedback store *)
Definition toy_solver (lines : list string) (db : dict) : CrosswordSolver :=
  {| word_list := load_word_database (words lines);
     feedback_db := db;
     excluded_words := [];
     current_results := None;
     feedback_json := Some (Json.dump db) |}.

(** VET was recorded for the clue "household pet" and the pattern ?ET *)
Definition pet_solver : CrosswordSolver :=
  toy_solver ["pet"; "vet"; "net"]
    [(feedback_key "household pet" "?ET", "VET" : str)].

(** DOG was recorded under the pattern C?T, which it does not satisfy *)
Definition stale_solver : CrosswordSolver :=
  toy_solver ["cat"; "cot"; "dog"]
    [(feedback_key "Feline pet" "C?T", "DOG" : str);
     (feedback_key "" "C?T", "DOG" : str)].

(** ** Reading back what [repr] writes

    [unrepr] is not part of the program: it reads a string literal as
    [repr] writes it (what [ast.literal_eval] would do) and serves to show
    that [repr], and so the feedback key, loses nothing. *)

Definition unrepr_escape (q e : ascii) : option ascii :=
  if Ascii.eqb e q then Some q
  else if Ascii.eqb e "\" then Some "\"%char
  else if Ascii.eqb e "t" then Some "009"%char
  else if Ascii.eqb e "n" then Some "010"%char
  else if Ascii.eqb e "r" then Some "013"%char
  else None.

Fixpoint unrepr_body (q : ascii) (s : str) : option (str * str) :=
  match s with
  | [] => None
  | c :: r =>
      if Ascii.eqb c q then Some ([], r)
      else if Ascii.eqb c "\" then
        match r with
        | [] => None
        | e :: r' =>
            if Ascii.eqb e "x" then
              match r' with
              | h1 :: h2 :: r'' =>
                  a <- Json.hex_val h1 ;;
                  b <- Json.hex_val h2 ;;
                  p <- unrepr_body q r'' ;;
                  Some (ascii_of_N (16 * a + b) :: fst p, snd p)
              | _ => None
              end
            else
              ch <- unrepr_escape q e ;;
              p <- unrepr_body q r' ;;
              Some (ch :: fst p, snd p)
        end
      else p <- unrepr_body q r ;; Some (c :: fst p, snd p)
  end.

(** the literal at the head of [s]: its value and the rest of [s] *)
Definition unrepr (s : str) : option (str * str) :=
  match s with
  | q :: r => unrepr_body q r
  | [] => None
  end.

(** the texts [_ai_ranking] compares a clue with, for one word *)
Definition definitions_of (nl : nltk) (word : str) : list str :=
  let syns := synsets nl (Py.lower word) in
  match syns with
  | [] => [word]
  | _ => map definition syns
  end.

(** ** What holds of the solver while a program runs *)

(** the feedback file holds the store, and the store holds each key once *)
Definition persisted (self : CrosswordSolver) : Prop :=
  NoDup (dict_keys (feedback_db self))
  /\ load_feedback_database (feedback_json self) = feedback_db self.

(** the last result, if there is one, is filed under an upper-case pattern *)
Definition results_upper (self : CrosswordSolver) : Prop :=
  match current_results self with
  | Some ((_, pattern), _) => Py.upper pattern = pattern
  | None => True
  end.

(** a model that finds every definition equally close to every clue *)
Definition toy_model : sim_model :=
  {| similarities := fun _ definitions => map (fun _ => 1 # 2) definitions |}.

(** CAT as [toy_model] scores it for a clue of two tokens *)
Definition cat_by_model : ranked :=
  ("CAT" : str, 106 # 200,
   "feline mammal usually having thick soft fur and no ability to roar" : str).

(** the four properties a session keeps, for a solver built from the word
    list [wl] *)
Definition in_session (wl : list str) (self : CrosswordSolver) : Prop :=
  word_list self = wl /\ excluded_words self = []
  /\ persisted self /\ results_upper self.

(** what the dictionary scorer answers for "Feline pet" and C?T over the
    words CAT and COT *)
Definition feline_answer : list ranked :=
  Eval vm_compute in
    match _wordnet_ranking toy_nltk "Feline pet" (words ["CAT"; "COT"]) with
    | Some r => r
    | None => []
    end.

(** what the two programs answer for "household pet" and ?ET: the second
    with VET remembered, over PET, VET and NET; the first with nothing
    remembered, over NET, VET and PET *)
Definition pet_answer : list ranked :=
  Eval vm_compute in
    match ranked_of (TestVariant.solve toy_nltk pet_solver
                       "household pet" "?et") with
    | Some r => r
    | None => []
    end.

Definition household_answer : list ranked :=
  Eval vm_compute in
    match ranked_of (Final.solve toy_nltk None
                       (toy_solver ["net"; "vet"; "pet"] [])
                       "household pet" "?et") with
    | Some r => r
    | None => []
    end.

(** * Facts *)

(** ** Characters *)

Ltac by_cases_on_char c :=
  destruct c as [[] [] [] [] [] [] [] []]; vm_compute;
  try reflexivity; try discriminate; auto.

Lemma upper_char_isupper (c : ascii) :
  Py.isalpha c = true -> Py.isupper (Py.upper_char c) = true.
Proof. by_cases_on_char c. Qed.

Lemma isupper_plain (c : ascii) :
  Py.isupper c = true ->
  Re.is_meta c = false /\ Ascii.eqb c "^" = false /\ Ascii.eqb c "$" = false
  /\ Ascii.eqb c "[" = false /\ Ascii.eqb c "{" = false.
Proof. by_cases_on_char c; intros; repeat split; discriminate. Qed.

Lemma alpha_or_wild_not_space (c : ascii) :
  Py.isalpha c = true \/ c = "?"%char -> Py.isspace c = false.
Proof.
  intros [H | ->]; [| reflexivity].
  revert H. by_cases_on_char c.
Qed.

Lemma upper_char_newline (c : ascii) :
  Py.upper_char c = Py.newline -> c = Py.newline.
Proof. by_cases_on_char c. Qed.

(** ** [strip] *)

Lemma lstrip_head (s : str) c r :
  Py.lstrip s = c :: r -> Py.isspace c = false.
Proof.
  induction s as [| a s IH]; simpl; [discriminate |].
  destruct (Py.isspace a) eqn:E; [exact IH |].
  intros [= <- <-]. exact E.
Qed.

Lemma lstrip_nil (s : str) :
  Py.lstrip s = [] <-> forallb Py.isspace s = true.
Proof.
  induction s as [| a s IH]; simpl; [tauto |].
  destruct (Py.isspace a); simpl; [exact IH |].
  split; discriminate.
Qed.

Lemma lstrip_all_space (s : str) :
  forallb Py.isspace (Py.lstrip s) = forallb Py.isspace s.
Proof.
  induction s as [| a s IH]; simpl; [reflexivity |].
  destruct (Py.isspace a) eqn:E; simpl; [exact IH |].
  rewrite E. reflexivity.
Qed.

Lemma forallb_rev {A} (f : A -> bool) (l : list A) :
  forallb f (rev l) = forallb f l.
Proof.
  induction l as [| a l IH]; simpl; [reflexivity |].
  rewrite forallb_app, IH. simpl. rewrite andb_true_r. apply andb_comm.
Qed.

(** [s.strip() == ""] exactly when [s] is made of white space *)
Lemma strip_empty (s : str) :
  Py.is_empty (Py.strip s) = forallb Py.isspace s.
Proof.
  unfold Py.strip, Py.rstrip.
  destruct (forallb Py.isspace s) eqn:E.
  - apply lstrip_nil in E. rewrite E. reflexivity.
  - destruct (rev (Py.lstrip (rev (Py.lstrip s)))) eqn:R; [| reflexivity].
    apply (f_equal (@rev ascii)) in R. rewrite rev_involutive in R.
    simpl in R. apply lstrip_nil in R.
    rewrite forallb_rev, lstrip_all_space in R. congruence.
Qed.

Lemma strip_last (s x : str) c :
  Py.strip s = x ++ [c] -> Py.isspace c = false.
Proof.
  unfold Py.strip, Py.rstrip. intros H.
  apply (f_equal (@rev ascii)) in H.
  rewrite rev_involutive, rev_app_distr in H. simpl in H.
  exact (lstrip_head _ _ _ H).
Qed.

(** A word of the lexicon is not empty and does not end in a line feed. *)
Lemma lexicon_word (lines : list str) (w : str) :
  In w (load_word_database lines) ->
  w <> [] /\ forall w', w <> w' ++ [Py.newline].
Proof.
  unfold load_word_database. intros H.
  apply in_map_iff in H. destruct H as (line & <- & H).
  apply filter_In in H. destruct H as [_ H].
  split.
  - intros E. unfold Py.upper in E. apply map_eq_nil in E.
    rewrite E in H. discriminate.
  - intros w' E. unfold Py.upper in E.
    apply map_eq_app in E. destruct E as (x & y & E & _ & Ey).
    destruct y as [| c [| ? ?]]; try discriminate.
    injection Ey as Ec. apply upper_char_newline in Ec. subst c.
    apply strip_last in E. discriminate.
Qed.

(** ** What [pattern_to_regex] compiles to *)

Lemma read_quant_plain (s : str) :
  match s with c :: _ => Ascii.eqb c "{" = false | [] => True end ->
  Re.read_quant s = Some (1%nat, 1%nat, s).
Proof.
  destruct s as [| c r]; simpl; [reflexivity |].
  intros ->. reflexivity.
Qed.

Lemma body_head (p : str) :
  match body p ++ "$" with
  | c :: _ => Ascii.eqb c "{" = false
  | [] => True
  end.
Proof.
  destruct p as [| c p]; [reflexivity |].
  unfold body. simpl. unfold piece.
  destruct (Py.isalpha c) eqn:E; simpl; [| reflexivity].
  apply upper_char_isupper in E. apply isupper_plain in E. tauto.
Qed.

Lemma parse_body (p : str) :
  forall fuel, (length p + 2 <= fuel)%nat ->
  Re.parse fuel (body p ++ "$") = Some (map node_of p ++ [Re.Eol]).
Proof.
  induction p as [| c p IH]; intros fuel Hf.
  - destruct fuel as [| [| f]]; try lia. reflexivity.
  - destruct fuel as [| f]; [simpl in Hf; lia |].
    assert (Hp : (length p + 2 <= f)%nat) by (simpl in Hf; lia).
    specialize (IH f Hp).
    pose proof (read_quant_plain _ (body_head p)) as Hq.
    unfold body in *. simpl map. simpl concat. rewrite <- app_assoc.
    set (rest := concat (map piece p) ++ "$") in *.
    unfold piece at 1, node_of at 1.
    destruct (Py.isalpha c) eqn:E; simpl negb; cbv iota.
    + apply upper_char_isupper in E. apply isupper_plain in E.
      destruct E as (Em & E1 & E2 & E3 & _).
      simpl. rewrite E1, E2. rewrite E3, Em.
      simpl. rewrite Hq. simpl. rewrite IH. reflexivity.
    + change (Re.parse (S f) (("[A-Z]" : str) ++ rest))
        with (ar <- Some (Re.Class "A" "Z", rest) ;;
              q <- Re.read_quant (snd ar) ;;
              let '(m, n, rest) := q in
              ns <- Re.parse f rest ;;
              Some (Re.Rep (fst ar) m n :: ns)).
      simpl. rewrite Hq. simpl. rewrite IH. reflexivity.
Qed.

Lemma length_body (p : str) : (length p <= length (body p))%nat.
Proof.
  unfold body. induction p as [| c p IH]; simpl; [lia |].
  rewrite length_app.
  assert (1 <= length (piece c))%nat
    by (unfold piece; destruct (negb (Py.isalpha c)); cbn; lia).
  lia.
Qed.

(** Every regular expression the solver builds compiles. *)
Lemma parse_anchored (f : nat) (s : str) :
  Re.parse (S f) ("^"%char :: s) = ns <- Re.parse f s ;; Some (Re.Bol :: ns).
Proof. reflexivity. Qed.

Lemma compile_pattern_to_regex (pattern : str) :
  Re.compile (pattern_to_regex pattern) = Some (compiled pattern).
Proof.
  unfold pattern_to_regex, compiled, is_blank.
  destruct (Py.is_empty pattern || Py.is_empty (Py.strip pattern));
    [reflexivity |].
  fold piece. fold (body pattern).
  unfold Re.compile.
  change (("^" : str) ++ body pattern ++ "$")
    with ("^"%char :: (body pattern ++ "$")).
  rewrite parse_anchored, parse_body; [reflexivity |].
  cbn [length]. rewrite length_app. pose proof (length_body pattern).
  cbn. lia.
Qed.

Lemma re_match_pattern (pattern w : str) :
  Re.re_match (pattern_to_regex pattern) w
  = Some (Re.match_nodes (compiled pattern) 0 w).
Proof.
  unfold Re.re_match. rewrite compile_pattern_to_regex. reflexivity.
Qed.

Lemma satisfies_compiled (pattern w : str) :
  satisfies pattern w = Re.match_nodes (compiled pattern) 0 w.
Proof. unfold satisfies. rewrite re_match_pattern. reflexivity. Qed.

Lemma filter_re_compiled (regex : str) ns :
  Re.compile regex = Some ns ->
  forall l, filter_re regex l = Some (filter (Re.match_nodes ns 0) l).
Proof.
  intros Hc. induction l as [| w l IH]; [reflexivity |].
  simpl. unfold Re.re_match. rewrite Hc. simpl. rewrite IH. reflexivity.
Qed.

(** The list comprehension over the lexicon never raises. *)
Lemma filter_re_pattern (pattern : str) (l : list str) :
  filter_re (pattern_to_regex pattern) l = Some (filter (satisfies pattern) l).
Proof.
  rewrite (filter_re_compiled _ _ (compile_pattern_to_regex pattern)).
  f_equal. apply filter_ext. intros w. symmetry. apply satisfies_compiled.
Qed.

(** ** Matching a compiled pattern *)

Lemma match_pieces (p : str) :
  forall pos w,
  Re.match_nodes (map node_of p ++ [Re.Eol]) pos w = true ->
  length w = length p
  \/ exists w', w = w' ++ [Py.newline] /\ length w' = length p.
Proof.
  induction p as [| c p IH]; intros pos w H.
  - simpl in H. rewrite andb_true_r in H.
    destruct w as [| a [| ? ?]]; simpl in H; try discriminate.
    + left. reflexivity.
    + right. exists []. split; [| reflexivity].
      apply Ascii.eqb_eq in H. subst a. reflexivity.
  - assert (Hw : exists a w0, w = a :: w0
                 /\ Re.match_nodes (map node_of p ++ [Re.Eol]) (S pos) w0 = true).
    { simpl in H. unfold node_of in H.
      destruct (negb (Py.isalpha c)); simpl in H;
        (destruct w as [| a w0]; [discriminate |]);
        apply andb_true_iff in H; destruct H as [_ H];
        exists a, w0; split; auto. }
    destruct Hw as (a & w0 & -> & H0).
    destruct (IH _ _ H0) as [E | (w' & -> & E)].
    + left. simpl. congruence.
    + right. exists (a :: w'). split; [reflexivity | simpl; congruence].
Qed.

Lemma not_blank (pattern : str) :
  pattern <> [] ->
  Forall (fun c => Py.isalpha c = true \/ c = "?"%char) pattern ->
  is_blank pattern = false.
Proof.
  intros Hne Hall. unfold is_blank. rewrite strip_empty.
  destruct pattern as [| c p]; [congruence |].
  inversion Hall as [| ? ? Hc _]; subst.
  simpl. rewrite (alpha_or_wild_not_space _ Hc). reflexivity.
Qed.

(** A word of the lexicon that satisfies a pattern which is not blank has
    the length of the pattern. *)
Lemma satisfies_length (lines : list str) (pattern w : str) :
  is_blank pattern = false ->
  In w (load_word_database lines) ->
  satisfies pattern w = true ->
  length w = length pattern.
Proof.
  intros Hb Hin Hs. rewrite satisfies_compiled in Hs.
  unfold compiled in Hs. rewrite Hb in Hs.
  simpl in Hs.
  destruct (match_pieces _ _ _ Hs) as [E | (w' & E & _)]; [exact E |].
  destruct (lexicon_word _ _ Hin) as [_ Hnl]. elim (Hnl _ E).
Qed.

(** ** The candidate filter *)

Lemma is_vague_iff (pattern : str) :
  is_vague pattern = true
  <-> pattern = [] \/ Forall (fun c => c = "?"%char) pattern.
Proof.
  unfold is_vague. rewrite orb_true_iff, forallb_forall, Forall_forall.
  split.
  - intros [H | H]; [left; destruct pattern; [reflexivity | discriminate] |].
    right. intros c Hc. apply Ascii.eqb_eq. auto.
  - intros [-> | H]; [left; reflexivity |].
    right. intros c Hc. apply Ascii.eqb_eq. auto.
Qed.

(** The body of the [try] in closed form: the regular expression always
    compiles, so only the tokenizer can raise. *)
Lemma find_matches_try_eq (nl : nltk) (self : CrosswordSolver)
    (pattern clue : str) :
  find_matches_try nl self pattern clue =
  let matches := filter (satisfies pattern) (word_list self) in
  if is_vague pattern then
    tokenize <- word_tokenize nl ;;
    Some (filter (near (est_len_of (tokenize (Py.lower clue)))) matches)
  else Some matches.
Proof.
  unfold find_matches_try. rewrite filter_re_pattern. reflexivity.
Qed.

Lemma find_matches_try_raises (nl : nltk) (self : CrosswordSolver)
    (pattern clue : str) :
  find_matches_try nl self pattern clue = None
  <-> is_vague pattern = true /\ word_tokenize nl = None.
Proof.
  rewrite find_matches_try_eq. cbv zeta.
  destruct (is_vague pattern), (word_tokenize nl); simpl;
    split; try discriminate; try tauto; intros [? ?]; discriminate.
Qed.

Lemma find_matches_precise (nl : nltk) (self : CrosswordSolver)
    (pattern clue : str) :
  is_vague pattern = false ->
  find_matches nl self pattern clue
  = filter (satisfies pattern) (word_list self).
Proof.
  intros Hv. unfold find_matches. rewrite find_matches_try_eq, Hv.
  reflexivity.
Qed.

Lemma find_matches_vague (nl : nltk) tokenize (self : CrosswordSolver)
    (pattern clue : str) :
  is_vague pattern = true ->
  word_tokenize nl = Some tokenize ->
  find_matches nl self pattern clue
  = filter (near (est_len_of (tokenize (Py.lower clue))))
           (filter (satisfies pattern) (word_list self)).
Proof.
  intros Hv Ht. unfold find_matches. rewrite find_matches_try_eq, Hv, Ht.
  reflexivity.
Qed.

(** Off the [except] branch every candidate is a word of the lexicon that
    satisfies the pattern. *)
Lemma find_matches_sound (nl : nltk) (self : CrosswordSolver)
    (pattern clue w : str) :
  word_tokenize nl <> None \/ is_vague pattern = false ->
  In w (find_matches nl self pattern clue) ->
  In w (word_list self) /\ satisfies pattern w = true.
Proof.
  intros Hok Hin.
  destruct (is_vague pattern) eqn:Hv.
  - destruct Hok as [Hok | Hok]; [| discriminate].
    destruct (word_tokenize nl) as [tokenize |] eqn:Ht; [| congruence].
    rewrite (find_matches_vague _ _ _ _ _ Hv Ht) in Hin.
    apply filter_In in Hin. destruct Hin as [Hin _].
    apply filter_In in Hin. exact Hin.
  - rewrite (find_matches_precise _ _ _ _ Hv) in Hin.
    apply filter_In in Hin. exact Hin.
Qed.

(** ** Sorting by descending score *)

Lemma insert_desc_perm (x : ranked) (l : list ranked) :
  Permutation (x :: l) (insert_desc x l).
Proof.
  induction l as [| y l IH]; simpl; [reflexivity |].
  destruct (Qle_bool (score_of y) (score_of x)); [reflexivity |].
  rewrite perm_swap. apply perm_skip. exact IH.
Qed.

Lemma sorted_desc_perm (l : list ranked) : Permutation l (sorted_desc l).
Proof.
  induction l as [| x l IH]; simpl; [reflexivity |].
  rewrite <- insert_desc_perm. apply perm_skip. exact IH.
Qed.

Lemma by_score_desc_trans : Relation_Definitions.transitive _ by_score_desc.
Proof.
  intros a b c Hab Hbc. unfold by_score_desc in *.
  exact (Qle_trans _ _ _ Hbc Hab).
Qed.

Lemma insert_desc_sorted (x : ranked) (l : list ranked) :
  Sorted by_score_desc l -> Sorted by_score_desc (insert_desc x l).
Proof.
  induction l as [| y l IH]; intros Hs; simpl.
  - repeat constructor.
  - destruct (Qle_bool (score_of y) (score_of x)) eqn:E.
    + constructor; [exact Hs |]. constructor.
      apply Qle_bool_iff. exact E.
    + inversion Hs as [| ? ? Hl Hhd]; subst.
      assert (Hyx : by_score_desc y x).
      { unfold by_score_desc.
        destruct (Qlt_le_dec (score_of y) (score_of x)) as [Hlt | Hle];
          [| exact Hle].
        apply Qlt_le_weak in Hlt. apply Qle_bool_iff in Hlt. congruence. }
      constructor; [exact (IH Hl) |].
      destruct l as [| z l]; simpl; [constructor; exact Hyx |].
      destruct (Qle_bool (score_of z) (score_of x));
        constructor; [exact Hyx |].
      inversion Hhd; assumption.
Qed.

Lemma sorted_desc_sorted (l : list ranked) :
  StronglySorted by_score_desc (sorted_desc l).
Proof.
  apply Sorted_StronglySorted; [exact by_score_desc_trans |].
  induction l as [| x l IH]; simpl; [constructor |].
  apply insert_desc_sorted. exact IH.
Qed.

Lemma insert_desc_stable (k : Q) (x : ranked) (l : list ranked) :
  filter (has_score k) (insert_desc x l) = filter (has_score k) (x :: l).
Proof.
  induction l as [| y l IH]; [reflexivity |].
  simpl insert_desc.
  destruct (Qle_bool (score_of y) (score_of x)) eqn:E; [reflexivity |].
  change (filter (has_score k) (y :: insert_desc x l))
    with (if has_score k y then y :: filter (has_score k) (insert_desc x l)
          else filter (has_score k) (insert_desc x l)).
  rewrite IH. simpl.
  destruct (has_score k x) eqn:Ex, (has_score k y) eqn:Ey; try reflexivity.
  exfalso. unfold has_score in Ex, Ey.
  apply Qeq_bool_iff in Ex. apply Qeq_bool_iff in Ey.
  assert (H : score_of y <= score_of x)
    by (rewrite Ex, Ey; apply Qle_refl).
  apply Qle_bool_iff in H. congruence.
Qed.

Lemma sorted_desc_stable (k : Q) (l : list ranked) :
  filter (has_score k) (sorted_desc l) = filter (has_score k) l.
Proof.
  induction l as [| x l IH]; [reflexivity |].
  simpl sorted_desc. rewrite insert_desc_stable. simpl. rewrite IH.
  reflexivity.
Qed.

(** [sorted_desc] is a stable sort. *)
Lemma sorted_desc_stable_sort (l : list ranked) :
  stable_sort_of l (sorted_desc l).
Proof.
  split; [apply sorted_desc_perm |].
  split; [apply sorted_desc_sorted |].
  intros k. apply sorted_desc_stable.
Qed.

Lemma firstn_strongly_sorted {A} (R : A -> A -> Prop) (n : nat) (l : list A) :
  StronglySorted R l -> StronglySorted R (firstn n l).
Proof.
  revert l. induction n as [| n IH]; intros l Hs; [constructor |].
  destruct l as [| x l]; [constructor |].
  inversion Hs as [| ? ? Hl Hall]; subst. simpl.
  constructor; [exact (IH _ Hl) |].
  apply Forall_forall. intros y Hy.
  rewrite Forall_forall in Hall. apply Hall.
  rewrite <- (firstn_skipn n l). apply in_or_app. left. exact Hy.
Qed.

Lemma length_sorted_desc (l : list ranked) :
  length (sorted_desc l) = length l.
Proof. symmetry. apply Permutation_length, sorted_desc_perm. Qed.

(** candidates that all have the same score are already sorted *)
Lemma constant_score_sorted (l : list ranked) (k : Q) :
  Forall (fun r => score_of r = k) l -> stable_sort_of l l.
Proof.
  intros H. split; [reflexivity |]. split; [| reflexivity].
  induction H as [| x l Hx Hl IH]; constructor; [exact IH |].
  apply Forall_forall. intros y Hy.
  rewrite Forall_forall in Hl. unfold by_score_desc.
  rewrite Hx, (Hl _ Hy). apply Qle_refl.
Qed.

(** ** Sub-sequences *)

Lemma subseq_refl {A} (l : list A) : subseq l l.
Proof. induction l; constructor; assumption. Qed.

Lemma subseq_filter {A} (f : A -> bool) (l : list A) : subseq (filter f l) l.
Proof.
  induction l as [| x l IH]; simpl; [constructor |].
  destruct (f x); constructor; exact IH.
Qed.

Lemma subseq_nil_l {A} (l : list A) : subseq [] l.
Proof. induction l; constructor; assumption. Qed.

Lemma subseq_singleton {A} (x : A) (l : list A) : In x l -> subseq [x] l.
Proof.
  induction l as [| y l IH]; simpl; [tauto |].
  intros [-> | H].
  - constructor. apply subseq_nil_l.
  - constructor. exact (IH H).
Qed.

(** ** The two scorers *)

Lemma mem_In (x : str) (l : list str) : Py.mem x l = true <-> In x l.
Proof.
  unfold Py.mem. rewrite existsb_exists. unfold Py.str_eqb. split.
  - intros (y & Hy & E). destruct (list_eq_dec ascii_dec x y); congruence.
  - intros H. exists x. split; [exact H |].
    destruct (list_eq_dec ascii_dec x x); congruence.
Qed.

Lemma str_eqb_eq (a b : str) : Py.str_eqb a b = true <-> a = b.
Proof.
  unfold Py.str_eqb. destruct (list_eq_dec ascii_dec a b);
    split; congruence.
Qed.

Lemma word_of_score_word nl tokenize cw (w : str) :
  word_of (score_word nl tokenize cw w) = w.
Proof. unfold score_word. destruct (synsets nl (Py.lower w)); reflexivity. Qed.

Lemma words_of_scores nl tokenize cw (ms : list str) :
  map word_of (map (score_word nl tokenize cw) ms) = ms.
Proof.
  rewrite map_map. rewrite <- (map_id ms) at 2.
  apply map_ext. intros w. apply word_of_score_word.
Qed.

Lemma wordnet_ranking_eq nl tokenize (clue : str) (ms : list str) :
  word_tokenize nl = Some tokenize ->
  _wordnet_ranking nl clue ms
  = Some (firstn 3 (sorted_desc
        (map (score_word nl tokenize
                (lemma_set nl (tokenize (Py.lower clue)))) ms))).
Proof. intros H. unfold _wordnet_ranking. rewrite H. reflexivity. Qed.

Lemma wordnet_ranking_inv nl (clue : str) (ms : list str) r :
  _wordnet_ranking nl clue ms = Some r ->
  exists tokenize,
    word_tokenize nl = Some tokenize
    /\ r = firstn 3 (sorted_desc
        (map (score_word nl tokenize
                (lemma_set nl (tokenize (Py.lower clue)))) ms)).
Proof.
  unfold _wordnet_ranking. destruct (word_tokenize nl) as [t |];
    [| discriminate].
  simpl. intros [= <-]. exists t. split; reflexivity.
Qed.

Lemma wordnet_ranking_of nl (clue : str) (ms : list str) r :
  _wordnet_ranking nl clue ms = Some r -> ranking_of ms 3 r.
Proof.
  intros H. apply wordnet_ranking_inv in H. destruct H as (t & _ & ->).
  eexists _, _. split; [| split; [apply sorted_desc_stable_sort |]].
  - rewrite words_of_scores. apply subseq_refl.
  - reflexivity.
Qed.

Lemma words_of_ai_loop nl model excluded (clue : str) (ms : list str) scored :
  Final.ai_loop nl model excluded clue ms = Some scored ->
  map word_of scored = filter (fun w => negb (Py.mem w excluded)) ms.
Proof.
  revert scored. induction ms as [| w ms IH]; intros scored; simpl.
  - intros [= <-]. reflexivity.
  - destruct (Py.mem w excluded); simpl; [exact (IH scored) |].
    unfold Final.ai_score_word.
    destruct (Final.list_max _) as [mx |]; [| discriminate]. simpl.
    destruct (nth_error _ _) as [d |]; [| discriminate]. simpl.
    destruct (word_tokenize nl) as [t |]; [| discriminate]. simpl.
    destruct (Final.ai_loop nl model excluded clue ms) as [rs |];
      [| discriminate].
    simpl. intros [= <-]. simpl. f_equal. apply IH. reflexivity.
Qed.

Lemma ai_ranking_of nl model self (clue : str) (ms : list str) r :
  Final._ai_ranking nl model self clue ms = Some r -> ranking_of ms 3 r.
Proof.
  unfold Final._ai_ranking.
  destruct (Final.ai_loop _ _ _ _ _) as [scored |] eqn:E; [| discriminate].
  simpl. intros [= <-].
  exists scored, (sorted_desc scored).
  split; [| split; [apply sorted_desc_stable_sort | reflexivity]].
  rewrite (words_of_ai_loop _ _ _ _ _ _ E). apply subseq_filter.
Qed.

Lemma scoring_ranking_of nl sim self (clue : str) (ms : list str) r :
  Final.scoring nl sim self clue ms = Some r -> ranking_of ms 3 r.
Proof.
  unfold Final.scoring. destruct sim.
  - apply ai_ranking_of.
  - apply wordnet_ranking_of.
Qed.

Lemma no_clue_ranking_of (ms : list str) : ranking_of ms 3 (no_clue ms).
Proof.
  exists (map (fun m => (m, 0, "No clue provided" : str)) ms),
         (map (fun m => (m, 0, "No clue provided" : str)) ms).
  split; [| split].
  - rewrite map_map. simpl. rewrite map_id. apply subseq_refl.
  - apply (constant_score_sorted _ 0).
    apply Forall_forall. intros r Hr. apply in_map_iff in Hr.
    destruct Hr as (m & <- & _). reflexivity.
  - unfold no_clue. symmetry. apply firstn_map.
Qed.

Lemma singleton_ranking_of (ms : list str) (w : str) (k : Q) (d : str) :
  In w ms -> ranking_of ms 3 [(w, k, d)].
Proof.
  intros H. exists [(w, k, d)], [(w, k, d)].
  split; [apply subseq_singleton; exact H |].
  split; [| reflexivity].
  apply (constant_score_sorted _ k). repeat constructor.
Qed.

(** a ranking is bounded and in descending order *)
Lemma ranking_of_bounded (ms : list str) (n : nat) r :
  ranking_of ms n r ->
  (length r <= n)%nat /\ StronglySorted by_score_desc r.
Proof.
  intros (scored & s & _ & (_ & Hs & _) & ->). split.
  - apply firstn_le_length.
  - apply firstn_strongly_sorted. exact Hs.
Qed.

Lemma ranking_of_words (ms : list str) (n : nat) r (w : str) :
  ranking_of ms n r -> In w (map word_of r) -> In w ms.
Proof.
  intros (scored & s & Hsub & (Hp & _ & _) & ->) Hin.
  assert (Hs : In w (map word_of scored)).
  { apply in_map_iff in Hin. destruct Hin as (c & <- & Hc).
    apply in_map. apply (Permutation_in _ (Permutation_sym Hp)).
    rewrite <- (firstn_skipn n s). apply in_or_app. left. exact Hc. }
  clear - Hsub Hs. induction Hsub; simpl in *; tauto.
Qed.

Lemma ranking_of_shorter (ms : list str) (n m : nat) r :
  ranking_of ms n r -> ranking_of ms (Nat.min m n) (firstn m r).
Proof.
  intros (scored & s & Hsub & Hst & ->).
  exists scored, s. split; [exact Hsub |]. split; [exact Hst |].
  apply firstn_firstn.
Qed.

Lemma ranking_of_subseq (ms ms' : list str) (n : nat) r :
  subseq ms ms' -> ranking_of ms n r -> ranking_of ms' n r.
Proof.
  intros Hsub (scored & s & Hs & Hst & ->).
  exists scored, s. split; [| split; [exact Hst | reflexivity]].
  clear - Hsub Hs. revert Hs. generalize (map word_of scored) as l.
  induction Hsub; intros l Hl.
  - exact Hl.
  - inversion Hl; subst; constructor; auto.
  - constructor. auto.
Qed.

(** ** [rank_by_clue] and [solve] *)

Lemma final_solve_ranked nl sim self (clue pattern : str) :
  ranked_of (Final.solve nl sim self clue pattern)
  = Final.rank_by_clue nl sim self clue
      (find_matches nl self pattern clue) pattern.
Proof.
  unfold ranked_of, Final.solve.
  destruct (Final.rank_by_clue _ _ _ _ _ _); reflexivity.
Qed.

Lemma test_solve_ranked nl self (clue pattern : str) :
  ranked_of (TestVariant.solve nl self clue pattern)
  = TestVariant.rank_by_clue nl self clue
      (find_matches nl self pattern clue) pattern.
Proof.
  unfold ranked_of, TestVariant.solve.
  destruct (TestVariant.rank_by_clue _ _ _ _ _); reflexivity.
Qed.

Lemma is_empty_false (s : str) : s <> [] -> Py.is_empty s = false.
Proof. destruct s; [congruence | reflexivity]. Qed.

Lemma test_rank_by_clue_eq nl self (clue : str) (ms : list str)
    (pattern : str) :
  clue <> [] ->
  TestVariant.rank_by_clue nl self clue ms pattern
  = (other <- _wordnet_ranking nl clue (other_matches self clue pattern ms) ;;
     let r := remembered_answer nl self clue pattern ++ firstn 2 other in
     match r with
     | [] => all <- _wordnet_ranking nl clue ms ;; Some (firstn 3 all)
     | _ => Some r
     end).
Proof.
  intros Hc. unfold TestVariant.rank_by_clue, remembered_answer, other_matches.
  rewrite (is_empty_false _ Hc).
  destruct (dict_get _ _) as [correct |]; [| reflexivity].
  rewrite re_match_pattern, <- satisfies_compiled. simpl.
  destruct (satisfies pattern correct); reflexivity.
Qed.

Lemma other_matches_subseq (self : CrosswordSolver) (clue pattern : str)
    (ms : list str) :
  subseq (other_matches self clue pattern ms) ms.
Proof.
  unfold other_matches. destruct (dict_get _ _);
    [apply subseq_filter | apply subseq_refl].
Qed.

Lemma length_remembered nl self (clue pattern : str) :
  (length (remembered_answer nl self clue pattern) <= 1)%nat.
Proof.
  unfold remembered_answer. destruct (dict_get _ _); simpl; [| lia].
  destruct (satisfies _ _); simpl; lia.
Qed.

Lemma firstn_3_ranking (ms : list str) r :
  ranking_of ms 3 r -> firstn 3 r = r.
Proof.
  intros H. apply firstn_all2.
  apply (ranking_of_bounded _ _ _ H).
Qed.

(** ** The feedback store *)

Lemma dict_get_set (k k' v : str) (d : dict) :
  dict_get k' (dict_set k v d)
  = if Py.str_eqb k' k then Some v else dict_get k' d.
Proof.
  induction d as [| [k0 v0] d IH]; simpl.
  - destruct (Py.str_eqb k' k); reflexivity.
  - destruct (Py.str_eqb k k0) eqn:E; simpl.
    + apply str_eqb_eq in E. subst k0.
      destruct (Py.str_eqb k' k); reflexivity.
    + rewrite IH. destruct (Py.str_eqb k' k0) eqn:E0; [| reflexivity].
      apply str_eqb_eq in E0. subst k0.
      destruct (Py.str_eqb k' k) eqn:E1; [| reflexivity].
      apply str_eqb_eq in E1. subst k'.
      assert (Py.str_eqb k k = true) by (apply str_eqb_eq; reflexivity).
      congruence.
Qed.

(** assigning keeps every key where it is, and appends the key when it is
    new *)
Lemma dict_keys_set (k v : str) (d : dict) :
  dict_keys (dict_set k v d)
  = if Py.mem k (dict_keys d) then dict_keys d else dict_keys d ++ [k].
Proof.
  unfold dict_keys, Py.mem. induction d as [| [k0 v0] d IH]; [reflexivity |].
  simpl. destruct (Py.str_eqb k k0); simpl; [reflexivity |].
  rewrite IH. destruct (existsb (Py.str_eqb k) (map fst d)); reflexivity.
Qed.

Lemma dict_keys_grow (k v : str) (d : dict) :
  incl (dict_keys d) (dict_keys (dict_set k v d)).
Proof.
  rewrite dict_keys_set. destruct (Py.mem k (dict_keys d));
    [apply incl_refl | apply incl_appl, incl_refl].
Qed.

Lemma dict_set_nodup (k v : str) (d : dict) :
  NoDup (dict_keys d) -> NoDup (dict_keys (dict_set k v d)).
Proof.
  intros H. rewrite dict_keys_set.
  destruct (Py.mem k (dict_keys d)) eqn:E; [exact H |].
  apply NoDup_app; [exact H | repeat constructor; simpl; tauto |].
  intros x Hx [<- | []].
  apply mem_In in Hx. congruence.
Qed.

Lemma store_step_keys (before after : dict) :
  store_step before after -> incl (dict_keys before) (dict_keys after).
Proof.
  intros [-> | (c & p & w & ->)]; [apply incl_refl | apply dict_keys_grow].
Qed.

Lemma save_feedback_step (self : CrosswordSolver) (clue pattern word : str) :
  store_step (feedback_db self)
             (feedback_db (save_feedback self clue pattern word)).
Proof. right. exists clue, pattern, word. reflexivity. Qed.

Lemma final_solve_db nl sim self (clue pattern : str) self' res :
  Final.solve nl sim self clue pattern = Some (self', res) ->
  feedback_db self' = feedback_db self.
Proof.
  unfold Final.solve. destruct (Final.rank_by_clue _ _ _ _ _ _);
    [| discriminate].
  simpl. intros [= <- _]. reflexivity.
Qed.

Lemma test_solve_db nl self (clue pattern : str) self' res :
  TestVariant.solve nl self clue pattern = Some (self', res) ->
  feedback_db self' = feedback_db self.
Proof.
  unfold TestVariant.solve. destruct (TestVariant.rank_by_clue _ _ _ _ _);
    [| discriminate].
  simpl. intros [= <- _]. reflexivity.
Qed.

Lemma final__solve_db nl sim self (c p : str) :
  feedback_db (solver_after (Final._solve nl sim self c p))
  = feedback_db self.
Proof.
  unfold Final._solve. destruct (Py.is_empty (Py.strip c)); [reflexivity |].
  destruct (Final.solve _ _ _ _ _) as [[self' res] |] eqn:E;
    [| reflexivity].
  simpl. rewrite (final_solve_db _ _ _ _ _ _ _ E). reflexivity.
Qed.

Lemma test_app_solve_db nl self (c p : str) :
  feedback_db (solver_after (TestVariant.app_solve nl self c p))
  = feedback_db self.
Proof.
  unfold TestVariant.app_solve.
  destruct (Py.is_empty _ || Py.is_empty _); [reflexivity |].
  destruct (TestVariant.solve _ _ _ _) as [[self' res] |] eqn:E;
    [| reflexivity].
  simpl. exact (test_solve_db _ _ _ _ _ _ E).
Qed.

Lemma final_run_step nl sim self op :
  store_step (feedback_db self) (feedback_db (Final.run nl sim self op)).
Proof.
  destruct op; simpl.
  - apply save_feedback_step.
  - left. reflexivity.
  - left. reflexivity.
  - left. destruct (Final.solve _ _ _ _ _) as [[self' res] |] eqn:E;
      [exact (final_solve_db _ _ _ _ _ _ _ E) | reflexivity].
  - left. apply final__solve_db.
  - unfold Final._process_feedback.
    destruct is_correct; [| left; reflexivity].
    destruct (current_results self) as [[key ranked] |];
      [| left; reflexivity].
    destruct (_ && _); [| left; reflexivity].
    destruct (nth_error ranked 0); [| left; reflexivity].
    apply save_feedback_step.
  - unfold Final._submit_correction.
    destruct (Py.is_empty _); [left; reflexivity |].
    simpl. rewrite final__solve_db. apply save_feedback_step.
  - left. reflexivity.
  - left. reflexivity.
  - left. reflexivity.
  - left. reflexivity.
  - left. reflexivity.
Qed.

Lemma test_run_step nl self op :
  store_step (feedback_db self) (feedback_db (TestVariant.run nl self op)).
Proof.
  destruct op; simpl.
  - apply save_feedback_step.
  - left. reflexivity.
  - left. reflexivity.
  - left. destruct (TestVariant.solve _ _ _ _) as [[self' res] |] eqn:E;
      [exact (test_solve_db _ _ _ _ _ _ E) | reflexivity].
  - left. apply test_app_solve_db.
  - unfold TestVariant.app_save_feedback.
    destruct selected; [| left; reflexivity].
    apply save_feedback_step.
  - unfold TestVariant.enter_correct_word.
    destruct (Py.is_empty _ || Py.is_empty _); [left; reflexivity |].
    destruct answer as [[| a answer] |]; try (left; reflexivity).
    destruct (Re.re_match _ _) as [[] |]; try (left; reflexivity).
    match goal with
    | |- context [TestVariant.app_solve nl ?s ?c ?p] =>
        pose proof (test_app_solve_db nl s c p) as H;
        destruct (TestVariant.app_solve nl s c p)
    end; simpl in *; rewrite H; apply save_feedback_step.
  - left. reflexivity.
  - left. reflexivity.
  - left. reflexivity.
  - left. reflexivity.
Qed.

(** ** The feedback file: writing and reading back *)

Lemma scanstring_escape (c : ascii) (tail : str) :
  Json.scanstring (Json.escape_char c ++ tail)
  = (p <- Json.scanstring tail ;; Some (c :: fst p, snd p)).
Proof. destruct c as [[] [] [] [] [] [] [] []]; reflexivity. Qed.

Lemma scanstring_escaped (s tail : str) :
  Json.scanstring (escaped s ++ Py.dquote :: tail) = Some (s, tail).
Proof.
  unfold escaped. induction s as [| c s IH]; [reflexivity |].
  simpl concat. rewrite <- app_assoc, scanstring_escape, IH. reflexivity.
Qed.

Lemma encode_string_eq (s tail : str) :
  Json.encode_string s ++ tail
  = Py.dquote :: (escaped s ++ Py.dquote :: tail).
Proof.
  unfold Json.encode_string, escaped. simpl. rewrite <- app_assoc.
  reflexivity.
Qed.

Lemma scan_value_encoded (s tail : str) :
  Json.scan_value (Json.encode_string s ++ tail) = Some (s, tail).
Proof.
  rewrite encode_string_eq. unfold Json.scan_value.
  change (Ascii.eqb Py.dquote Py.dquote) with true. cbv iota.
  apply scanstring_escaped.
Qed.

Lemma dump_item_eq (kv : str * str) (tail : str) :
  Json.dump_item kv ++ tail
  = Json.encode_string (fst kv)
    ++ ":"%char :: " "%char :: (Json.encode_string (snd kv) ++ tail).
Proof.
  unfold Json.dump_item. rewrite <- !app_assoc. reflexivity.
Qed.

Lemma skip_ws_encoded (s tail : str) :
  Json.skip_ws (Json.encode_string s ++ tail) = Json.encode_string s ++ tail.
Proof. rewrite encode_string_eq. reflexivity. Qed.

Lemma members_tail_cons (kv : str * str) (r : list (str * str)) (rest : str) :
  members_tail (kv :: r) rest
  = ","%char :: Py.newline :: " "%char :: " "%char :: " "%char :: " "%char
    :: (Json.dump_item kv ++ members_tail r rest).
Proof.
  unfold members_tail. cbn [map concat]. rewrite <- !app_assoc.
  reflexivity.
Qed.

Lemma parse_pairs_dump (r : list (str * str)) :
  forall (kv : str * str) (fuel : nat) (rest : str),
  (length r < fuel)%nat ->
  Json.parse_pairs fuel (Json.dump_item kv ++ members_tail r rest)
  = Some (kv :: r, rest).
Proof.
  induction r as [| kv' r IH]; intros [k v] fuel rest Hf;
    (destruct fuel as [| f]; [simpl in Hf; lia |]).
  - cbn [Json.parse_pairs]. rewrite dump_item_eq, scan_value_encoded.
    cbn [bind snd fst].
    change (Json.skip_ws (":"%char :: " "%char
                          :: (Json.encode_string v ++ members_tail [] rest)))
      with (":"%char :: " "%char
            :: (Json.encode_string v ++ members_tail [] rest)).
    cbn [Json.expect]. change (Ascii.eqb ":" ":") with true. cbv iota.
    cbn [bind].
    change (Json.skip_ws (" "%char
                          :: (Json.encode_string v ++ members_tail [] rest)))
      with (Json.skip_ws (Json.encode_string v ++ members_tail [] rest)).
    rewrite skip_ws_encoded, scan_value_encoded. reflexivity.
  - cbn [Json.parse_pairs]. rewrite dump_item_eq, scan_value_encoded.
    cbn [bind snd fst].
    set (tail := members_tail (kv' :: r) rest).
    change (Json.skip_ws (":"%char :: " "%char
                          :: (Json.encode_string v ++ tail)))
      with (":"%char :: " "%char :: (Json.encode_string v ++ tail)).
    cbn [Json.expect]. change (Ascii.eqb ":" ":") with true. cbv iota.
    cbn [bind].
    change (Json.skip_ws (" "%char :: (Json.encode_string v ++ tail)))
      with (Json.skip_ws (Json.encode_string v ++ tail)).
    rewrite skip_ws_encoded, scan_value_encoded.
    cbn [bind snd fst]. unfold tail. rewrite members_tail_cons.
    set (next := Json.dump_item kv' ++ members_tail r rest).
    change (Json.skip_ws
              (","%char :: Py.newline :: " "%char :: " "%char :: " "%char
               :: " "%char :: next))
      with (","%char :: Py.newline :: " "%char :: " "%char :: " "%char
            :: " "%char :: next).
    cbv iota. change (Ascii.eqb "," "}") with false.
    change (Ascii.eqb "," ",") with true. cbv iota.
    change (Json.skip_ws
              (Py.newline :: " "%char :: " "%char :: " "%char
               :: " "%char :: next))
      with (Json.skip_ws next).
    unfold next. rewrite dump_item_eq, skip_ws_encoded, <- dump_item_eq.
    rewrite IH by (simpl in Hf; lia). reflexivity.
Qed.

Lemma length_members_tail (r : list (str * str)) (rest : str) :
  (length r < length (members_tail r rest))%nat.
Proof.
  induction r as [| kv r IH].
  - unfold members_tail. simpl. lia.
  - rewrite members_tail_cons. simpl. rewrite length_app. lia.
Qed.

Lemma dump_cons (kv : str * str) (r : list (str * str)) :
  Json.dump (kv :: r)
  = "{"%char :: Py.newline :: " "%char :: " "%char :: " "%char :: " "%char
    :: (Json.dump_item kv ++ members_tail r []).
Proof.
  unfold Json.dump, members_tail. reflexivity.
Qed.

Lemma load_dump_pairs (d : dict) :
  Json.load (Json.dump d) = Some (dict_of_pairs d).
Proof.
  destruct d as [| kv r]; [reflexivity |].
  rewrite dump_cons. unfold Json.load.
  set (item := Json.dump_item kv ++ members_tail r []).
  change (Json.skip_ws ("{"%char :: Py.newline :: " "%char :: " "%char
                        :: " "%char :: " "%char :: item))
    with ("{"%char :: Py.newline :: " "%char :: " "%char
          :: " "%char :: " "%char :: item).
  cbn [Json.expect]. change (Ascii.eqb "{" "{") with true. cbv iota.
  cbn [bind]. unfold Json.parse_object.
  change (Json.skip_ws (Py.newline :: " "%char :: " "%char
                        :: " "%char :: " "%char :: item))
    with (Json.skip_ws item).
  unfold item at 1. rewrite dump_item_eq, skip_ws_encoded, encode_string_eq.
  change (Ascii.eqb Py.dquote "}") with false. cbv iota.
  rewrite <- encode_string_eq, <- dump_item_eq. fold item.
  unfold item at 2. rewrite parse_pairs_dump; [reflexivity |].
  pose proof (length_members_tail r []). unfold item. cbn [length].
  rewrite length_app. lia.
Qed.

Lemma dict_set_new (k v : str) (d : dict) :
  ~ In k (dict_keys d) -> dict_set k v d = d ++ [(k, v)].
Proof.
  induction d as [| [k0 v0] d IH]; intros H; simpl; [reflexivity |].
  destruct (Py.str_eqb k k0) eqn:E.
  - apply str_eqb_eq in E. subst. simpl in H. tauto.
  - f_equal. apply IH. simpl in H. tauto.
Qed.

Lemma fold_dict_set_nodup (d acc : dict) :
  NoDup (dict_keys (acc ++ d)) ->
  fold_left (fun d0 kv => dict_set (fst kv) (snd kv) d0) d acc = acc ++ d.
Proof.
  revert acc. induction d as [| [k v] d IH]; intros acc H; simpl.
  - symmetry. apply app_nil_r.
  - rewrite dict_set_new.
    + rewrite IH; rewrite <- app_assoc; [reflexivity | exact H].
    + unfold dict_keys in *. rewrite map_app in H. simpl in H.
      apply NoDup_remove_2 in H. intros Hin. apply H.
      apply in_or_app. left. exact Hin.
Qed.

Lemma dict_of_pairs_nodup_id (d : dict) :
  NoDup (dict_keys d) -> dict_of_pairs d = d.
Proof. intros H. exact (fold_dict_set_nodup d [] H). Qed.

Lemma dict_of_pairs_nodup (pairs : list (str * str)) :
  NoDup (dict_keys (dict_of_pairs pairs)).
Proof.
  unfold dict_of_pairs.
  assert (G : forall acc, NoDup (dict_keys acc) ->
              NoDup (dict_keys
                (fold_left (fun d0 kv => dict_set (fst kv) (snd kv) d0)
                           pairs acc))).
  { induction pairs as [| kv pairs IH]; intros acc H; simpl; [exact H |].
    apply IH. apply dict_set_nodup. exact H. }
  apply G. constructor.
Qed.

Lemma load_nodup (text : str) d :
  Json.load text = Some d -> NoDup (dict_keys d).
Proof.
  unfold Json.load.
  destruct (Json.expect _ _) as [r |]; [| discriminate]. simpl.
  destruct (Json.parse_object r) as [pr |]; [| discriminate]. simpl.
  destruct (Py.is_empty _); [| discriminate].
  intros [= <-]. apply dict_of_pairs_nodup.
Qed.

Lemma loaded_nodup (file : option str) :
  NoDup (dict_keys (load_feedback_database file)).
Proof.
  unfold load_feedback_database. destruct file as [text |]; [| constructor].
  destruct (Json.load text) eqn:E; [| constructor].
  exact (load_nodup _ _ E).
Qed.

Lemma recorded_nodup (d0 d : dict) :
  NoDup (dict_keys d0) -> recorded_from d0 d -> NoDup (dict_keys d).
Proof.
  intros H0. induction 1 as [| d clue pattern word _ IH]; [exact H0 |].
  apply dict_set_nodup. exact IH.
Qed.

(** a store that can arise holds each key once *)
Lemma reachable_nodup (d : dict) : reachable_db d -> NoDup (dict_keys d).
Proof.
  intros [file H]. exact (recorded_nodup _ _ (loaded_nodup file) H).
Qed.

Lemma upper_char_idem (c : ascii) :
  Py.upper_char (Py.upper_char c) = Py.upper_char c.
Proof. by_cases_on_char c. Qed.

Lemma upper_idem (s : str) : Py.upper (Py.upper s) = Py.upper s.
Proof.
  unfold Py.upper. rewrite map_map. apply map_ext, upper_char_idem.
Qed.

Lemma dict_set_values (P : str -> Prop) (k v : str) (d : dict) :
  P v -> Forall (fun kv => P (snd kv)) d ->
  Forall (fun kv => P (snd kv)) (dict_set k v d).
Proof.
  intros Hv. induction 1 as [| [k0 v0] d H0 Hd IH]; simpl.
  - repeat constructor. exact Hv.
  - destruct (Py.str_eqb k k0); constructor; auto.
Qed.

(** every word recorded on top of the empty store is in upper case *)
Lemma recorded_upper (d : dict) :
  recorded_from [] d -> Forall (fun kv => Py.upper (snd kv) = snd kv) d.
Proof.
  induction 1 as [| d clue pattern word _ IH]; [constructor |].
  apply (dict_set_values (fun v => Py.upper v = v));
    [apply upper_idem | exact IH].
Qed.

Lemma load_dump (d : dict) :
  NoDup (dict_keys d) -> Json.load (Json.dump d) = Some d.
Proof.
  intros H. rewrite load_dump_pairs, (dict_of_pairs_nodup_id _ H).
  reflexivity.
Qed.

(** ** The correction handlers *)

(** The second program keeps a correction that does not satisfy the pattern
    out of the store: nothing changes, and when the fields are filled in the
    user is told. *)
Lemma enter_correct_word_rejects nl self (clue_entry pattern_entry : str)
    (answer : str) :
  satisfies (Py.upper (Py.strip pattern_entry)) (Py.upper (Py.strip answer))
  = false ->
  solver_after
    (TestVariant.enter_correct_word nl self clue_entry pattern_entry
       (Some answer)) = self
  /\ (Py.strip clue_entry <> [] -> Py.strip pattern_entry <> [] ->
      answer <> [] ->
      exists message,
        TestVariant.enter_correct_word nl self clue_entry pattern_entry
          (Some answer)
        = Done self [showerror "Invalid Word" message]).
Proof.
  intros Hs. unfold TestVariant.enter_correct_word.
  rewrite re_match_pattern, <- satisfies_compiled, Hs.
  split.
  - destruct (Py.is_empty _ || Py.is_empty _); [reflexivity |].
    destruct answer; reflexivity.
  - intros Hc Hp Ha.
    assert (Hu : Py.upper (Py.strip pattern_entry) <> [])
      by (unfold Py.upper; intros E; apply map_eq_nil in E; contradiction).
    rewrite (is_empty_false _ Hc), (is_empty_false _ Hu).
    destruct answer; [contradiction |]. eexists. reflexivity.
Qed.

(** Off the [except] branch, a pattern that is not blank (not empty, not
    white space only) fixes the length of every candidate, whatever stands at
    its positions. *)
Lemma find_matches_length_not_blank
    (nl : nltk) (self : CrosswordSolver) (lines : list str)
    (pattern clue w : str) :
  word_tokenize nl <> None \/ is_vague pattern = false ->
  word_list self = load_word_database lines ->
  is_blank pattern = false ->
  In w (find_matches nl self pattern clue) ->
  length w = length pattern.
Proof.
  intros Hok Hwl Hb Hin.
  destruct (find_matches_sound _ _ _ _ _ Hok Hin) as [Hw Hs].
  rewrite Hwl in Hw.
  exact (satisfies_length _ _ _ Hb Hw Hs).
Qed.

(** ** What a pattern asks of a word, position by position *)

Lemma match_pieces_iff (p : str) :
  forall pos w,
  Re.match_nodes (map node_of p ++ [Re.Eol]) pos w = true
  <-> exists w1 w2,
        w = w1 ++ w2
        /\ Forall2 (fun c x => if Py.isalpha c then x = Py.upper_char c
                               else Py.isupper x = true) p w1
        /\ Re.at_end w2 = true.
Proof.
  induction p as [| c p IH]; intros pos w.
  - simpl. rewrite andb_true_r. split.
    + intros H. exists [], w. repeat split; [constructor | exact H].
    + intros (w1 & w2 & -> & Hf & He). inversion Hf; subst. exact He.
  - assert (Hstep :
      Re.match_nodes (map node_of (c :: p) ++ [Re.Eol]) pos w = true
      <-> exists x w0, w = x :: w0
            /\ (if Py.isalpha c then x = Py.upper_char c
                else Py.isupper x = true)
            /\ Re.match_nodes (map node_of p ++ [Re.Eol]) (S pos) w0 = true).
    { simpl. unfold node_of at 1.
      destruct (Py.isalpha c); simpl; destruct w as [| x w0].
      - split; [discriminate | intros (? & ? & ? & _); discriminate].
      - rewrite andb_true_iff, Ascii.eqb_eq. split.
        + intros [<- H]. exists (Py.upper_char c), w0. auto.
        + intros (? & ? & [= <- <-] & -> & H). auto.
      - split; [discriminate | intros (? & ? & ? & _); discriminate].
      - rewrite andb_true_iff. split.
        + intros [Hx H]. exists x, w0. auto.
        + intros (? & ? & [= <- <-] & Hx & H). auto. }
    rewrite Hstep. split.
    + intros (x & w0 & -> & Hx & H). apply IH in H.
      destruct H as (w1 & w2 & -> & Hf & He).
      exists (x :: w1), w2. repeat split; [constructor; assumption | exact He].
    + intros (w1 & w2 & -> & Hf & He). inversion Hf as [| ? x ? w1' Hx Hf']; subst.
      exists x, (w1' ++ w2). repeat split; [exact Hx |].
      apply IH. exists w1', w2. auto.
Qed.

(** For a pattern that is not blank, a word without a final line feed
    satisfies it exactly when it has a letter of the pattern, in upper case,
    at each position that holds a letter, and some capital at each other
    position. *)
Lemma satisfies_positions (pattern w : str) :
  is_blank pattern = false ->
  (forall w', w <> w' ++ [Py.newline]) ->
  satisfies pattern w = true
  <-> Forall2 (fun c x => if Py.isalpha c then x = Py.upper_char c
                          else Py.isupper x = true) pattern w.
Proof.
  intros Hb Hnl. rewrite satisfies_compiled. unfold compiled. rewrite Hb.
  change (Re.match_nodes (Re.Bol :: map node_of pattern ++ [Re.Eol]) 0 w)
    with (Re.match_nodes (map node_of pattern ++ [Re.Eol]) 0 w).
  rewrite match_pieces_iff. split.
  - intros (w1 & w2 & -> & Hf & He).
    destruct w2 as [| a [| ? ?]]; try discriminate.
    + rewrite app_nil_r. exact Hf.
    + simpl in He. apply Ascii.eqb_eq in He. subst a.
      elim (Hnl w1). reflexivity.
  - intros Hf. exists w, []. rewrite app_nil_r. auto.
Qed.

Example satisfies_C_T :
  map (satisfies "C?T") (words ["CAT"; "COT"; "CUT"; "CATS"; "AT"; "cat"])
  = [true; true; true; false; false; false].
Proof. reflexivity. Qed.

Example satisfies_default :
  map (satisfies "")
      (words ["A"; "AB"; "ABCDEFGHIJKLMNO"; "ABCDEFGHIJKLMNOP"; "A1"])
  = [false; true; true; false; false].
Proof. reflexivity. Qed.

(** * The claims *)

(** C1, as the code has it.  Take a non-empty pattern made of ASCII letters
    and ['?'] only, and the word list [load_word_database] builds.  When the
    pattern holds a letter ([is_vague] is false), or the tokenizer does not
    raise, every word that [find_matches] returns has exactly the length of
    the pattern.  When the pattern is made of ['?'] alone and the tokenizer
    raises, [find_matches] returns the first 100 words of the list as they
    are. *)
Theorem C1_find_matches_exact_length
    (nl : nltk) (self : CrosswordSolver) (lines : list str)
    (pattern clue : str) :
  word_list self = load_word_database lines ->
  pattern <> [] ->
  Py.isascii pattern = true ->
  Forall (fun c => Py.isalpha c = true \/ c = "?"%char) pattern ->
  (is_vague pattern = false \/ word_tokenize nl <> None ->
   forall w, In w (find_matches nl self pattern clue) ->
             length w = length pattern)
  /\ (is_vague pattern = true -> word_tokenize nl = None ->
      find_matches nl self pattern clue = firstn 100 (word_list self)).
Proof.
  intros Hwl Hne _ Hall. split.
  - intros Hok w Hin.
    assert (Hok' : word_tokenize nl <> None \/ is_vague pattern = false)
      by tauto.
    exact (find_matches_length_not_blank _ _ _ _ _ _ Hok' Hwl
             (not_blank _ Hne Hall) Hin).
  - intros Hv Ht. unfold find_matches, try_except.
    assert (E : find_matches_try nl self pattern clue = None)
      by (apply find_matches_try_raises; auto).
    rewrite E. reflexivity.
Qed.

Lemma C1_witness :
  In ("COT" : str)
     (find_matches toy_nltk (toy_solver ["cat"; "cats"; "cot"; "at"] [])
                   "c?T" "Feline pet")
  /\ length ("COT" : str) = length ("c?T" : str).
Proof.
  assert (Hin : In ("COT" : str)
     (find_matches toy_nltk (toy_solver ["cat"; "cats"; "cot"; "at"] [])
                   "c?T" "Feline pet"))
    by (vm_compute; right; left; reflexivity).
  split; [exact Hin |].
  apply (C1_find_matches_exact_length toy_nltk
           (toy_solver ["cat"; "cats"; "cot"; "at"] [])
           (words ["cat"; "cats"; "cot"; "at"]) "c?T" "Feline pet").
  - reflexivity.
  - discriminate.
  - reflexivity.
  - repeat (apply Forall_cons || apply Forall_nil);
      (left; reflexivity) || (right; reflexivity).
  - left. reflexivity.
  - exact Hin.
Defined.

(** C1 as stated fails when the tokenizer raises: for the pattern ???, which
    is not empty and made of wildcards only, the filter falls back on the
    head of the word list and returns words of 4 and of 2 letters. *)
Lemma C1_counterexample :
  ("???" : str) <> []
  /\ Forall (fun c => Py.isalpha c = true \/ c = "?"%char) ("???" : str)
  /\ find_matches nltk_without_punkt (toy_solver ["cats"; "at"; "dog"] [])
                  "???" "Feline pet"
     = words ["CATS"; "AT"; "DOG"]
  /\ length ("CATS" : str) <> length ("???" : str)
  /\ length ("AT" : str) <> length ("???" : str).
Proof.
  split; [discriminate |]. split.
  - repeat (apply Forall_cons || apply Forall_nil); right; reflexivity.
  - split; [reflexivity |]. split; discriminate.
Qed.

(** C7.  When the body of the [try] in [find_matches] raises, the function
    does not raise: it returns the first 100 words of the lexicon in lexicon
    order, so at most 100 words, and at least one when the lexicon is not
    empty. *)
Theorem C7_find_matches_fallback
    (nl : nltk) (self : CrosswordSolver) (pattern clue : str) :
  find_matches_try nl self pattern clue = None ->
  find_matches nl self pattern clue = firstn 100 (word_list self)
  /\ (length (find_matches nl self pattern clue) <= 100)%nat
  /\ (word_list self <> [] -> find_matches nl self pattern clue <> []).
Proof.
  intros Hraise. unfold find_matches, try_except. rewrite Hraise.
  split; [reflexivity |]. split.
  - apply firstn_le_length.
  - destruct (word_list self); [congruence | discriminate].
Qed.

Lemma C7_witness :
  find_matches nltk_without_punkt (toy_solver ["cat"; "a"; "dog"] [])
               "??" "Feline pet"
  = words ["CAT"; "A"; "DOG"].
Proof.
  apply (C7_find_matches_fallback nltk_without_punkt
           (toy_solver ["cat"; "a"; "dog"] []) "??" "Feline pet").
  reflexivity.
Defined.

(** C10, as the code has it.  [find_matches] attempts the narrowing by the
    estimated length exactly when the pattern is the empty string or is made
    of ['?'] only.  For such a pattern the result is the narrowed list when
    the tokenizer returns, and the first 100 words of the word list, neither
    narrowed nor matched against the pattern, when the tokenizer raises.  Any
    other pattern returns every word that satisfies it, tokenizer or not;
    this includes a pattern of white space, which compiles to the default
    expression, and ["##"]. *)
Theorem C10_narrowing_exactly_when_vague
    (nl : nltk) (self : CrosswordSolver) (pattern clue : str) :
  (pattern = [] \/ Forall (fun c => c = "?"%char) pattern ->
   find_matches nl self pattern clue
   = match word_tokenize nl with
     | Some tokenize =>
         narrowed_to (est_len_of (tokenize (Py.lower clue))) self pattern
     | None => firstn 100 (word_list self)
     end)
  /\ (~ (pattern = [] \/ Forall (fun c => c = "?"%char) pattern) ->
      find_matches nl self pattern clue
      = filter (satisfies pattern) (word_list self))
  /\ (pattern <> [] -> Forall (fun c => Py.isspace c = true) pattern ->
      pattern_to_regex pattern = "^[A-Z]{2,15}$"
      /\ find_matches nl self pattern clue
         = filter (satisfies pattern) (word_list self))
  /\ find_matches nl self "##" clue
     = filter (satisfies "##") (word_list self).
Proof.
  split; [| split; [| split]].
  - intros Hv. apply is_vague_iff in Hv.
    destruct (word_tokenize nl) as [tokenize |] eqn:Ht.
    + exact (find_matches_vague _ _ _ _ _ Hv Ht).
    + unfold find_matches, try_except.
      assert (E : find_matches_try nl self pattern clue = None)
        by (apply find_matches_try_raises; auto).
      rewrite E. reflexivity.
  - intros Hv. apply find_matches_precise.
    destruct (is_vague pattern) eqn:E; [| reflexivity].
    apply is_vague_iff in E. contradiction.
  - intros Hne Hsp. split.
    + unfold pattern_to_regex. rewrite strip_empty.
      assert (Hb : forallb Py.isspace pattern = true)
        by (apply forallb_forall; apply Forall_forall; exact Hsp).
      rewrite Hb, orb_true_r. reflexivity.
    + apply find_matches_precise.
      destruct (is_vague pattern) eqn:E; [| reflexivity].
      apply is_vague_iff in E. destruct E as [E | E]; [contradiction |].
      destruct pattern as [| c p]; [contradiction |].
      inversion Hsp; inversion E; subst. discriminate.
  - apply find_matches_precise. reflexivity.
Qed.

Lemma C10_witness :
  find_matches toy_nltk (toy_solver ["cat"; "abcdefghij"; "at"] []) " " "pet"
  = words ["CAT"; "ABCDEFGHIJ"; "AT"]
  /\ find_matches toy_nltk (toy_solver ["cat"; "abcdefghij"; "at"] []) "" "pet"
     = words ["CAT"; "AT"].
Proof.
  pose proof (C10_narrowing_exactly_when_vague toy_nltk
                (toy_solver ["cat"; "abcdefghij"; "at"] []) " " "pet")
    as (_ & _ & Hspace & _).
  pose proof (C10_narrowing_exactly_when_vague toy_nltk
                (toy_solver ["cat"; "abcdefghij"; "at"] []) "" "pet")
    as (Hvague & _).
  split.
  - assert (Hne : (" " : str) <> []) by discriminate.
    assert (Hsp : Forall (fun c => Py.isspace c = true) (" " : str))
      by (repeat constructor).
    destruct (Hspace Hne Hsp) as [_ ->]. reflexivity.
  - rewrite Hvague; [reflexivity |]. left. reflexivity.
Defined.

(** C10 as stated fails when the tokenizer raises: for the empty pattern
    nothing is narrowed.  The filter returns the three words of the list, of
    3, 10 and 2 letters, which no estimate keeps together, and the
    one-letter word of another list, which the default expression rejects. *)
Lemma C10_counterexample :
  find_matches nltk_without_punkt
               (toy_solver ["cat"; "abcdefghij"; "at"] []) "" "pet"
  = words ["CAT"; "ABCDEFGHIJ"; "AT"]
  /\ (forall estimated_length,
        narrowed_to estimated_length
                    (toy_solver ["cat"; "abcdefghij"; "at"] []) ""
        <> words ["CAT"; "ABCDEFGHIJ"; "AT"])
  /\ find_matches nltk_without_punkt (toy_solver ["a"; "cat"] []) "" "pet"
     = words ["A"; "CAT"]
  /\ satisfies "" "A" = false.
Proof.
  split; [reflexivity |]. split; [| split; reflexivity].
  intros est H.
  assert (Hin : forall w, In w (words ["CAT"; "ABCDEFGHIJ"; "AT"]) ->
                          (Z.abs (Py.len w - est) <=? 3)%Z = true).
  { intros w Hw. rewrite <- H in Hw. unfold narrowed_to in Hw.
    apply filter_In in Hw. apply Hw. }
  assert (H10 := Hin ("ABCDEFGHIJ" : str)).
  assert (H2 := Hin ("AT" : str)).
  assert (E10 : (Z.abs (Py.len ("ABCDEFGHIJ" : str) - est) <=? 3)%Z = true)
    by (apply H10; right; left; reflexivity).
  assert (E2 : (Z.abs (Py.len ("AT" : str) - est) <=? 3)%Z = true)
    by (apply H2; right; right; left; reflexivity).
  apply Z.leb_le in E10, E2.
  change (Py.len ("ABCDEFGHIJ" : str)) with 10%Z in E10.
  change (Py.len ("AT" : str)) with 2%Z in E2.
  lia.
Qed.

(** C3, as the code has it.  For a pattern that is empty or made of ['?']
    only: when the tokenizer returns, [find_matches] keeps exactly the words
    satisfying the pattern whose length differs by at most 3 from
    [clamp(floor(token_count * 1.5), 2, 15)], where [token_count] is the
    number of tokens of the lower-cased clue (the product is truncated, not
    rounded); when the tokenizer raises, it returns the first 100 words of
    the word list and drops none. *)
Theorem C3_length_estimate_truncates
    (nl : nltk) (self : CrosswordSolver) (pattern clue : str) :
  pattern = [] \/ Forall (fun c => c = "?"%char) pattern ->
  find_matches nl self pattern clue
  = match word_tokenize nl with
    | Some tokenize =>
        narrowed_to
          (clamp ((3 * Py.len (tokenize (Py.lower clue))) / 2) 2 15)
          self pattern
    | None => firstn 100 (word_list self)
    end.
Proof.
  intros Hv. apply is_vague_iff in Hv.
  destruct (word_tokenize nl) as [tokenize |] eqn:Ht.
  - exact (find_matches_vague _ _ _ _ _ Hv Ht).
  - unfold find_matches, try_except.
    assert (E : find_matches_try nl self pattern clue = None)
      by (apply find_matches_try_raises; auto).
    rewrite E. reflexivity.
Qed.

Lemma C3_witness :
  find_matches toy_nltk (toy_solver ["abcd"; "abcdefghijk"; "a"] [])
               "" "a b c d e"
  = words ["ABCD"]
  /\ find_matches nltk_without_punkt
                  (toy_solver ["abcd"; "abcdefghijk"; "a"] []) "" "a b c d e"
     = words ["ABCD"; "ABCDEFGHIJK"; "A"].
Proof.
  split.
  - rewrite (C3_length_estimate_truncates toy_nltk
               (toy_solver ["abcd"; "abcdefghijk"; "a"] []) "" "a b c d e");
      [reflexivity | left; reflexivity].
  - rewrite (C3_length_estimate_truncates nltk_without_punkt
               (toy_solver ["abcd"; "abcdefghijk"; "a"] []) "" "a b c d e");
      [reflexivity | left; reflexivity].
Defined.

(** C3 as stated fails.  With a clue of five tokens the code estimates 7;
    rounding gives 8 under either convention for halves, and a word of four
    letters is kept by the code although it is 4 away from 8.  And a pattern
    made of wildcard characters other than ['?'], such as ["##"], is not
    narrowed at all: the two-letter word is kept, 5 away from the estimate. *)
Lemma C3_counterexample :
  find_matches toy_nltk (toy_solver ["abcd"; "abcdefghijk"] []) "" "a b c d e"
  = words ["ABCD"]
  /\ narrowed_to
       (clamp (round_times_1_5
                 (Py.len (blank_tokenize (Py.lower "a b c d e")))) 2 15)
       (toy_solver ["abcd"; "abcdefghijk"] []) ""
     = words ["ABCDEFGHIJK"]
  /\ narrowed_to
       (clamp (round_half_up_times_1_5
                 (Py.len (blank_tokenize (Py.lower "a b c d e")))) 2 15)
       (toy_solver ["abcd"; "abcdefghijk"] []) ""
     = words ["ABCDEFGHIJK"]
  /\ find_matches toy_nltk (toy_solver ["ab"; "abcd"] []) "##" "a b c d e"
     = words ["AB"]
  /\ narrowed_to
       (clamp ((3 * Py.len (blank_tokenize (Py.lower "a b c d e"))) / 2) 2 15)
       (toy_solver ["ab"; "abcd"] []) "##"
     = [].
Proof. vm_compute. repeat split. Qed.

(** the shape of what the second [rank_by_clue] returns for a clue that is
    not empty: the remembered answer, if it satisfies the pattern, then the
    first two of a ranking; or, with no such answer, the first three *)
Lemma test_rank_by_clue_shape nl self (clue : str) (ms : list str)
    (pattern : str) r :
  clue <> [] ->
  TestVariant.rank_by_clue nl self clue ms pattern = Some r ->
  exists rest n,
    r = remembered_answer nl self clue pattern ++ rest
    /\ ranking_of ms n rest
    /\ (n = 2%nat
        \/ n = 3%nat /\ remembered_answer nl self clue pattern = []).
Proof.
  intros Hc H. rewrite (test_rank_by_clue_eq _ _ _ _ _ Hc) in H.
  destruct (_wordnet_ranking nl clue (other_matches self clue pattern ms))
    as [other |] eqn:Eo; [| discriminate].
  cbv beta iota zeta delta [bind] in H.
  assert (Ho : ranking_of ms 2 (firstn 2 other)).
  { apply (ranking_of_subseq _ _ _ _
             (other_matches_subseq self clue pattern ms)).
    apply (ranking_of_shorter _ 3 2).
    exact (wordnet_ranking_of _ _ _ _ Eo). }
  destruct (remembered_answer nl self clue pattern ++ firstn 2 other)
    as [| x l] eqn:Er.
  - destruct (_wordnet_ranking nl clue ms) as [all |] eqn:Ea;
      [| discriminate].
    assert (Hall : r = firstn 3 all) by (cbv beta iota in H; congruence).
    subst r. clear H.
    pose proof (wordnet_ranking_of _ _ _ _ Ea) as Hr.
    rewrite (firstn_3_ranking _ _ Hr).
    apply app_eq_nil in Er. destruct Er as [Er _].
    exists all, 3%nat. rewrite Er. auto.
  - injection H as <-. rewrite <- Er.
    exists (firstn 2 other), 2%nat. auto.
Qed.

(** C4, as the code has it.  A ranking returned by [solve] has at most 3
    candidates.  In the first program it is in descending order of score, and
    it is the head of a stable sort of candidates taken in filter order.  In
    the second program, for a clue that is not empty, a remembered answer
    that satisfies the pattern stands first with score 1.0 whatever the other
    scores are, and the at most two candidates after it are in descending
    order, stable in the same sense; with no such answer (empty clue, nothing
    remembered, or a remembered word that does not satisfy the pattern) the
    whole ranking is in descending order, stable.  With the tokenizer
    installed and the dictionary scorer active, [solve] does return a
    ranking.  The order comes from the sort alone: whatever score each
    candidate is given, the first three of [sorted(..., reverse=True)] are
    bounded, descending and stable (last part). *)
Theorem C4_ranking_bounded_and_ordered
    (nl : nltk) (similarity_model : option sim_model)
    (self : CrosswordSolver) (clue pattern : str) :
  (forall r,
     ranked_of (Final.solve nl similarity_model self clue pattern) = Some r ->
     (length r <= 3)%nat
     /\ StronglySorted by_score_desc r
     /\ ranking_of (find_matches nl self pattern clue) 3 r)
  /\ (forall r,
        ranked_of (TestVariant.solve nl self clue pattern) = Some r ->
        (length r <= 3)%nat
        /\ (forall w,
              clue <> [] ->
              dict_get (feedback_key clue pattern) (feedback_db self)
              = Some w ->
              satisfies pattern w = true ->
              exists rest,
                r = (w, 1, first_definition nl w "User-provided") :: rest
                /\ (length rest <= 2)%nat
                /\ StronglySorted by_score_desc rest
                /\ ranking_of (find_matches nl self pattern clue) 2 rest)
        /\ (clue = []
            \/ dict_get (feedback_key clue pattern) (feedback_db self) = None
            \/ (exists w,
                  dict_get (feedback_key clue pattern) (feedback_db self)
                  = Some w
                  /\ satisfies pattern w = false) ->
            StronglySorted by_score_desc r
            /\ exists n, (n <= 3)%nat
                 /\ ranking_of (find_matches nl self pattern clue) n r))
  /\ (word_tokenize nl <> None ->
      (exists r, ranked_of (Final.solve nl None self clue pattern) = Some r)
      /\ (exists r, ranked_of (TestVariant.solve nl self clue pattern)
                    = Some r))
  /\ (forall (scored : str -> ranked) (candidates : list str),
        (forall w, word_of (scored w) = w) ->
        (length (firstn 3 (sorted_desc (map scored candidates))) <= 3)%nat
        /\ StronglySorted by_score_desc
             (firstn 3 (sorted_desc (map scored candidates)))
        /\ ranking_of candidates 3
             (firstn 3 (sorted_desc (map scored candidates)))).
Proof.
  set (ms := find_matches nl self pattern clue).
  split; [| split; [| split]].
  4: {
    intros scored candidates Hw.
    assert (Hr : ranking_of candidates 3
                   (firstn 3 (sorted_desc (map scored candidates)))).
    { exists (map scored candidates), (sorted_desc (map scored candidates)).
      split; [| split; [apply sorted_desc_stable_sort | reflexivity]].
      rewrite map_map. rewrite <- (map_id candidates) at 2.
      rewrite (map_ext _ _ Hw). apply subseq_refl. }
    destruct (ranking_of_bounded _ _ _ Hr). auto. }
  - intros r H. rewrite final_solve_ranked in H. fold ms in H.
    assert (Hr : ranking_of ms 3 r).
    { unfold Final.rank_by_clue in H.
      destruct (Py.is_empty clue).
      - injection H as <-. apply no_clue_ranking_of.
      - destruct (dict_get _ _) as [w |];
          [| exact (scoring_ranking_of _ _ _ _ _ _ H)].
        destruct (Py.mem w ms) eqn:Hm;
          [| exact (scoring_ranking_of _ _ _ _ _ _ H)].
        injection H as <-. apply singleton_ranking_of.
        apply mem_In. exact Hm. }
    destruct (ranking_of_bounded _ _ _ Hr). auto.
  - intros r H. rewrite test_solve_ranked in H. fold ms in H.
    destruct clue as [| c0 clue0].
    + injection H as <-.
      pose proof (no_clue_ranking_of ms) as Hr.
      destruct (ranking_of_bounded _ _ _ Hr) as [Hl Hs].
      split; [exact Hl |]. split; [intros w Hc; contradiction |].
      intros _. split; [exact Hs |]. exists 3%nat. auto.
    + set (clue := c0 :: clue0) in *.
      assert (Hc : clue <> []) by discriminate.
      destruct (test_rank_by_clue_shape _ _ _ _ _ _ Hc H)
        as (rest & n & -> & Hrest & Hn).
      destruct (ranking_of_bounded _ _ _ Hrest) as [Hl Hs].
      pose proof (length_remembered nl self clue pattern) as Hrem.
      split; [| split].
      * rewrite length_app. destruct Hn as [-> | [-> E]];
          [lia | rewrite E in *; simpl; lia].
      * intros w _ Hw Hsat. unfold remembered_answer in *.
        rewrite Hw, Hsat in *. exists rest.
        destruct Hn as [-> | [_ E]]; [| discriminate].
        repeat split; auto.
      * intros Hno.
        assert (E : remembered_answer nl self clue pattern = []).
        { unfold remembered_answer.
          destruct Hno as [Hno | [Hno | (w & Hw & Hsat)]];
            [contradiction | rewrite Hno; reflexivity |].
          rewrite Hw, Hsat. reflexivity. }
        rewrite E. simpl. split; [exact Hs |].
        exists n. split; [destruct Hn as [-> | [-> _]]; lia | exact Hrest].
  - intros Ht. destruct (word_tokenize nl) as [t |] eqn:Et; [| congruence].
    split.
    + rewrite final_solve_ranked. unfold Final.rank_by_clue, Final.scoring.
      rewrite !(wordnet_ranking_eq _ _ _ _ Et).
      destruct (Py.is_empty clue); [eexists; reflexivity |].
      destruct (dict_get _ _) as [w |]; [| eexists; reflexivity].
      destruct (Py.mem w _); eexists; reflexivity.
    + rewrite test_solve_ranked.
      destruct clue as [| c0 clue0]; [eexists; reflexivity |].
      rewrite test_rank_by_clue_eq by discriminate.
      rewrite !(wordnet_ranking_eq _ _ _ _ Et).
      cbv beta iota zeta delta [bind].
      destruct (remembered_answer _ _ _ _ ++ _); eexists; reflexivity.
Qed.

(** The second program on "household pet" and ?ET with VET remembered: VET
    first, then PET and NET in descending order.  The first program with
    nothing remembered, over NET, VET and PET: PET moves to the front, NET
    and VET tie and keep their order. *)
Lemma C4_witness :
  (exists rest,
     pet_answer
     = ("VET" : str, 1, first_definition toy_nltk "VET" "User-provided")
       :: rest
     /\ (length rest <= 2)%nat
     /\ StronglySorted by_score_desc rest
     /\ ranking_of (find_matches toy_nltk pet_solver "?et" "household pet")
                   2 rest)
  /\ map word_of pet_answer = words ["VET"; "PET"; "NET"]
  /\ map word_of household_answer = words ["PET"; "NET"; "VET"]
  /\ (length household_answer <= 3)%nat
  /\ StronglySorted by_score_desc household_answer
  /\ ranking_of (find_matches toy_nltk (toy_solver ["net"; "vet"; "pet"] [])
                              "?et" "household pet")
                3 household_answer.
Proof.
  pose proof (C4_ranking_bounded_and_ordered toy_nltk None pet_solver
                "household pet" "?et") as (_ & Htest & _).
  pose proof (C4_ranking_bounded_and_ordered toy_nltk None
                (toy_solver ["net"; "vet"; "pet"] [])
                "household pet" "?et") as (Hfinal & _).
  split; [| split; [reflexivity | split; [reflexivity |]]].
  - destruct (Htest pet_answer eq_refl) as (_ & Hfirst & _).
    apply (Hfirst "VET"); [discriminate | reflexivity | reflexivity].
  - apply (Hfinal household_answer). reflexivity.
Defined.

(** C4 as stated fails in the second program: the remembered answer VET
    (score 1.0) is followed by PET, whose score is 1.4. *)
Lemma C4_counterexample :
  option_map (map (fun c => (word_of c, Qred (score_of c))))
             (ranked_of (TestVariant.solve toy_nltk pet_solver
                           "household pet" "?et"))
  = Some [("VET" : str, 1); ("PET" : str, 7 # 5); ("NET" : str, 0)]
  /\ forall r,
       ranked_of (TestVariant.solve toy_nltk pet_solver
                    "household pet" "?et") = Some r ->
       ~ StronglySorted by_score_desc r.
Proof.
  split; [reflexivity |].
  intros r H. vm_compute in H. injection H as <-.
  intros Hs. inversion Hs as [| ? ? _ Hall]; subst.
  inversion Hall as [| ? ? Hpet _]; subst.
  vm_compute in Hpet. apply Hpet. reflexivity.
Qed.

Lemma filter_none_removed {A} (f : A -> bool) (l : list A) :
  (forall x, In x l -> f x = true) -> filter f l = l.
Proof.
  induction l as [| a l IH]; intros H; simpl; [reflexivity |].
  rewrite (H a (or_introl eq_refl)). f_equal. apply IH.
  intros x Hx. apply H. right. exact Hx.
Qed.

(** C2, as the code has it.  For a non-empty clue whose key has a stored
    word that is among the filtered candidates, [solve] puts that word first
    with score 1.0 and its primary definition (or the marker text when it has
    no sense).  In the first program it is the only candidate returned.  In
    the second program it is followed by the best two of the other
    candidates, as the dictionary scorer ranks them. *)
Theorem C2_remembered_answer_first
    (nl : nltk) (similarity_model : option sim_model)
    (self : CrosswordSolver) (clue pattern stored : str) :
  clue <> [] ->
  dict_get (feedback_key clue pattern) (feedback_db self) = Some stored ->
  In stored (find_matches nl self pattern clue) ->
  ranked_of (Final.solve nl similarity_model self clue pattern)
  = Some [(stored, 1, first_definition nl stored "User-corrected")]
  /\ (word_tokenize nl <> None ->
      exists others,
        ranked_of (TestVariant.solve nl self clue pattern)
        = Some ((stored, 1, first_definition nl stored "User-provided")
                :: others)
        /\ (length others <= 2)%nat
        /\ ~ In stored (map word_of others)
        /\ option_map (firstn 2)
             (_wordnet_ranking nl clue
                (filter (fun m => negb (Py.str_eqb m stored))
                        (find_matches nl self pattern clue)))
           = Some others).
Proof.
  intros Hc Hd Hin. split.
  - rewrite final_solve_ranked. unfold Final.rank_by_clue.
    rewrite (is_empty_false _ Hc), Hd.
    apply mem_In in Hin. rewrite Hin. reflexivity.
  - intros Ht.
    destruct (find_matches_sound _ _ _ _ _ (or_introl Ht) Hin) as [_ Hs].
    destruct (word_tokenize nl) as [t |] eqn:Et; [| congruence].
    rewrite test_solve_ranked, (test_rank_by_clue_eq _ _ _ _ _ Hc).
    unfold remembered_answer, other_matches. rewrite Hd, Hs.
    set (ms := filter _ (find_matches nl self pattern clue)).
    destruct (_wordnet_ranking nl clue ms) as [other |] eqn:Eo;
      [| rewrite (wordnet_ranking_eq _ _ _ _ Et) in Eo; discriminate].
    exists (firstn 2 other).
    pose proof (ranking_of_shorter _ 3 2 _ (wordnet_ranking_of _ _ _ _ Eo))
      as Hr.
    split; [reflexivity |]. split; [| split; [| reflexivity]].
    + apply (ranking_of_bounded _ _ _ Hr).
    + intros Hw. apply (ranking_of_words _ _ _ _ Hr) in Hw.
      unfold ms in Hw. apply filter_In in Hw. destruct Hw as [_ Hw].
      apply negb_true_iff in Hw.
      assert (Py.str_eqb stored stored = true) by (apply str_eqb_eq; auto).
      congruence.
Qed.

Lemma C2_witness :
  ranked_of (Final.solve toy_nltk None pet_solver "household pet" "?et")
  = Some [("VET" : str, 1, "a doctor who practices veterinary medicine" : str)].
Proof.
  apply (C2_remembered_answer_first toy_nltk None pet_solver
           "household pet" "?et" "VET").
  - discriminate.
  - reflexivity.
  - vm_compute. right. left. reflexivity.
Defined.

(** C2 as stated fails in the second program: the stored word VET is among
    the candidates, and [solve] returns three candidates, not one. *)
Lemma C2_counterexample :
  dict_get (feedback_key "household pet" "?et") (feedback_db pet_solver)
  = Some ("VET" : str)
  /\ In ("VET" : str)
        (find_matches toy_nltk pet_solver "?et" "household pet")
  /\ option_map (map word_of)
       (ranked_of (TestVariant.solve toy_nltk pet_solver
                     "household pet" "?et"))
     = Some (words ["VET"; "PET"; "NET"]).
Proof.
  split; [reflexivity |]. split; [| reflexivity].
  vm_compute. right. left. reflexivity.
Qed.

(** C5, as the code has it.  For a non-empty clue and a word stored for the
    key that does not satisfy the pattern.  In the second program the stored
    word is never returned: [solve] gives the best two of the dictionary
    ranking of the filtered candidates.  In the first program the same holds
    (the ranking is the one the active scorer gives for the filtered
    candidates, the stored word not among them) as long as the filter has not
    taken its [except] branch.  On that branch (a pattern made of ['?'] alone
    and a tokenizer that raises) the first program looks for the stored word
    among the first 100 words of the list, not at the pattern, and returns it
    alone with score 1.0 when it is there. *)
Theorem C5_stale_feedback_skipped
    (nl : nltk) (similarity_model : option sim_model)
    (self : CrosswordSolver) (clue pattern stored : str) :
  clue <> [] ->
  dict_get (feedback_key clue pattern) (feedback_db self) = Some stored ->
  satisfies pattern stored = false ->
  (word_tokenize nl <> None \/ is_vague pattern = false ->
   ~ In stored (find_matches nl self pattern clue)
   /\ ranked_of (Final.solve nl similarity_model self clue pattern)
      = Final.scoring nl similarity_model self clue
          (find_matches nl self pattern clue)
   /\ forall r,
        ranked_of (Final.solve nl similarity_model self clue pattern)
        = Some r ->
        ~ In stored (map word_of r))
  /\ (word_tokenize nl = None -> is_vague pattern = true ->
      In stored (firstn 100 (word_list self)) ->
      ranked_of (Final.solve nl similarity_model self clue pattern)
      = Some [(stored, 1, first_definition nl stored "User-corrected")])
  /\ ranked_of (TestVariant.solve nl self clue pattern)
     = option_map (firstn 2)
         (_wordnet_ranking nl clue (find_matches nl self pattern clue))
  /\ (forall r,
        ranked_of (TestVariant.solve nl self clue pattern) = Some r ->
        ~ In stored (map word_of r)).
Proof.
  intros Hc Hd Hs.
  set (ms := find_matches nl self pattern clue).
  assert (Hnot : word_tokenize nl <> None \/ is_vague pattern = false ->
                 ~ In stored ms).
  { intros Hok Hin. apply (find_matches_sound _ _ _ _ _ Hok) in Hin.
    destruct Hin as [_ Hin]. congruence. }
  assert (Hfinal : ~ In stored ms ->
                   ranked_of (Final.solve nl similarity_model self clue pattern)
                   = Final.scoring nl similarity_model self clue ms).
  { intros Hn. rewrite final_solve_ranked. unfold Final.rank_by_clue. fold ms.
    rewrite (is_empty_false _ Hc), Hd.
    destruct (Py.mem stored ms) eqn:Hm; [| reflexivity].
    apply mem_In in Hm. contradiction. }
  assert (Htest : ranked_of (TestVariant.solve nl self clue pattern)
                  = option_map (firstn 2) (_wordnet_ranking nl clue ms)).
  { rewrite test_solve_ranked, (test_rank_by_clue_eq _ _ _ _ _ Hc). fold ms.
    destruct (word_tokenize nl) as [t |] eqn:Et.
    - assert (Hn : ~ In stored ms)
        by (apply Hnot; left;
            first [discriminate | rewrite Et; discriminate]).
      unfold remembered_answer, other_matches. rewrite Hd, Hs.
      rewrite filter_none_removed.
      + destruct (_wordnet_ranking nl clue ms) as [other |]; [| reflexivity].
        cbv beta iota zeta delta [bind option_map app].
        destruct other as [| a other]; reflexivity.
      + intros m Hm. apply negb_true_iff.
        destruct (Py.str_eqb m stored) eqn:E; [| reflexivity].
        apply str_eqb_eq in E. subst m. contradiction.
    - unfold _wordnet_ranking. rewrite Et. reflexivity. }
  split; [| split; [| split; [exact Htest |]]].
  - intros Hok. pose proof (Hnot Hok) as Hn.
    split; [exact Hn |]. split; [exact (Hfinal Hn) |].
    intros r H Hw. rewrite (Hfinal Hn) in H. apply scoring_ranking_of in H.
    exact (Hn (ranking_of_words _ _ _ _ H Hw)).
  - intros Ht Hv Hin. rewrite final_solve_ranked. unfold Final.rank_by_clue.
    rewrite (is_empty_false _ Hc), Hd.
    assert (E : find_matches nl self pattern clue
                = firstn 100 (word_list self)).
    { unfold find_matches, try_except.
      assert (E : find_matches_try nl self pattern clue = None)
        by (apply find_matches_try_raises; auto).
      rewrite E. reflexivity. }
    rewrite E. apply mem_In in Hin. rewrite Hin. reflexivity.
  - intros r H Hw. rewrite Htest in H.
    destruct (_wordnet_ranking nl clue ms) as [other |] eqn:Eo;
      [| discriminate].
    injection H as <-.
    assert (Hn : ~ In stored ms).
    { apply Hnot. left. apply wordnet_ranking_inv in Eo.
      destruct Eo as (t & Et & _). rewrite Et. discriminate. }
    pose proof (ranking_of_shorter _ 3 2 _ (wordnet_ranking_of _ _ _ _ Eo))
      as Hr.
    exact (Hn (ranking_of_words _ _ _ _ Hr Hw)).
Qed.

Lemma C5_witness :
  ranked_of (Final.solve toy_nltk None stale_solver "Feline pet" "C?T")
  = Final.scoring toy_nltk None stale_solver "Feline pet"
      (words ["CAT"; "COT"])
  /\ ranked_of (TestVariant.solve toy_nltk stale_solver "Feline pet" "C?T")
     = option_map (firstn 2)
         (_wordnet_ranking toy_nltk "Feline pet" (words ["CAT"; "COT"])).
Proof.
  pose proof (C5_stale_feedback_skipped toy_nltk None stale_solver
                "Feline pet" "C?T" "DOG") as H.
  assert (Hc : ("Feline pet" : str) <> []) by discriminate.
  destruct (H Hc eq_refl eq_refl) as (Hfinal & _ & Htest & _).
  split.
  - apply Hfinal. left. discriminate.
  - exact Htest.
Defined.

(** C5 as stated fails in two ways.  For the empty clue the stale word is
    skipped, but the result is the unscored listing of candidates marked "No
    clue provided", which is not what the scorer returns for them.  And in
    the first program, when the tokenizer raises on the pattern ????, the
    stored word DOG, which has three letters, is found among the words the
    filter falls back on and is returned alone with score 1.0. *)
Lemma C5_counterexample :
  dict_get (feedback_key "" "C?T") (feedback_db stale_solver)
  = Some ("DOG" : str)
  /\ satisfies "C?T" "DOG" = false
  /\ ranked_of (Final.solve toy_nltk None stale_solver "" "C?T")
     = Some [("CAT" : str, 0, "No clue provided" : str);
             ("COT" : str, 0, "No clue provided" : str)]
  /\ ranked_of (Final.solve toy_nltk None stale_solver "" "C?T")
     <> Final.scoring toy_nltk None stale_solver ""
          (find_matches toy_nltk stale_solver "C?T" "")
  /\ ranked_of (TestVariant.solve toy_nltk stale_solver "" "C?T")
     <> option_map (firstn 2)
          (_wordnet_ranking toy_nltk ""
             (find_matches toy_nltk stale_solver "C?T" ""))
  /\ dict_get (feedback_key "Feline pet" "????")
              (feedback_db
                 (toy_solver ["cats"; "dog"]
                    [(feedback_key "Feline pet" "????", "DOG" : str)]))
     = Some ("DOG" : str)
  /\ satisfies "????" "DOG" = false
  /\ ranked_of (Final.solve nltk_without_punkt None
                  (toy_solver ["cats"; "dog"]
                     [(feedback_key "Feline pet" "????", "DOG" : str)])
                  "Feline pet" "????")
     = Some [("DOG" : str, 1, "User-corrected" : str)].
Proof.
  split; [reflexivity |]. split; [reflexivity |]. split; [reflexivity |].
  split; [vm_compute; discriminate |].
  split; [vm_compute; discriminate |].
  split; [reflexivity |]. split; reflexivity.
Qed.

(** C6.  The first program's [_submit_correction] does not validate the
    correction: for the pattern C?T and the correction DOG, which does not
    satisfy the pattern, it reports success, and the word is in the store and
    in the file.  (The second program's [enter_correct_word] rejects it, see
    [enter_correct_word_rejects].) *)
Theorem C6_submit_correction_records_mismatch :
  satisfies "C?T" "DOG" = false
  /\ feedback_db
       (solver_after
          (Final._submit_correction toy_nltk None
             (toy_solver ["cat"; "dog"] []) "Feline pet" "C?T" "dog"))
     = [("('Feline pet', 'C?T')" : str, "DOG" : str)]
  /\ feedback_json
       (solver_after
          (Final._submit_correction toy_nltk None
             (toy_solver ["cat"; "dog"] []) "Feline pet" "C?T" "dog"))
     = Some (Json.dump [("('Feline pet', 'C?T')" : str, "DOG" : str)])
  /\ shown_by
       (Final._submit_correction toy_nltk None
          (toy_solver ["cat"; "dog"] []) "Feline pet" "C?T" "dog")
     = [showinfo "Success" "Correction saved!"]
  /\ TestVariant.enter_correct_word toy_nltk (toy_solver ["cat"; "dog"] [])
       "Feline pet" "C?T" (Some ("dog" : str))
     = Done (toy_solver ["cat"; "dog"] [])
            [showerror "Invalid Word"
               "The word 'DOG' does not match the pattern 'C?T'."].
Proof. repeat split. Qed.

(** C8.  Every operation either leaves the feedback store as it is or
    assigns one key an upper-cased word.  An assignment keeps every key in
    place, appends the key when it is new, and changes no other binding.  So
    no key is ever lost, over any sequence of operations, in either
    program. *)
Theorem C8_feedback_store_never_shrinks
    (nl : nltk) (similarity_model : option sim_model)
    (self : CrosswordSolver) :
  (forall op,
     feedback_db (Final.run nl similarity_model self op) = feedback_db self
     \/ exists clue pattern word,
          feedback_db (Final.run nl similarity_model self op)
          = dict_set (feedback_key clue pattern) (Py.upper word)
                     (feedback_db self))
  /\ (forall op,
        feedback_db (TestVariant.run nl self op) = feedback_db self
        \/ exists clue pattern word,
             feedback_db (TestVariant.run nl self op)
             = dict_set (feedback_key clue pattern) (Py.upper word)
                        (feedback_db self))
  /\ (forall (k v : str) (d : dict),
        dict_keys (dict_set k v d)
        = (if Py.mem k (dict_keys d) then dict_keys d else dict_keys d ++ [k])
        /\ forall k', dict_get k' (dict_set k v d)
                      = if Py.str_eqb k' k then Some v else dict_get k' d)
  /\ (forall ops,
        incl (dict_keys (feedback_db self))
             (dict_keys (feedback_db
                (fold_left (Final.run nl similarity_model) ops self))))
  /\ (forall ops,
        incl (dict_keys (feedback_db self))
             (dict_keys (feedback_db
                (fold_left (TestVariant.run nl) ops self)))).
Proof.
  split; [exact (final_run_step nl similarity_model self) |].
  split; [exact (test_run_step nl self) |].
  split; [intros k v d; split;
          [apply dict_keys_set | intros k'; apply dict_get_set] |].
  split.
  - intros ops. revert self. induction ops as [| op ops IH]; intros self.
    + apply incl_refl.
    + simpl. eapply incl_tran; [| apply IH].
      apply store_step_keys, final_run_step.
  - intros ops. revert self. induction ops as [| op ops IH]; intros self.
    + apply incl_refl.
    + simpl. eapply incl_tran; [| apply IH].
      apply store_step_keys, test_run_step.
Qed.

(** C9.  A store that can arise (the one loaded at start-up, then any
    number of records) is read back unchanged from the text [json.dump]
    writes for it; in particular the file that [save_feedback] leaves behind
    reloads to the store the solver holds.  The store maps keys to the
    upper-cased words that were recorded. *)
Theorem C9_feedback_round_trip :
  (forall d,
     reachable_db d ->
     Json.load (Json.dump d) = Some d
     /\ load_feedback_database (Some (Json.dump d)) = d)
  /\ (forall self clue pattern word,
        reachable_db (feedback_db self) ->
        load_feedback_database
          (feedback_json (save_feedback self clue pattern word))
        = feedback_db (save_feedback self clue pattern word)
        /\ dict_get (feedback_key clue pattern)
             (feedback_db (save_feedback self clue pattern word))
           = Some (Py.upper word))
  /\ (forall d,
        recorded_from [] d ->
        Forall (fun kv => Py.upper (snd kv) = snd kv) d).
Proof.
  assert (G : forall d, reachable_db d ->
              Json.load (Json.dump d) = Some d
              /\ load_feedback_database (Some (Json.dump d)) = d).
  { intros d Hd. pose proof (load_dump _ (reachable_nodup _ Hd)) as H.
    split; [exact H |]. unfold load_feedback_database. rewrite H.
    reflexivity. }
  split; [exact G |]. split; [| exact recorded_upper].
  intros self clue pattern word [file Hd]. split.
  - simpl. apply G. exists file. constructor. exact Hd.
  - simpl. rewrite dict_get_set.
    assert (E : Py.str_eqb (feedback_key clue pattern)
                           (feedback_key clue pattern) = true)
      by (apply str_eqb_eq; reflexivity).
    rewrite E. reflexivity.
Qed.

Lemma C9_witness :
  Json.load
    (Json.dump
       (dict_set (feedback_key "Feline pet" "c?t") (Py.upper "cat")
          (load_feedback_database None)))
  = Some [("('Feline pet', 'C?T')" : str, "CAT" : str)].
Proof.
  apply (proj1 C9_feedback_round_trip
           (dict_set (feedback_key "Feline pet" "c?t") (Py.upper "cat")
              (load_feedback_database None))).
  exists None. apply rec_record. apply rec_start.
Defined.

(** * Further properties of the code *)

(** ** More on characters and [strip] *)

Lemma isspace_upper_char (c : ascii) :
  Py.isspace (Py.upper_char c) = Py.isspace c.
Proof. by_cases_on_char c. Qed.

Lemma isalpha_upper_char (c : ascii) :
  Py.isalpha (Py.upper_char c) = Py.isalpha c.
Proof. by_cases_on_char c. Qed.

Lemma upper_char_question (c : ascii) :
  Ascii.eqb (Py.upper_char c) "?" = Ascii.eqb c "?".
Proof. by_cases_on_char c. Qed.

Lemma lstrip_upper (s : str) : Py.lstrip (Py.upper s) = Py.upper (Py.lstrip s).
Proof.
  induction s as [| c s IH]; [reflexivity |].
  simpl. rewrite isspace_upper_char.
  destruct (Py.isspace c); [exact IH | reflexivity].
Qed.

Lemma strip_upper (s : str) : Py.strip (Py.upper s) = Py.upper (Py.strip s).
Proof.
  unfold Py.strip, Py.rstrip. rewrite lstrip_upper.
  unfold Py.upper at 1. rewrite <- map_rev. fold (Py.upper (rev (Py.lstrip s))).
  rewrite lstrip_upper. unfold Py.upper. rewrite map_rev. reflexivity.
Qed.

Lemma lstrip_split (s : str) :
  exists a, s = a ++ Py.lstrip s /\ forallb Py.isspace a = true.
Proof.
  induction s as [| c s (a & E & Ha)]; [exists []; auto |].
  simpl. destruct (Py.isspace c) eqn:Ec.
  - exists (c :: a). simpl. rewrite Ec, Ha. split; [congruence | reflexivity].
  - exists []. auto.
Qed.

Lemma lstrip_fixed (s : str) :
  match s with c :: _ => Py.isspace c = false | [] => True end ->
  Py.lstrip s = s.
Proof. destruct s as [| c s]; simpl; [reflexivity | intros ->; reflexivity]. Qed.

Lemma lstrip_idem (s : str) : Py.lstrip (Py.lstrip s) = Py.lstrip s.
Proof.
  apply lstrip_fixed. destruct (Py.lstrip s) as [| c r] eqn:E; [exact I |].
  exact (lstrip_head _ _ _ E).
Qed.

(** [strip] leaves nothing to strip at either end *)
Lemma strip_trimmed (s : str) :
  Py.lstrip (Py.strip s) = Py.strip s
  /\ Py.lstrip (rev (Py.strip s)) = rev (Py.strip s).
Proof.
  unfold Py.strip, Py.rstrip. set (x := Py.lstrip s).
  set (y := Py.lstrip (rev x)). split.
  - apply lstrip_fixed.
    destruct (lstrip_split (rev x)) as (a & E & Ha). fold y in E.
    apply (f_equal (@rev ascii)) in E.
    rewrite rev_involutive, rev_app_distr in E.
    destruct (rev y) as [| c r] eqn:Ey; [exact I |].
    simpl in E. unfold x in E.
    exact (lstrip_head _ _ _ E).
  - rewrite rev_involutive. apply lstrip_idem.
Qed.

Lemma strip_fixed (t : str) :
  Py.lstrip t = t -> Py.lstrip (rev t) = rev t -> Py.strip t = t.
Proof.
  intros H1 H2. unfold Py.strip, Py.rstrip. rewrite H1, H2.
  apply rev_involutive.
Qed.

Lemma strip_idem (s : str) : Py.strip (Py.strip s) = Py.strip s.
Proof. destruct (strip_trimmed s). apply strip_fixed; assumption. Qed.

(** ** The word list *)

Lemma lexicon_word_normal (lines : list str) (w : str) :
  In w (load_word_database lines) ->
  w <> [] /\ Py.strip w = w /\ Py.upper w = w.
Proof.
  intros H. split; [exact (proj1 (lexicon_word _ _ H)) |].
  unfold load_word_database in H. apply in_map_iff in H.
  destruct H as (line & <- & _). split.
  - rewrite strip_upper, strip_idem. reflexivity.
  - apply upper_idem.
Qed.

Lemma load_word_database_idem (lines : list str) :
  load_word_database (load_word_database lines) = load_word_database lines.
Proof.
  set (l := load_word_database lines).
  assert (H : forall w, In w l -> w <> [] /\ Py.strip w = w /\ Py.upper w = w)
    by (intros w; apply lexicon_word_normal).
  clearbody l. unfold load_word_database.
  rewrite filter_none_removed.
  - rewrite <- (map_id l) at 2. apply map_ext_in. intros w Hw.
    destruct (H w Hw) as (_ & -> & E). exact E.
  - intros w Hw. destruct (H w Hw) as (Hne & -> & _).
    destruct w; [congruence | reflexivity].
Qed.

(** X1.  Every word [load_word_database] returns is non-empty, has no white
    space at either end and no lower-case letter; blank lines give no word,
    so there are at most as many words as lines; and loading a list that was
    already loaded changes nothing. *)
Theorem X1_word_list_normal_form (lines : list str) :
  (forall w, In w (load_word_database lines) ->
     w <> [] /\ Py.strip w = w /\ Py.upper w = w
     /\ existsb Py.islower w = false)
  /\ (length (load_word_database lines) <= length lines)%nat
  /\ load_word_database (load_word_database lines) = load_word_database lines.
Proof.
  split; [| split].
  - intros w H. destruct (lexicon_word_normal _ _ H) as (Hne & Hs & Hu).
    repeat split; auto.
    clear - Hu. induction w as [| c w IH]; [reflexivity |].
    injection Hu as Hc Hw. simpl. rewrite (IH Hw), orb_false_r.
    revert Hc. clear. by_cases_on_char c.
  - unfold load_word_database. rewrite length_map. apply filter_length_le.
  - apply load_word_database_idem.
Qed.

(** X2.  Take a feedback file that is missing, or holds what [json.dump]
    last wrote for a store [d].  Then [__init__] raises exactly when no word
    can be loaded: the word file is missing, or each of its lines is made of
    white space only.  A solver that is built starts with the words loaded,
    with the empty store when the feedback file is missing and with [d] when
    it is there, with no cached result and nothing excluded. *)
Theorem X2_init_raises_iff_no_word
    (lines : list str) (feedback_file : option str) (d : dict) :
  NoDup (dict_keys d) ->
  feedback_file = None \/ feedback_file = Some (Json.dump d) ->
  init None feedback_file = None
  /\ (init (Some lines) feedback_file = None
      <-> Forall (fun line => forallb Py.isspace line = true) lines)
  /\ (forall self,
        init (Some lines) feedback_file = Some self ->
        word_list self = load_word_database lines
        /\ word_list self <> []
        /\ feedback_db self
           = match feedback_file with Some _ => d | None => [] end
        /\ current_results self = None
        /\ excluded_words self = []).
Proof.
  intros Hd Hf.
  assert (Hload : load_feedback_database feedback_file
                  = match feedback_file with Some _ => d | None => [] end).
  { destruct Hf as [-> | ->]; [reflexivity |].
    unfold load_feedback_database. rewrite (load_dump _ Hd). reflexivity. }
  split; [reflexivity |]. split.
  - unfold init.
    assert (E : load_word_database lines = []
                <-> Forall (fun line => forallb Py.isspace line = true) lines).
    { unfold load_word_database. induction lines as [| l lines IH]; simpl.
      - split; [constructor | reflexivity].
      - rewrite strip_empty.
        destruct (forallb Py.isspace l) eqn:El; simpl.
        + rewrite IH. split; [intros H; constructor; auto |].
          intros H. inversion H; auto.
        + split; [discriminate |]. intros H. inversion H; congruence. }
    destruct (load_word_database lines) eqn:El.
    + split; [intros _; apply E; reflexivity | reflexivity].
    + split; [discriminate |]. intros H. apply E in H. discriminate.
  - intros self H. unfold init in H.
    destruct (load_word_database lines) eqn:El; [discriminate |].
    injection H as <-. simpl. rewrite Hload. repeat split; auto.
    discriminate.
Qed.

Lemma X1_witness :
  load_word_database (words ["  cat "; "   "; "Dog"; ""]) = words ["CAT"; "DOG"]
  /\ Py.strip "CAT" = ("CAT" : str).
Proof.
  split; [reflexivity |].
  apply (proj1 (X1_word_list_normal_form (words ["  cat "; "   "; "Dog"; ""]))
               "CAT").
  vm_compute. left. reflexivity.
Defined.

Lemma X2_witness :
  init (Some (words [" "; ""])) None = None
  /\ feedback_db (toy_solver ["cat"] [("k" : str, "CAT" : str)])
     = [("k" : str, "CAT" : str)].
Proof.
  split.
  - apply (proj1 (proj2 (X2_init_raises_iff_no_word (words [" "; ""]) None []
                           (NoDup_nil _) (or_introl eq_refl)))).
    repeat constructor.
  - assert (Hd : NoDup (dict_keys [("k" : str, "CAT" : str)]))
      by (repeat constructor; intros []).
    apply (proj2 (proj2 (X2_init_raises_iff_no_word (words ["cat"])
                           (Some (Json.dump [("k" : str, "CAT" : str)]))
                           [("k" : str, "CAT" : str)]
                           Hd (or_intror eq_refl)))
             (toy_solver ["cat"] [("k" : str, "CAT" : str)])).
    reflexivity.
Defined.

(** ** The default expression and the case of a pattern *)

Lemma match_exactly_spec (a : Re.atom) (n : nat) (k : nat -> str -> bool) :
  forall pos w,
  Re.match_exactly a n k pos w = true
  <-> exists w1 w2,
        w = w1 ++ w2 /\ length w1 = n
        /\ forallb (Re.atom_ok a) w1 = true /\ k (n + pos)%nat w2 = true.
Proof.
  induction n as [| n IH]; intros pos w; simpl.
  - split.
    + intros H. exists [], w. auto.
    + intros (w1 & w2 & -> & Hl & _ & H).
      destruct w1; [exact H | discriminate].
  - destruct w as [| c w].
    + split; [discriminate |].
      intros (w1 & w2 & E & Hl & _). destruct w1; discriminate.
    + rewrite andb_true_iff, IH. split.
      * intros (Hc & w1 & w2 & -> & Hl & Hf & Hk).
        exists (c :: w1), w2. simpl. rewrite Hc, Hf.
        rewrite Nat.add_succ_r in Hk. repeat split; auto.
      * intros (w1 & w2 & E & Hl & Hf & Hk).
        destruct w1 as [| c1 w1]; [discriminate |].
        injection E as <- ->. simpl in Hf. apply andb_true_iff in Hf.
        destruct Hf as [Hc Hf]. split; [exact Hc |].
        exists w1, w2. rewrite Nat.add_succ_r. simpl in Hl.
        repeat split; auto.
Qed.

Lemma match_upto_end_spec (a : Re.atom) (n : nat) :
  forall pos w,
  Re.match_upto a n (Re.match_nodes [Re.Eol]) pos w = true
  <-> exists w1 w2,
        w = w1 ++ w2 /\ (length w1 <= n)%nat
        /\ forallb (Re.atom_ok a) w1 = true /\ Re.at_end w2 = true.
Proof.
  assert (Hk : forall pos w, Re.match_nodes [Re.Eol] pos w = Re.at_end w)
    by (intros; simpl; apply andb_true_r).
  induction n as [| n IH]; intros pos w; cbn [Re.match_upto].
  - rewrite Hk. split.
    + intros H. exists [], w. simpl. auto.
    + intros (w1 & w2 & -> & Hl & _ & H).
      destruct w1; [exact H | simpl in Hl; lia].
  - destruct w as [| c w].
    + rewrite Hk. split.
      * intros H. exists [], []. simpl. repeat split; auto; lia.
      * intros (w1 & w2 & E & _ & _ & H).
        destruct w1; [simpl in E; subst; exact H | discriminate].
    + rewrite orb_true_iff, andb_true_iff, IH, Hk. split.
      * intros [(Hc & w1 & w2 & -> & Hl & Hf & He) | He].
        -- exists (c :: w1), w2. simpl. rewrite Hc, Hf.
           repeat split; auto; lia.
        -- exists [], (c :: w). simpl. repeat split; auto; lia.
      * intros (w1 & w2 & E & Hl & Hf & He).
        destruct w1 as [| c1 w1].
        -- right. simpl in E. subst. exact He.
        -- left. injection E as <- ->. simpl in Hf.
           apply andb_true_iff in Hf. destruct Hf as [Hc Hf].
           split; [exact Hc |]. exists w1, w2. simpl in Hl.
           repeat split; auto; lia.
Qed.

(** what the default expression accepts *)
Lemma satisfies_blank (pattern w : str) :
  is_blank pattern = true ->
  (forall w', w <> w' ++ [Py.newline]) ->
  satisfies pattern w = true
  <-> (2 <= length w <= 15)%nat /\ forallb Py.isupper w = true.
Proof.
  intros Hb Hnl. rewrite satisfies_compiled. unfold compiled. rewrite Hb.
  change (Re.match_nodes [Re.Bol; Re.Rep (Re.Class "A" "Z") 2 15; Re.Eol] 0 w)
    with (Re.match_exactly (Re.Class "A" "Z") 2
            (Re.match_upto (Re.Class "A" "Z") 13 (Re.match_nodes [Re.Eol]))
            0 w).
  rewrite match_exactly_spec.
  assert (Hok : forall l, forallb (Re.atom_ok (Re.Class "A" "Z")) l
                          = forallb Py.isupper l)
    by (induction l as [| x l IHl]; [reflexivity | simpl; rewrite IHl;
        reflexivity]).
  split.
  - intros (w1 & w2 & -> & Hl & Hf & Hm).
    apply match_upto_end_spec in Hm.
    destruct Hm as (w3 & w4 & -> & Hl3 & Hf3 & He).
    destruct w4 as [| c [| ? ?]]; try discriminate.
    + rewrite Hok in Hf, Hf3.
      rewrite app_nil_r, forallb_app, Hf, Hf3, !length_app.
      split; [lia | reflexivity].
    + simpl in He. apply Ascii.eqb_eq in He. subst c.
      elim (Hnl (w1 ++ w3)). rewrite <- app_assoc. reflexivity.
  - intros [Hl Hf].
    exists (firstn 2 w), (skipn 2 w).
    rewrite firstn_skipn. split; [reflexivity |].
    split; [rewrite length_firstn; lia |].
    rewrite <- (firstn_skipn 2 w), forallb_app in Hf.
    apply andb_true_iff in Hf. destruct Hf as [Hf1 Hf2].
    rewrite <- Hok in Hf1, Hf2.
    split; [exact Hf1 |].
    apply match_upto_end_spec. exists (skipn 2 w), [].
    rewrite app_nil_r, length_skipn. repeat split; auto; lia.
Qed.

Lemma piece_upper_char (c : ascii) : piece (Py.upper_char c) = piece c.
Proof.
  unfold piece. rewrite isalpha_upper_char, upper_char_idem. reflexivity.
Qed.

Lemma forallb_isspace_upper (s : str) :
  forallb Py.isspace (Py.upper s) = forallb Py.isspace s.
Proof.
  unfold Py.upper. induction s as [| c s IH]; [reflexivity |].
  simpl. rewrite isspace_upper_char, IH. reflexivity.
Qed.

Lemma is_empty_upper (s : str) : Py.is_empty (Py.upper s) = Py.is_empty s.
Proof. destruct s; reflexivity. Qed.

(** the expression only depends on the pattern in upper case *)
Lemma pattern_to_regex_upper (pattern : str) :
  pattern_to_regex (Py.upper pattern) = pattern_to_regex pattern.
Proof.
  unfold pattern_to_regex.
  rewrite is_empty_upper, !strip_empty, forallb_isspace_upper.
  destruct (Py.is_empty pattern || forallb Py.isspace pattern);
    [reflexivity |].
  f_equal. f_equal. f_equal. fold piece. unfold Py.upper. rewrite map_map.
  apply map_ext. intros c. apply piece_upper_char.
Qed.

Lemma is_vague_upper (pattern : str) :
  is_vague (Py.upper pattern) = is_vague pattern.
Proof.
  unfold is_vague. rewrite is_empty_upper. f_equal.
  unfold Py.upper. induction pattern as [| c p IH]; [reflexivity |].
  simpl. rewrite upper_char_question, IH. reflexivity.
Qed.

Lemma find_matches_upper nl self (pattern clue : str) :
  find_matches nl self (Py.upper pattern) clue
  = find_matches nl self pattern clue.
Proof.
  unfold find_matches, find_matches_try.
  rewrite pattern_to_regex_upper, is_vague_upper. reflexivity.
Qed.

Lemma feedback_key_upper (clue pattern : str) :
  feedback_key clue (Py.upper pattern) = feedback_key clue pattern.
Proof. unfold feedback_key. rewrite upper_idem. reflexivity. Qed.

Lemma final_solve_upper nl sim self (clue pattern : str) :
  Final.solve nl sim self clue (Py.upper pattern)
  = Final.solve nl sim self clue pattern.
Proof.
  unfold Final.solve, Final.rank_by_clue.
  rewrite find_matches_upper, feedback_key_upper, upper_idem. reflexivity.
Qed.

Lemma test_solve_upper nl self (clue pattern : str) :
  TestVariant.solve nl self clue (Py.upper pattern)
  = TestVariant.solve nl self clue pattern.
Proof.
  unfold TestVariant.solve, TestVariant.rank_by_clue.
  rewrite find_matches_upper, feedback_key_upper, pattern_to_regex_upper,
    upper_idem.
  reflexivity.
Qed.

(** X3.  An empty or white-space pattern accepts exactly the words of 2 to
    15 capital letters (for a word that does not end in a line feed, as no
    word of the lexicon does). *)
Theorem X3_blank_pattern_accepts_2_to_15_capitals (pattern w : str) :
  pattern = [] \/ Forall (fun c => Py.isspace c = true) pattern ->
  (forall w', w <> w' ++ [Py.newline]) ->
  satisfies pattern w = true
  <-> (2 <= length w <= 15)%nat /\ forallb Py.isupper w = true.
Proof.
  intros Hp. apply satisfies_blank. unfold is_blank. rewrite strip_empty.
  destruct Hp as [-> | Hp]; [reflexivity |].
  assert (H : forallb Py.isspace pattern = true)
    by (apply forallb_forall; apply Forall_forall; exact Hp).
  rewrite H. apply orb_true_r.
Qed.

Lemma X3_witness :
  satisfies "  " "CROSSWORD" = true
  <-> (2 <= length ("CROSSWORD" : str) <= 15)%nat
      /\ forallb Py.isupper "CROSSWORD" = true.
Proof.
  apply (X3_blank_pattern_accepts_2_to_15_capitals "  " "CROSSWORD").
  - right. repeat constructor.
  - intros w' E. apply (f_equal (@rev ascii)) in E.
    rewrite rev_app_distr in E. discriminate.
Defined.

(** X4.  An ASCII pattern that is not blank accepts exactly the words of
    its own length that carry, at each position holding a letter, that
    letter in upper case, and at each other position (['?'], a digit, a
    blank inside the pattern, ...) one of the capital letters A to Z. *)
Theorem X4_pattern_positions (pattern w : str) :
  Py.isascii pattern = true ->
  pattern <> [] ->
  existsb (fun c => negb (Py.isspace c)) pattern = true ->
  (forall w', w <> w' ++ [Py.newline]) ->
  satisfies pattern w = true
  <-> Forall2 (fun c x => if Py.isalpha c then x = Py.upper_char c
                          else Py.isupper x = true) pattern w.
Proof.
  intros _ Hne Hex. apply satisfies_positions.
  unfold is_blank. rewrite strip_empty, (is_empty_false _ Hne). simpl.
  destruct (forallb Py.isspace pattern) eqn:E; [| reflexivity].
  apply existsb_exists in Hex. destruct Hex as (c & Hc & Hn).
  rewrite forallb_forall in E. rewrite (E c Hc) in Hn. discriminate.
Qed.

Lemma X4_witness :
  satisfies "c 9?" "CATS" = true
  <-> Forall2 (fun c x => if Py.isalpha c then x = Py.upper_char c
                          else Py.isupper x = true)
              ("c 9?" : str) ("CATS" : str).
Proof.
  apply (X4_pattern_positions "c 9?" "CATS").
  - reflexivity.
  - discriminate.
  - reflexivity.
  - intros w' E. apply (f_equal (@rev ascii)) in E.
    rewrite rev_app_distr in E. discriminate.
Defined.

(** X5.  The case of the letters of an ASCII pattern does not matter: two
    ASCII patterns that agree once upper-cased give the same expression, the
    same candidates, the same feedback key and the same result of [solve],
    in both programs. *)
Theorem X5_pattern_case_is_irrelevant
    (nl : nltk) (similarity_model : option sim_model)
    (self : CrosswordSolver) (clue p q : str) :
  Py.isascii p = true ->
  Py.isascii q = true ->
  Py.upper p = Py.upper q ->
  pattern_to_regex p = pattern_to_regex q
  /\ find_matches nl self p clue = find_matches nl self q clue
  /\ feedback_key clue p = feedback_key clue q
  /\ Final.solve nl similarity_model self clue p
     = Final.solve nl similarity_model self clue q
  /\ TestVariant.solve nl self clue p = TestVariant.solve nl self clue q.
Proof.
  intros _ _ H.
  rewrite <- (pattern_to_regex_upper p), <- (pattern_to_regex_upper q).
  rewrite <- (find_matches_upper nl self p), <- (find_matches_upper nl self q).
  rewrite <- (final_solve_upper nl similarity_model self clue p),
          <- (final_solve_upper nl similarity_model self clue q).
  rewrite <- (test_solve_upper nl self clue p),
          <- (test_solve_upper nl self clue q).
  unfold feedback_key. rewrite H. repeat split.
Qed.

Lemma X5_witness :
  find_matches toy_nltk pet_solver "?eT" "household pet"
  = find_matches toy_nltk pet_solver "?Et" "household pet".
Proof.
  apply (X5_pattern_case_is_irrelevant toy_nltk None pet_solver
           "household pet" "?eT" "?Et").
  - reflexivity.
  - reflexivity.
  - reflexivity.
Defined.

(** ** More on the candidate filter *)

Lemma subseq_firstn {A} (n : nat) (l : list A) : subseq (firstn n l) l.
Proof.
  revert l. induction n as [| n IH]; intros l; simpl.
  - apply subseq_nil_l.
  - destruct l; constructor. apply IH.
Qed.

Lemma subseq_trans {A} (l1 l2 l3 : list A) :
  subseq l1 l2 -> subseq l2 l3 -> subseq l1 l3.
Proof.
  intros H12 H23. revert l1 H12.
  induction H23; intros l0 H12.
  - exact H12.
  - inversion H12; subst; constructor; auto.
  - constructor. auto.
Qed.

Lemma subseq_In {A} (l1 l2 : list A) (x : A) :
  subseq l1 l2 -> In x l1 -> In x l2.
Proof. induction 1; simpl; tauto. Qed.

Lemma subseq_length {A} (l1 l2 : list A) :
  subseq l1 l2 -> (length l1 <= length l2)%nat.
Proof. induction 1; simpl; lia. Qed.

Lemma find_matches_subseq nl self (pattern clue : str) :
  subseq (find_matches nl self pattern clue) (word_list self).
Proof.
  unfold find_matches, try_except. rewrite find_matches_try_eq. cbv zeta.
  destruct (is_vague pattern).
  - destruct (word_tokenize nl); cbv beta iota delta [bind].
    + eapply subseq_trans; apply subseq_filter.
    + apply subseq_firstn.
  - apply subseq_filter.
Qed.

Lemma est_len_bounds (tokens : list str) :
  (2 <= est_len_of tokens <= 15)%Z.
Proof. unfold est_len_of. lia. Qed.

Lemma filter_all_removed {A} (f : A -> bool) (l : list A) :
  (forall x, In x l -> f x = false) -> filter f l = [].
Proof.
  induction l as [| a l IH]; intros H; simpl; [reflexivity |].
  rewrite (H a (or_introl eq_refl)). apply IH.
  intros x Hx. apply H. right. exact Hx.
Qed.

(** X6.  Whatever it is given, [find_matches] returns words of the lexicon
    in lexicon order, each at most as often as the lexicon has it: this
    holds on the [except] branch too. *)
Theorem X6_candidates_are_lexicon_words_in_order
    (nl : nltk) (self : CrosswordSolver) (pattern clue : str) :
  subseq (find_matches nl self pattern clue) (word_list self)
  /\ (forall w, In w (find_matches nl self pattern clue) ->
                In w (word_list self))
  /\ (length (find_matches nl self pattern clue)
      <= length (word_list self))%nat.
Proof.
  pose proof (find_matches_subseq nl self pattern clue) as H.
  split; [exact H |]. split.
  - intros w. apply subseq_In. exact H.
  - apply subseq_length. exact H.
Qed.

(** X7.  A pattern made of ['?'] only fixes the length and is still narrowed
    by the clue: when its length is more than 3 away from the estimate
    (which always lies between 2 and 15), no candidate is returned, however
    many words of that length the lexicon has. *)
Theorem X7_wildcard_pattern_far_from_estimate
    (nl : nltk) (tokenize : str -> list str) (self : CrosswordSolver)
    (lines : list str) (pattern clue : str) :
  word_tokenize nl = Some tokenize ->
  word_list self = load_word_database lines ->
  pattern <> [] ->
  Forall (fun c => c = "?"%char) pattern ->
  (3 < Z.abs (Py.len pattern - est_len_of (tokenize (Py.lower clue))))%Z ->
  (2 <= est_len_of (tokenize (Py.lower clue)) <= 15)%Z
  /\ find_matches nl self pattern clue = [].
Proof.
  intros Ht Hwl Hne Hq Hfar. split; [apply est_len_bounds |].
  assert (Hv : is_vague pattern = true)
    by (apply is_vague_iff; right; exact Hq).
  rewrite (find_matches_vague _ _ _ _ _ Hv Ht).
  apply filter_all_removed. intros w Hw.
  apply filter_In in Hw. destruct Hw as [Hin Hs]. rewrite Hwl in Hin.
  assert (Hb : is_blank pattern = false).
  { apply not_blank; [exact Hne |].
    eapply Forall_impl; [| exact Hq]. intros c ->. right. reflexivity. }
  pose proof (satisfies_length _ _ _ Hb Hin Hs) as Hl.
  unfold near, Py.len. rewrite Hl. apply Z.leb_gt. exact Hfar.
Qed.

Lemma X7_witness :
  find_matches toy_nltk (toy_solver ["cat"; "dog"; "abcdefg"] [])
               "???" "small pet that purrs loudly"
  = [].
Proof.
  apply (X7_wildcard_pattern_far_from_estimate toy_nltk blank_tokenize
           (toy_solver ["cat"; "dog"; "abcdefg"] [])
           (words ["cat"; "dog"; "abcdefg"]) "???"
           "small pet that purrs loudly").
  - reflexivity.
  - reflexivity.
  - discriminate.
  - repeat constructor.
  - vm_compute. reflexivity.
Defined.

(** X8.  With no pattern at all, every candidate is a word of 2 to 15
    capital letters whose length is within 3 of the estimate. *)
Theorem X8_no_pattern_candidates
    (nl : nltk) (tokenize : str -> list str) (self : CrosswordSolver)
    (lines : list str) (clue w : str) :
  word_tokenize nl = Some tokenize ->
  word_list self = load_word_database lines ->
  In w (find_matches nl self [] clue) ->
  (2 <= Py.len w <= 15)%Z
  /\ (Z.abs (Py.len w - est_len_of (tokenize (Py.lower clue))) <= 3)%Z
  /\ forallb Py.isupper w = true.
Proof.
  intros Ht Hwl Hin.
  rewrite (find_matches_vague nl tokenize self [] clue eq_refl Ht) in Hin.
  apply filter_In in Hin. destruct Hin as [Hin Hnear].
  apply filter_In in Hin. destruct Hin as [Hin Hs]. rewrite Hwl in Hin.
  apply (satisfies_blank [] w eq_refl (proj2 (lexicon_word _ _ Hin))) in Hs.
  destruct Hs as [Hl Hup]. unfold near in Hnear. apply Z.leb_le in Hnear.
  unfold Py.len in *. repeat split; auto; lia.
Qed.

Lemma X8_witness :
  (2 <= Py.len ("CAT" : str) <= 15)%Z
  /\ (Z.abs (Py.len ("CAT" : str)
            - est_len_of (blank_tokenize (Py.lower "Feline pet"))) <= 3)%Z
  /\ forallb Py.isupper "CAT" = true.
Proof.
  apply (X8_no_pattern_candidates toy_nltk blank_tokenize
           (toy_solver ["cat"; "a"; "x-ray"] []) (words ["cat"; "a"; "x-ray"])
           "Feline pet" "CAT").
  - reflexivity.
  - reflexivity.
  - vm_compute. left. reflexivity.
Defined.

(** ** More on the scorers *)

Lemma weight_nonneg (n : Z) (w : Q) : (0 <= n)%Z -> 0 <= w -> 0 <= weight n w.
Proof.
  intros Hn Hw. unfold weight. apply Qmult_le_0_compat; [| exact Hw].
  change 0 with (inject_Z 0). rewrite <- Zle_Qle. exact Hn.
Qed.

Lemma inter_size_nonneg (a b : list str) : (0 <= inter_size a b)%Z.
Proof. unfold inter_size, Py.len. lia. Qed.

Lemma add_weight_nonneg (s : Q) (n : Z) (w : Q) :
  0 <= s -> (0 <= n)%Z -> 0 <= w -> 0 <= s + weight n w.
Proof.
  intros Hs Hn Hw. pose proof (weight_nonneg n w Hn Hw) as H.
  change 0 with (0 + 0). apply Qplus_le_compat; assumption.
Qed.

Lemma fold_left_inv {A B} (P : A -> Prop) (f : A -> B -> A) (l : list B) :
  (forall a b, P a -> P (f a b)) -> forall a, P a -> P (fold_left f l a).
Proof.
  intros Hf. induction l as [| b l IH]; intros a Ha; simpl; [exact Ha |].
  apply IH, Hf, Ha.
Qed.

Lemma score_word_nonneg nl tokenize cw (w : str) :
  0 <= score_of (score_word nl tokenize cw w).
Proof.
  unfold score_word. destruct (synsets nl (Py.lower w)) as [| s0 syns];
    [apply Qle_refl |].
  unfold score_of. cbn [fst snd].
  apply (fold_left_inv (fun s => 0 <= s)).
  - intros s syn Hs. apply (fold_left_inv (fun s => 0 <= s)).
    + intros s' h Hs'.
      apply add_weight_nonneg; [exact Hs' | apply inter_size_nonneg |].
      discriminate.
    + apply add_weight_nonneg; [exact Hs | apply inter_size_nonneg |].
      discriminate.
  - apply add_weight_nonneg; [apply Qle_refl | apply inter_size_nonneg |].
    discriminate.
Qed.

Lemma add_weight_zero (s : Q) (w : Q) : s == 0 -> s + weight 0 w == 0.
Proof. intros ->. unfold weight. ring. Qed.

Lemma score_word_no_clue_words nl tokenize (w : str) :
  score_of (score_word nl tokenize [] w) == 0.
Proof.
  unfold score_word. destruct (synsets nl (Py.lower w)) as [| s0 syns];
    [reflexivity |].
  unfold score_of. cbn [fst snd].
  apply (fold_left_inv (fun s => s == 0)).
  - intros s syn Hs. apply (fold_left_inv (fun s => s == 0)).
    + intros s' h Hs'. apply (add_weight_zero s'). exact Hs'.
    + apply (add_weight_zero s). exact Hs.
  - apply (add_weight_zero 0). reflexivity.
Qed.

Lemma sorted_desc_equal_scores (l : list ranked) :
  Forall (fun c => score_of c == 0) l -> sorted_desc l = l.
Proof.
  induction 1 as [| x l Hx Hl IH]; [reflexivity |].
  simpl. rewrite IH. destruct l as [| y l']; [reflexivity |].
  simpl. inversion Hl as [| ? ? Hy _]; subst.
  assert (E : Qle_bool (score_of y) (score_of x) = true)
    by (apply Qle_bool_iff; rewrite Hx, Hy; apply Qle_refl).
  rewrite E. reflexivity.
Qed.

Lemma Some_eq {A} (a b : A) : Some a = Some b -> a = b.
Proof. congruence. Qed.

Lemma firstn_In {A} (n : nat) (l : list A) (x : A) :
  In x (firstn n l) -> In x l.
Proof.
  intros H. rewrite <- (firstn_skipn n l). apply in_or_app. left. exact H.
Qed.

Lemma wordnet_ranking_members nl tokenize (clue : str) (ms : list str) r c :
  word_tokenize nl = Some tokenize ->
  _wordnet_ranking nl clue ms = Some r ->
  In c r ->
  In (word_of c) ms
  /\ c = score_word nl tokenize (lemma_set nl (tokenize (Py.lower clue)))
                    (word_of c).
Proof.
  intros Ht H Hc. rewrite (wordnet_ranking_eq _ _ _ _ Ht) in H.
  apply Some_eq in H. subst r. apply firstn_In in Hc.
  apply (Permutation_in _ (Permutation_sym (sorted_desc_perm _))) in Hc.
  apply in_map_iff in Hc. destruct Hc as (m & <- & Hm).
  rewrite word_of_score_word. auto.
Qed.

(** X9.  [_wordnet_ranking] raises exactly when the tokenizer does, even for
    an empty candidate list; otherwise it returns min(3, number of
    candidates) entries, so an empty list for no candidates, and every entry
    is for one of the candidates. *)
Theorem X9_wordnet_ranking_size
    (nl : nltk) (clue : str) (matches : list str) :
  (_wordnet_ranking nl clue matches = None <-> word_tokenize nl = None)
  /\ (forall r,
        _wordnet_ranking nl clue matches = Some r ->
        length r = Nat.min 3 (length matches)
        /\ forall c, In c r -> In (word_of c) matches).
Proof.
  split.
  - unfold _wordnet_ranking. destruct (word_tokenize nl); simpl;
      split; congruence.
  - intros r H. destruct (wordnet_ranking_inv _ _ _ _ H) as (t & Ht & ->).
    split.
    + rewrite length_firstn, length_sorted_desc, length_map. reflexivity.
    + intros c Hc.
      exact (proj1 (wordnet_ranking_members _ _ _ _ _ _ Ht H Hc)).
Qed.

Lemma X9_witness :
  length [("NET" : str, 0 : Q, "No definition" : str)]
  = Nat.min 3 (length (words ["NET"])).
Proof.
  apply (proj2 (X9_wordnet_ranking_size toy_nltk "zebra" (words ["NET"]))).
  reflexivity.
Defined.

(** X10.  In a dictionary ranking no score is negative, and a word WordNet
    has no sense for is listed with score 0 and the text "No definition". *)
Theorem X10_wordnet_scores
    (nl : nltk) (clue : str) (matches : list str) (r : list ranked) :
  _wordnet_ranking nl clue matches = Some r ->
  Forall (fun c => 0 <= score_of c) r
  /\ forall c, In c r ->
       synsets nl (Py.lower (word_of c)) = [] ->
       c = (word_of c, 0, "No definition" : str).
Proof.
  intros H. destruct (wordnet_ranking_inv _ _ _ _ H) as (t & Ht & _).
  split.
  - apply Forall_forall. intros c Hc.
    rewrite (proj2 (wordnet_ranking_members _ _ _ _ _ _ Ht H Hc)).
    apply score_word_nonneg.
  - intros c Hc Hs.
    rewrite (proj2 (wordnet_ranking_members _ _ _ _ _ _ Ht H Hc)) at 1.
    unfold score_word. rewrite Hs. reflexivity.
Qed.

Lemma X10_witness :
  Forall (fun c => 0 <= score_of c)
         [("NET" : str, 0 : Q, "No definition" : str)].
Proof.
  apply (X10_wordnet_scores toy_nltk "household pet" (words ["NET"])).
  reflexivity.
Defined.

(** X11.  For a clue in which the tokenizer finds no token (a clue of
    blanks, say, which is not the empty clue), the dictionary ranking is the
    first three candidates in filter order, each with a score equal to 0. *)
Theorem X11_tokenless_clue_keeps_filter_order
    (nl : nltk) (tokenize : str -> list str) (clue : str)
    (matches : list str) (r : list ranked) :
  word_tokenize nl = Some tokenize ->
  tokenize (Py.lower clue) = [] ->
  _wordnet_ranking nl clue matches = Some r ->
  map word_of r = firstn 3 matches
  /\ Forall (fun c => score_of c == 0) r.
Proof.
  intros Ht Htok H. rewrite (wordnet_ranking_eq _ _ _ _ Ht), Htok in H.
  apply Some_eq in H. subst r. change (lemma_set nl []) with (@nil str).
  set (scored := map (score_word nl tokenize []) matches).
  assert (Hz : Forall (fun c => score_of c == 0) scored).
  { apply Forall_forall. intros c Hc. apply in_map_iff in Hc.
    destruct Hc as (m & <- & _). apply score_word_no_clue_words. }
  rewrite (sorted_desc_equal_scores _ Hz). split.
  - rewrite <- firstn_map. unfold scored. rewrite words_of_scores.
    reflexivity.
  - apply Forall_forall. intros c Hc. apply firstn_In in Hc.
    rewrite Forall_forall in Hz. auto.
Qed.

Lemma X11_witness :
  map word_of
      [("DOG" : str, 0 : Q, "No definition" : str);
       ("NET" : str, 0 : Q, "No definition" : str)]
  = firstn 3 (words ["DOG"; "NET"]).
Proof.
  apply (X11_tokenless_clue_keeps_filter_order toy_nltk blank_tokenize "  "
           (words ["DOG"; "NET"])).
  - reflexivity.
  - reflexivity.
  - reflexivity.
Defined.

(** the definitions [_ai_ranking] compares the clue with *)
Lemma ai_loop_members nl model excluded (clue : str) (ms : list str) scored c :
  Final.ai_loop nl model excluded clue ms = Some scored ->
  In c scored ->
  In (word_of c) ms /\ Py.mem (word_of c) excluded = false
  /\ Final.ai_score_word nl model clue (word_of c) = Some c.
Proof.
  revert scored. induction ms as [| w ms IH]; intros scored; simpl.
  - intros [= <-] [].
  - destruct (Py.mem w excluded) eqn:Em.
    + intros H Hc. destruct (IH _ H Hc) as (? & ? & ?). auto.
    + destruct (Final.ai_score_word nl model clue w) as [x |] eqn:Ex;
        [| discriminate]. simpl.
      destruct (Final.ai_loop nl model excluded clue ms) as [rs |];
        [| discriminate]. simpl.
      intros [= <-] [<- | Hc].
      * assert (Hw : word_of x = w).
        { unfold Final.ai_score_word in Ex.
          destruct (Final.list_max _); [| discriminate]. simpl in Ex.
          destruct (nth_error _ _); [| discriminate]. simpl in Ex.
          destruct (word_tokenize nl); [| discriminate]. simpl in Ex.
          injection Ex as <-. reflexivity. }
        rewrite Hw. auto.
      * destruct (IH _ eq_refl Hc) as (? & ? & ?). auto.
Qed.

(** X12.  The embedding ranking never lists an excluded word: each of its at
    most 3 entries is for a candidate that is not in [excluded_words]. *)
Theorem X12_ai_ranking_skips_excluded
    (nl : nltk) (model : sim_model) (self : CrosswordSolver)
    (clue : str) (matches : list str) (r : list ranked) :
  Final._ai_ranking nl model self clue matches = Some r ->
  (length r <= 3)%nat
  /\ forall c, In c r ->
       In (word_of c) matches
       /\ Py.mem (word_of c) (excluded_words self) = false.
Proof.
  unfold Final._ai_ranking.
  destruct (Final.ai_loop _ _ _ _ _) as [scored |] eqn:E; [| discriminate].
  cbv beta iota delta [bind]. intros H. apply Some_eq in H. subst r.
  split; [apply firstn_le_length |].
  intros c Hc. apply firstn_In in Hc.
  apply (Permutation_in _ (Permutation_sym (sorted_desc_perm _))) in Hc.
  destruct (ai_loop_members _ _ _ _ _ _ _ E Hc) as (? & ? & _). auto.
Qed.

(** X13.  The score the embedding ranking gives a word is the best
    similarity of the clue with one of the word's definitions (with the word
    itself when it has none), plus a length term between 0 and 0.1: nothing
    when the word has as many letters as the clue has tokens, the full 0.1
    when the two differ by 4 or more.  The text shown is one of those
    definitions. *)
Theorem X13_ai_score_and_length_boost
    (nl : nltk) (model : sim_model) (tokenize : str -> list str)
    (clue word : str) (c : ranked) :
  word_tokenize nl = Some tokenize ->
  Final.ai_score_word nl model clue word = Some c ->
  exists max_sim,
    Final.list_max (similarities model clue (definitions_of nl word))
    = Some max_sim
    /\ max_sim <= score_of c /\ score_of c <= max_sim + (1 # 10)
    /\ (Py.len word = Py.len (tokenize clue) -> score_of c == max_sim)
    /\ ((4 <= Z.abs (Py.len word - Py.len (tokenize clue)))%Z ->
        score_of c == max_sim + (1 # 10))
    /\ In (def_of c) (definitions_of nl word).
Proof.
  intros Ht H. unfold Final.ai_score_word in H.
  fold (definitions_of nl word) in H. rewrite Ht in H.
  destruct (Final.list_max _) as [m |] eqn:Em; [| discriminate].
  cbv beta iota delta [bind] in H.
  destruct (nth_error _ _) as [d |] eqn:Ed; [| discriminate].
  apply Some_eq in H. subst c. exists m.
  unfold score_of, def_of. cbn [fst snd].
  set (dist := Z.abs (Py.len word - Py.len (tokenize clue))).
  assert (Hd : (0 <= dist)%Z) by (unfold dist; lia).
  assert (Hp : 0 <= (3 # 100) * Final.Zabs_Q (Py.len word - Py.len (tokenize clue))).
  { apply Qmult_le_0_compat; [discriminate |].
    unfold Final.Zabs_Q. change 0 with (inject_Z 0). rewrite <- Zle_Qle.
    exact Hd. }
  set (boost := Qmin (1 # 10)
                  ((3 # 100)
                   * Final.Zabs_Q (Py.len word - Py.len (tokenize clue)))).
  assert (Hb0 : 0 <= boost) by (apply Q.min_glb; [discriminate | exact Hp]).
  assert (Hb1 : boost <= 1 # 10) by apply Q.le_min_l.
  split; [reflexivity |]. split; [| split; [| split; [| split]]].
  - rewrite <- (Qplus_0_r m) at 1. apply Qplus_le_compat;
      [apply Qle_refl | exact Hb0].
  - apply Qplus_le_compat; [apply Qle_refl | exact Hb1].
  - intros E. unfold boost. rewrite E, Z.sub_diag.
    change (Final.Zabs_Q 0) with 0.
    rewrite Q.min_r by (rewrite Qmult_0_r; discriminate). ring.
  - intros H4. unfold boost. rewrite Q.min_l; [reflexivity |].
    unfold Final.Zabs_Q. fold dist.
    apply Qle_trans with ((3 # 100) * inject_Z 4); [discriminate |].
    apply Qmult_le_l; [reflexivity |]. rewrite <- Zle_Qle. exact H4.
  - exact (nth_error_In _ _ Ed).
Qed.

Lemma X12_witness :
  (length [cat_by_model] <= 3)%nat
  /\ forall c, In c [cat_by_model] ->
       In (word_of c) (words ["CAT"; "COT"])
       /\ Py.mem (word_of c)
            (excluded_words
               (set_excluded_words (toy_solver ["cat"; "cot"] [])
                                   (words ["COT"]))) = false.
Proof.
  apply (X12_ai_ranking_skips_excluded toy_nltk toy_model
           (set_excluded_words (toy_solver ["cat"; "cot"] []) (words ["COT"]))
           "Feline pet" (words ["CAT"; "COT"]) [cat_by_model]).
  reflexivity.
Defined.

Lemma X13_witness :
  exists max_sim,
    Final.list_max (similarities toy_model "Feline pet"
                      (definitions_of toy_nltk "CAT"))
    = Some max_sim
    /\ max_sim <= score_of cat_by_model
    /\ score_of cat_by_model <= max_sim + (1 # 10)
    /\ (Py.len "CAT" = Py.len (blank_tokenize "Feline pet") ->
        score_of cat_by_model == max_sim)
    /\ ((4 <= Z.abs (Py.len "CAT" - Py.len (blank_tokenize "Feline pet")))%Z ->
        score_of cat_by_model == max_sim + (1 # 10))
    /\ In (def_of cat_by_model) (definitions_of toy_nltk "CAT").
Proof.
  apply (X13_ai_score_and_length_boost toy_nltk toy_model blank_tokenize
           "Feline pet" "CAT" cat_by_model).
  - reflexivity.
  - reflexivity.
Defined.

(** ** The feedback key *)

Lemma unrepr_body_squote (c : ascii) (tail : str) :
  unrepr_body "'" (Py.repr_char "'" c ++ tail)
  = (p <- unrepr_body "'" tail ;; Some (c :: fst p, snd p)).
Proof. destruct c as [[] [] [] [] [] [] [] []]; reflexivity. Qed.

Lemma unrepr_body_dquote (c : ascii) (tail : str) :
  unrepr_body Py.dquote (Py.repr_char Py.dquote c ++ tail)
  = (p <- unrepr_body Py.dquote tail ;; Some (c :: fst p, snd p)).
Proof. destruct c as [[] [] [] [] [] [] [] []]; reflexivity. Qed.

Lemma repr_quote_cases (s : str) :
  Py.repr_quote s = "'"%char \/ Py.repr_quote s = Py.dquote.
Proof.
  unfold Py.repr_quote. destruct (_ && _); [right | left]; reflexivity.
Qed.

Lemma unrepr_repr (s tail : str) :
  unrepr (Py.repr s ++ tail) = Some (s, tail).
Proof.
  unfold Py.repr. cbv zeta.
  assert (G : forall q,
            (forall c t, unrepr_body q (Py.repr_char q c ++ t)
                         = (p <- unrepr_body q t ;; Some (c :: fst p, snd p))) ->
            forall x, unrepr_body q (concat (map (Py.repr_char q) x)
                                     ++ q :: tail) = Some (x, tail)).
  { intros q Hq. induction x as [| c x IH].
    - simpl. rewrite Ascii.eqb_refl. reflexivity.
    - simpl concat. rewrite <- app_assoc, Hq, IH. reflexivity. }
  change (([Py.repr_quote s]
           ++ concat (map (Py.repr_char (Py.repr_quote s)) s)
           ++ [Py.repr_quote s]) ++ tail)
    with (Py.repr_quote s
          :: ((concat (map (Py.repr_char (Py.repr_quote s)) s)
               ++ [Py.repr_quote s]) ++ tail)).
  rewrite <- app_assoc. cbn [unrepr app].
  destruct (repr_quote_cases s) as [-> | ->].
  - apply G. exact unrepr_body_squote.
  - apply G. exact unrepr_body_dquote.
Qed.

Lemma cons_tail_eq {A} (x : A) (l l' : list A) : x :: l = x :: l' -> l = l'.
Proof. congruence. Qed.

(** [repr] and [str] of a pair of strings lose nothing *)
Lemma str_of_pair_inj (a b a' b' : str) :
  Py.str_of_pair a b = Py.str_of_pair a' b' -> a = a' /\ b = b'.
Proof.
  unfold Py.str_of_pair. intros H.
  change (("(" : str) ++ Py.repr a ++ ", " ++ Py.repr b ++ ")")
    with ("("%char :: (Py.repr a ++ ", " ++ Py.repr b ++ ")")) in H.
  change (("(" : str) ++ Py.repr a' ++ ", " ++ Py.repr b' ++ ")")
    with ("("%char :: (Py.repr a' ++ ", " ++ Py.repr b' ++ ")")) in H.
  apply cons_tail_eq in H.
  apply (f_equal unrepr) in H. rewrite !unrepr_repr in H.
  apply Some_eq in H.
  assert (Ha : a = a') by congruence.
  assert (Hr : (", " : str) ++ Py.repr b ++ ")"
               = (", " : str) ++ Py.repr b' ++ ")") by congruence.
  split; [exact Ha |]. clear H.
  change ((", " : str) ++ Py.repr b ++ ")")
    with (","%char :: " "%char :: (Py.repr b ++ ")")) in Hr.
  change ((", " : str) ++ Py.repr b' ++ ")")
    with (","%char :: " "%char :: (Py.repr b' ++ ")")) in Hr.
  apply cons_tail_eq, cons_tail_eq in Hr.
  apply (f_equal unrepr) in Hr. rewrite !unrepr_repr in Hr.
  congruence.
Qed.

(** X14.  Two calls use the same feedback key exactly when they give the
    same clue, character for character, and patterns that agree once
    upper-cased. *)
Theorem X14_feedback_key_identifies_clue_and_pattern
    (clue pattern clue' pattern' : str) :
  feedback_key clue pattern = feedback_key clue' pattern'
  <-> clue = clue' /\ Py.upper pattern = Py.upper pattern'.
Proof.
  unfold feedback_key. split.
  - apply str_of_pair_inj.
  - intros [-> ->]. reflexivity.
Qed.

Lemma feedback_key_neq (c p c' p' : str) :
  c <> c' \/ Py.upper p <> Py.upper p' ->
  Py.str_eqb (feedback_key c' p') (feedback_key c p) = false.
Proof.
  intros H. destruct (Py.str_eqb _ _) eqn:E; [| reflexivity].
  apply str_eqb_eq in E. unfold feedback_key in E.
  apply str_of_pair_inj in E. destruct E as [-> E], H; congruence.
Qed.

Lemma str_eqb_refl (a : str) : Py.str_eqb a a = true.
Proof. apply str_eqb_eq. reflexivity. Qed.

(** ** Recording and solving *)

Lemma final_rank_by_clue_db nl sim self self' (clue : str) (ms : list str)
    (pattern : str) :
  excluded_words self' = excluded_words self ->
  dict_get (feedback_key clue pattern) (feedback_db self')
  = dict_get (feedback_key clue pattern) (feedback_db self) ->
  Final.rank_by_clue nl sim self' clue ms pattern
  = Final.rank_by_clue nl sim self clue ms pattern.
Proof.
  intros He Hd. unfold Final.rank_by_clue, Final.scoring, Final._ai_ranking.
  rewrite He, Hd. reflexivity.
Qed.

Lemma test_rank_by_clue_db nl self self' (clue : str) (ms : list str)
    (pattern : str) :
  dict_get (feedback_key clue pattern) (feedback_db self')
  = dict_get (feedback_key clue pattern) (feedback_db self) ->
  TestVariant.rank_by_clue nl self' clue ms pattern
  = TestVariant.rank_by_clue nl self clue ms pattern.
Proof.
  intros Hd. unfold TestVariant.rank_by_clue. rewrite Hd. reflexivity.
Qed.

Lemma find_matches_word_list nl self self' (pattern clue : str) :
  word_list self' = word_list self ->
  find_matches nl self' pattern clue = find_matches nl self pattern clue.
Proof.
  intros H. unfold find_matches, find_matches_try. rewrite H. reflexivity.
Qed.

(** X15.  Recording feedback for one clue and pattern changes nothing for
    any other: the entry looked up for a different clue, or for a pattern
    that differs beyond case, is as before, and so is the ranking [solve]
    returns for it, in both programs. *)
Theorem X15_feedback_is_local_to_its_key
    (nl : nltk) (similarity_model : option sim_model)
    (self : CrosswordSolver) (clue pattern word clue' pattern' : str) :
  clue <> clue' \/ Py.upper pattern <> Py.upper pattern' ->
  dict_get (feedback_key clue' pattern')
           (feedback_db (save_feedback self clue pattern word))
  = dict_get (feedback_key clue' pattern') (feedback_db self)
  /\ ranked_of (Final.solve nl similarity_model
                  (save_feedback self clue pattern word) clue' pattern')
     = ranked_of (Final.solve nl similarity_model self clue' pattern')
  /\ ranked_of (TestVariant.solve nl
                  (save_feedback self clue pattern word) clue' pattern')
     = ranked_of (TestVariant.solve nl self clue' pattern').
Proof.
  intros H.
  assert (Hd : dict_get (feedback_key clue' pattern')
                 (feedback_db (save_feedback self clue pattern word))
               = dict_get (feedback_key clue' pattern') (feedback_db self)).
  { simpl. rewrite dict_get_set, (feedback_key_neq _ _ _ _ H). reflexivity. }
  split; [exact Hd |]. split.
  - rewrite !final_solve_ranked.
    rewrite (find_matches_word_list nl self (save_feedback self clue pattern word))
      by reflexivity.
    apply final_rank_by_clue_db; [reflexivity | exact Hd].
  - rewrite !test_solve_ranked.
    rewrite (find_matches_word_list nl self (save_feedback self clue pattern word))
      by reflexivity.
    apply test_rank_by_clue_db. exact Hd.
Qed.

Lemma X15_witness :
  dict_get (feedback_key "Feline pet" "C?T")
           (feedback_db (save_feedback pet_solver "Feline pet " "C?T" "cat"))
  = dict_get (feedback_key "Feline pet" "C?T") (feedback_db pet_solver).
Proof.
  apply (X15_feedback_is_local_to_its_key toy_nltk None pet_solver
           "Feline pet " "C?T" "cat" "Feline pet" "C?T").
  left. discriminate.
Defined.

Lemma saved_lookup (self : CrosswordSolver) (clue p p' w : str) :
  Py.upper p = Py.upper p' ->
  dict_get (feedback_key clue p')
           (feedback_db (save_feedback self clue p w))
  = Some (Py.upper w).
Proof.
  intros H. simpl. rewrite dict_get_set. unfold feedback_key.
  rewrite H, str_eqb_refl. reflexivity.
Qed.

(** X16.  In the first program, once a word is recorded for a clue and a
    pattern, [solve] for that clue and that pattern (in any case) returns
    the word alone, upper-cased, with score 1.0, provided the clue is not
    empty and the word is among the filtered candidates. *)
Theorem X16_recorded_word_is_returned
    (nl : nltk) (similarity_model : option sim_model)
    (self : CrosswordSolver) (clue p p' word : str) :
  clue <> [] ->
  Py.upper p = Py.upper p' ->
  In (Py.upper word) (find_matches nl self p' clue) ->
  ranked_of (Final.solve nl similarity_model
               (save_feedback self clue p word) clue p')
  = Some [(Py.upper word, 1,
           first_definition nl (Py.upper word) "User-corrected")].
Proof.
  intros Hc Hp Hin. rewrite final_solve_ranked.
  rewrite (find_matches_word_list nl self (save_feedback self clue p word))
    by reflexivity.
  unfold Final.rank_by_clue.
  rewrite (is_empty_false _ Hc), (saved_lookup _ _ _ _ _ Hp).
  apply mem_In in Hin. rewrite Hin. reflexivity.
Qed.

Lemma X16_witness :
  ranked_of (Final.solve toy_nltk None
               (save_feedback (toy_solver ["cat"; "cot"] []) "Feline pet"
                              "c?t" "cot")
               "Feline pet" "C?T")
  = Some [("COT" : str, 1, "User-corrected" : str)].
Proof.
  apply (X16_recorded_word_is_returned toy_nltk None
           (toy_solver ["cat"; "cot"] []) "Feline pet" "c?t" "C?T" "cot").
  - discriminate.
  - reflexivity.
  - vm_compute. right. left. reflexivity.
Defined.



Lemma dict_set_set (k v1 v2 : str) (d : dict) :
  dict_set k v2 (dict_set k v1 d) = dict_set k v2 d.
Proof.
  induction d as [| [k0 v0] d IH]; simpl.
  - rewrite str_eqb_refl. reflexivity.
  - destruct (Py.str_eqb k k0) eqn:E; simpl; rewrite E; [reflexivity |].
    rewrite IH. reflexivity.
Qed.

Lemma length_dict_set (k v : str) (d : dict) :
  length (dict_set k v d)
  = if Py.mem k (dict_keys d) then length d else S (length d).
Proof.
  unfold Py.mem, dict_keys. induction d as [| [k0 v0] d IH]; [reflexivity |].
  simpl. destruct (Py.str_eqb k k0); simpl; [reflexivity |].
  rewrite IH. destruct (existsb _ _); reflexivity.
Qed.

(** X18.  Recording again for the same clue and the same pattern up to case
    replaces the word: the store is as if only the second record had been
    made, and it has one entry per key, so a record adds at most one
    entry. *)
Theorem X18_record_overwrites
    (self : CrosswordSolver) (clue p p' w1 w2 : str) :
  Py.upper p = Py.upper p' ->
  feedback_db (save_feedback (save_feedback self clue p w1) clue p' w2)
  = feedback_db (save_feedback self clue p' w2)
  /\ (length (feedback_db self)
      <= length (feedback_db (save_feedback self clue p w1))
      <= S (length (feedback_db self)))%nat
  /\ length (feedback_db
               (save_feedback (save_feedback self clue p w1) clue p' w2))
     = length (feedback_db (save_feedback self clue p w1)).
Proof.
  intros H.
  assert (Hk : feedback_key clue p = feedback_key clue p')
    by (unfold feedback_key; rewrite H; reflexivity).
  simpl. rewrite Hk, dict_set_set. split; [reflexivity |].
  rewrite !length_dict_set. split.
  - destruct (Py.mem _ _); lia.
  - destruct (Py.mem (feedback_key clue p') (dict_keys (feedback_db self)));
      reflexivity.
Qed.

Lemma X18_witness :
  feedback_db (save_feedback (save_feedback pet_solver "Feline pet" "c?t" "cot")
                 "Feline pet" "C?T" "cat")
  = feedback_db (save_feedback pet_solver "Feline pet" "C?T" "cat").
Proof.
  apply (X18_record_overwrites pet_solver "Feline pet" "c?t" "C?T" "cot" "cat").
  reflexivity.
Defined.

(** ** What the operations keep *)

(** [b] has the word list, the store and the file of [a] *)
Lemma final_solve_fields nl sim self (clue pattern : str) self' res :
  Final.solve nl sim self clue pattern = Some (self', res) ->
  self' = set_current_results self (Some res)
  /\ fst res = (clue, Py.upper pattern)
  /\ Final.rank_by_clue nl sim self clue
       (find_matches nl self pattern clue) pattern = Some (snd res).
Proof.
  unfold Final.solve. cbv zeta.
  destruct (Final.rank_by_clue _ _ _ _ _ _) as [r |]; [| discriminate].
  cbv beta iota delta [bind]. intros H. apply Some_eq in H.
  injection H as <- <-. auto.
Qed.

Lemma test_solve_fields nl self (clue pattern : str) self' res :
  TestVariant.solve nl self clue pattern = Some (self', res) ->
  self' = set_current_results self (Some res)
  /\ fst res = (clue, Py.upper pattern)
  /\ TestVariant.rank_by_clue nl self clue
       (find_matches nl self pattern clue) pattern = Some (snd res).
Proof.
  unfold TestVariant.solve. cbv zeta.
  destruct (TestVariant.rank_by_clue _ _ _ _ _) as [r |]; [| discriminate].
  cbv beta iota delta [bind]. intros H. apply Some_eq in H.
  injection H as <- <-. auto.
Qed.

Section Kept.

(** a property of the solver that looks only at fields the operations
    change in known ways *)
Variable P : CrosswordSolver -> Prop.
Hypothesis P_results :
  forall self (clue pattern : str) r,
    P self -> P (set_current_results self (Some ((clue, Py.upper pattern), r))).
Hypothesis P_excluded : forall self, P self -> P (set_excluded_words self []).
Hypothesis P_save :
  forall self (clue pattern word : str),
    P self -> P (save_feedback self clue pattern word).

Lemma final_solve_keeps nl sim self (clue pattern : str) self' res :
  Final.solve nl sim self clue pattern = Some (self', res) ->
  P self -> P self'.
Proof.
  intros E H. destruct (final_solve_fields _ _ _ _ _ _ _ E) as (-> & Hk & _).
  destruct res as [k r]. simpl in Hk. subst k. apply P_results, H.
Qed.

Lemma test_solve_keeps nl self (clue pattern : str) self' res :
  TestVariant.solve nl self clue pattern = Some (self', res) ->
  P self -> P self'.
Proof.
  intros E H. destruct (test_solve_fields _ _ _ _ _ _ E) as (-> & Hk & _).
  destruct res as [k r]. simpl in Hk. subst k. apply P_results, H.
Qed.

Lemma final__solve_keeps nl sim self (c p : str) :
  P self -> P (solver_after (Final._solve nl sim self c p)).
Proof.
  intros H. unfold Final._solve. cbv zeta.
  destruct (Py.is_empty (Py.strip c)); [apply P_excluded, H |].
  destruct (Final.solve _ _ _ _ _) as [[self' res] |] eqn:E.
  - exact (final_solve_keeps _ _ _ _ _ _ _ E (P_excluded _ H)).
  - apply P_excluded, H.
Qed.

Lemma test_app_solve_keeps nl self (c p : str) :
  P self -> P (solver_after (TestVariant.app_solve nl self c p)).
Proof.
  intros H. unfold TestVariant.app_solve. cbv zeta.
  destruct (Py.is_empty _ || Py.is_empty _); [exact H |].
  destruct (TestVariant.solve _ _ _ _) as [[self' res] |] eqn:E.
  - exact (test_solve_keeps _ _ _ _ _ _ E H).
  - exact H.
Qed.

Lemma final_run_keeps nl sim self op :
  P self -> P (Final.run nl sim self op).
Proof.
  intros H. destruct op; simpl; try exact H.
  - apply P_save, H.
  - destruct (Final.solve _ _ _ _ _) as [[self' res] |] eqn:E;
      [exact (final_solve_keeps _ _ _ _ _ _ _ E H) | exact H].
  - apply final__solve_keeps, H.
  - unfold Final._process_feedback. cbv zeta.
    destruct is_correct; [| exact H].
    destruct (current_results self) as [[key ranked] |]; [| exact H].
    destruct (_ && _); [| exact H].
    destruct (nth_error ranked 0); [| exact H].
    apply P_save, H.
  - unfold Final._submit_correction. cbv zeta.
    destruct (Py.is_empty _); [exact H |].
    apply final__solve_keeps, P_save, H.
Qed.

Lemma test_run_keeps nl self op :
  P self -> P (TestVariant.run nl self op).
Proof.
  intros H. destruct op; simpl; try exact H.
  - apply P_save, H.
  - destruct (TestVariant.solve _ _ _ _) as [[self' res] |] eqn:E;
      [exact (test_solve_keeps _ _ _ _ _ _ E H) | exact H].
  - apply test_app_solve_keeps, H.
  - unfold TestVariant.app_save_feedback.
    destruct selected; [apply P_save, H | exact H].
  - unfold TestVariant.enter_correct_word. cbv zeta.
    destruct (Py.is_empty _ || Py.is_empty _); [exact H |].
    destruct answer as [[| a answer] |]; try exact H.
    destruct (Re.re_match _ _) as [[] |]; try exact H.
    match goal with
    | |- context [TestVariant.app_solve nl ?s ?c ?p] =>
        pose proof (test_app_solve_keeps nl s c p (P_save _ _ _ _ H)) as G;
        destruct (TestVariant.app_solve nl s c p)
    end; exact G.
Qed.

Lemma final_session_keeps nl sim ops self :
  P self -> P (fold_left (Final.run nl sim) ops self).
Proof.
  revert self. induction ops as [| op ops IH]; intros self H; [exact H |].
  simpl. apply IH, final_run_keeps, H.
Qed.

Lemma test_session_keeps nl ops self :
  P self -> P (fold_left (TestVariant.run nl) ops self).
Proof.
  revert self. induction ops as [| op ops IH]; intros self H; [exact H |].
  simpl. apply IH, test_run_keeps, H.
Qed.

End Kept.

Lemma persisted_save (self : CrosswordSolver) (clue pattern word : str) :
  persisted self -> persisted (save_feedback self clue pattern word).
Proof.
  intros [Hn _]. unfold persisted. simpl.
  assert (Hn' : NoDup (dict_keys
                         (dict_set (feedback_key clue pattern) (Py.upper word)
                                   (feedback_db self))))
    by (apply dict_set_nodup, Hn).
  split; [exact Hn' |]. rewrite (load_dump _ Hn'). reflexivity.
Qed.

Lemma results_upper_set (self : CrosswordSolver) (clue pattern : str) r :
  results_upper (set_current_results self
                   (Some ((clue, Py.upper pattern), r))).
Proof. unfold results_upper. simpl. apply upper_idem. Qed.

Lemma in_session_init word_file feedback_file self :
  init word_file feedback_file = Some self ->
  in_session (word_list self) self.
Proof.
  unfold init. cbv zeta.
  destruct (match word_file with Some _ => _ | None => _ end);
    [discriminate |].
  intros H. apply Some_eq in H. subst self.
  split; [reflexivity |]. split; [reflexivity |]. split; [| exact I].
  split; [apply loaded_nodup | reflexivity].
Qed.

Lemma in_session_results wl self (clue pattern : str) r :
  in_session wl self ->
  in_session wl (set_current_results self
                   (Some ((clue, Py.upper pattern), r))).
Proof.
  intros (Hw & He & Hp & _). split; [exact Hw |]. split; [exact He |].
  split; [exact Hp | apply results_upper_set].
Qed.

Lemma in_session_excluded wl self :
  in_session wl self -> in_session wl (set_excluded_words self []).
Proof.
  intros (Hw & He & Hp & Hr). split; [exact Hw |]. split; [reflexivity |].
  split; [exact Hp | exact Hr].
Qed.

Lemma in_session_save wl self (clue pattern word : str) :
  in_session wl self -> in_session wl (save_feedback self clue pattern word).
Proof.
  intros (Hw & He & Hp & Hr). split; [exact Hw |]. split; [exact He |].
  split; [apply persisted_save, Hp | exact Hr].
Qed.

(** X19.  From the construction of the solver on, through any sequence of
    calls and button presses of either program: the word list is the one
    loaded at start-up, [excluded_words] is empty, the feedback file (both
    programs build the solver on feedback.json, the file [save_feedback]
    writes) read back gives the store in memory, which holds each key once,
    and the last result is filed under an upper-case pattern. *)
Theorem X19_session_invariants
    (nl : nltk) (similarity_model : option sim_model)
    (word_file : option (list str)) (feedback_file : option str)
    (self0 : CrosswordSolver) :
  init word_file feedback_file = Some self0 ->
  (forall ops,
     let self := fold_left (Final.run nl similarity_model) ops self0 in
     word_list self = word_list self0
     /\ excluded_words self = []
     /\ NoDup (dict_keys (feedback_db self))
     /\ load_feedback_database (feedback_json self) = feedback_db self
     /\ results_upper self)
  /\ (forall ops,
        let self := fold_left (TestVariant.run nl) ops self0 in
        word_list self = word_list self0
        /\ excluded_words self = []
        /\ NoDup (dict_keys (feedback_db self))
        /\ load_feedback_database (feedback_json self) = feedback_db self
        /\ results_upper self).
Proof.
  intros H. apply in_session_init in H. split; intros ops self.
  - assert (G : in_session (word_list self0) self).
    { apply (final_session_keeps (in_session (word_list self0))
               (in_session_results _) (in_session_excluded _)
               (in_session_save _)). exact H. }
    destruct G as (? & ? & [? ?] & ?). auto.
  - assert (G : in_session (word_list self0) self).
    { apply (test_session_keeps (in_session (word_list self0))
               (in_session_results _) (in_session_save _)). exact H. }
    destruct G as (? & ? & [? ?] & ?). auto.
Qed.

Lemma X19_witness :
  let self :=
    fold_left (Final.run toy_nltk None)
      [Final.press_solve "Feline pet" "c?t";
       Final.press_submit_correction "Feline pet" "c?t" "cot"]
      (toy_solver ["cat"; "cot"] []) in
  word_list self = word_list (toy_solver ["cat"; "cot"] [])
  /\ excluded_words self = []
  /\ NoDup (dict_keys (feedback_db self))
  /\ load_feedback_database (feedback_json self) = feedback_db self
  /\ results_upper self.
Proof.
  apply (X19_session_invariants toy_nltk None
           (Some (words ["cat"; "cot"])) (Some (Json.dump []))
           (toy_solver ["cat"; "cot"] [])).
  reflexivity.
Defined.

(** ** The embedding ranking with nothing excluded *)

Lemma ai_loop_all nl model (clue : str) (ms : list str) rs :
  Final.ai_loop nl model [] clue ms = Some rs -> length rs = length ms.
Proof.
  revert rs. induction ms as [| m ms IH]; intros rs; simpl.
  - intros H. apply Some_eq in H. subst rs. reflexivity.
  - destruct (Final.ai_score_word nl model clue m) as [c |]; [| discriminate].
    destruct (Final.ai_loop nl model [] clue ms) as [rs' |]; [| discriminate].
    cbv beta iota delta [bind]. intros H. apply Some_eq in H. subst rs.
    simpl. rewrite (IH _ eq_refl). reflexivity.
Qed.

(** X20.  With [excluded_words] empty, as it is throughout a session, the
    embedding ranking scores every candidate: when it returns, it returns 3
    entries, or as many as there are candidates if these are fewer. *)
Theorem X20_ai_ranking_scores_every_candidate
    (nl : nltk) (model : sim_model) (self : CrosswordSolver)
    (clue : str) (matches : list str) (r : list ranked) :
  excluded_words self = [] ->
  Final._ai_ranking nl model self clue matches = Some r ->
  length r = Nat.min 3 (length matches).
Proof.
  intros He. unfold Final._ai_ranking. rewrite He.
  destruct (Final.ai_loop _ _ _ _ _) as [scored |] eqn:E; [| discriminate].
  cbv beta iota delta [bind]. intros H. apply Some_eq in H. subst r.
  rewrite length_firstn, length_sorted_desc, (ai_loop_all _ _ _ _ _ E).
  reflexivity.
Qed.

Lemma X20_witness :
  length [cat_by_model] = Nat.min 3 (length (words ["CAT"])).
Proof.
  apply (X20_ai_ranking_scores_every_candidate toy_nltk toy_model
           (toy_solver ["cat"; "cot"] []) "Feline pet" (words ["CAT"])
           [cat_by_model]).
  - reflexivity.
  - reflexivity.
Defined.

(** ** The feedback buttons of the first program *)

(** X21.  The last result is filed under the upper-cased pattern, and the
    confirm button looks it up under the pattern entry as typed: with a
    pattern entry that is not in upper case the handler raises (KeyError),
    shows nothing and records nothing. *)
Theorem X21_confirm_raises_on_lower_case_pattern
    (self : CrosswordSolver) (clue_entry pattern_entry : str) :
  results_upper self ->
  Py.upper pattern_entry <> pattern_entry ->
  Final._process_feedback self clue_entry pattern_entry true = Raised self [].
Proof.
  unfold results_upper, Final._process_feedback. cbv zeta.
  destruct (current_results self) as [[[c p] ranked] |]; [| reflexivity].
  intros Hu Hp. cbn [fst snd].
  destruct (Py.str_eqb p pattern_entry) eqn:E.
  - apply str_eqb_eq in E. congruence.
  - rewrite andb_false_r. reflexivity.
Qed.

Lemma X21_witness :
  Final._process_feedback
    (solver_after (Final._solve toy_nltk None (toy_solver ["cat"; "cot"] [])
                     "Feline pet" "c?t"))
    "Feline pet" "c?t" true
  = Raised
      (solver_after (Final._solve toy_nltk None (toy_solver ["cat"; "cot"] [])
                       "Feline pet" "c?t")) [].
Proof.
  apply (X21_confirm_raises_on_lower_case_pattern
           (solver_after (Final._solve toy_nltk None
                            (toy_solver ["cat"; "cot"] []) "Feline pet" "c?t"))
           "Feline pet" "c?t").
  - reflexivity.
  - discriminate.
Defined.

Lemma final_rank_by_clue_words nl sim self (clue : str) (ms : list str)
    (pattern : str) r (w : str) :
  Final.rank_by_clue nl sim self clue ms pattern = Some r ->
  In w (map word_of r) -> In w ms.
Proof.
  intros H. apply ranking_of_words with (n := 3%nat).
  unfold Final.rank_by_clue in H. destruct (Py.is_empty clue).
  - apply Some_eq in H. subst r. apply no_clue_ranking_of.
  - cbv zeta in H. destruct (dict_get _ _) as [cw |];
      [| exact (scoring_ranking_of _ _ _ _ _ _ H)].
    destruct (Py.mem cw ms) eqn:Hm;
      [| exact (scoring_ranking_of _ _ _ _ _ _ H)].
    apply Some_eq in H. subst r. apply singleton_ranking_of.
    apply mem_In. exact Hm.
Qed.

Lemma lexicon_upper (lines : list str) (w : str) :
  In w (load_word_database lines) -> Py.upper w = w.
Proof.
  unfold load_word_database. intros H. apply in_map_iff in H.
  destruct H as (line & <- & _). apply upper_idem.
Qed.

(** X22.  Confirming an answer makes it the answer: when [solve] has
    returned candidates for a non-empty clue and an upper-case pattern, the
    confirm button with the same entries records the top candidate, and the
    next [solve] for that clue and pattern returns that candidate alone with
    score 1.0. *)
Theorem X22_confirmed_answer_is_returned_next
    (nl : nltk) (similarity_model : option sim_model)
    (self self1 : CrosswordSolver) (lines : list str) (clue pattern : str)
    (key : str * str) (top : ranked) (rest : list ranked) :
  word_list self = load_word_database lines ->
  clue <> [] ->
  Py.upper pattern = pattern ->
  Final.solve nl similarity_model self clue pattern
  = Some (self1, (key, top :: rest)) ->
  Final._process_feedback self1 clue pattern true
  = Done (save_feedback self1 clue pattern (word_of top))
         [showinfo "Thank you!" "Feedback recorded."]
  /\ ranked_of (Final.solve nl similarity_model
                  (save_feedback self1 clue pattern (word_of top))
                  clue pattern)
     = Some [(word_of top, 1,
              first_definition nl (word_of top) "User-corrected")].
Proof.
  intros Hw Hc Hp E.
  destruct (final_solve_fields _ _ _ _ _ _ _ E) as (-> & Hk & Hr).
  cbn [fst snd] in Hk, Hr. subst key. split.
  - unfold Final._process_feedback. cbn [current_results set_current_results
      fst snd nth_error]. rewrite Hp, !str_eqb_refl. reflexivity.
  - assert (Hin : In (word_of top) (find_matches nl self pattern clue)).
    { apply (final_rank_by_clue_words _ _ _ _ _ _ _ _ Hr). left. reflexivity. }
    assert (Hu : Py.upper (word_of top) = word_of top).
    { apply (lexicon_upper lines). rewrite <- Hw.
      exact (subseq_In _ _ _ (find_matches_subseq nl self pattern clue) Hin). }
    rewrite final_solve_ranked.
    match goal with
    | |- context [find_matches nl ?s pattern clue] =>
        rewrite (find_matches_word_list nl self s) by reflexivity
    end.
    unfold Final.rank_by_clue.
    rewrite (is_empty_false _ Hc), (saved_lookup _ _ _ _ _ eq_refl), Hu.
    apply mem_In in Hin. rewrite Hin. reflexivity.
Qed.

Lemma X22_witness :
  ranked_of
    (Final.solve toy_nltk None
       (save_feedback
          (set_current_results (toy_solver ["cat"; "cot"] [])
             (Some (("Feline pet" : str, "C?T" : str), feline_answer)))
          "Feline pet" "C?T" "CAT")
       "Feline pet" "C?T")
  = Some [("CAT" : str, 1,
           first_definition toy_nltk "CAT" "User-corrected")].
Proof.
  apply (X22_confirmed_answer_is_returned_next toy_nltk None
           (toy_solver ["cat"; "cot"] [])
           (set_current_results (toy_solver ["cat"; "cot"] [])
              (Some (("Feline pet" : str, "C?T" : str), feline_answer)))
           (words ["cat"; "cot"]) "Feline pet" "C?T"
           ("Feline pet" : str, "C?T" : str)
           (hd ([], 0, []) feline_answer) (tl feline_answer)).
  - reflexivity.
  - discriminate.
  - reflexivity.
  - reflexivity.
Defined.

(** ** The correction handlers, followed through the solve they end with *)

Lemma final__solve_results nl sim self (c p : str) :
  current_results (solver_after (Final._solve nl sim self c p))
  = if Py.is_empty (Py.strip c) then current_results self
    else
      match Final.rank_by_clue nl sim (set_excluded_words self [])
              (Py.strip c) (find_matches nl self (Py.strip p) (Py.strip c))
              (Py.strip p) with
      | Some r => Some ((Py.strip c, Py.upper (Py.strip p)), r)
      | None => current_results self
      end.
Proof.
  unfold Final._solve. cbv zeta.
  destruct (Py.is_empty (Py.strip c)); [reflexivity |].
  rewrite <- (find_matches_word_list nl self (set_excluded_words self []))
    by reflexivity.
  unfold Final.solve. cbv zeta.
  destruct (Final.rank_by_clue _ _ _ _ _ _); reflexivity.
Qed.

Lemma not_blank_strip_upper (s : str) :
  forallb Py.isspace s = false -> Py.is_empty (Py.upper (Py.strip s)) = false.
Proof. intros H. rewrite is_empty_upper, strip_empty. exact H. Qed.



(** X24.  The correction handler records under the entries as typed, while
    the solve that ends it strips them.  When stripping changes the clue, or
    changes the pattern beyond case, the entry that solve reads is not the
    one just written: the result shown is what pressing Solve alone would
    have shown. *)
Theorem X24_correction_under_padded_entries
    (nl : nltk) (similarity_model : option sim_model)
    (self : CrosswordSolver) (clue_entry pattern_entry correct_entry : str) :
  Py.strip clue_entry <> clue_entry
  \/ Py.upper (Py.strip pattern_entry) <> Py.upper pattern_entry ->
  forallb Py.isspace correct_entry = false ->
  let self' :=
    solver_after (Final._submit_correction nl similarity_model self
                    clue_entry pattern_entry correct_entry) in
  dict_get (feedback_key (Py.strip clue_entry) (Py.strip pattern_entry))
           (feedback_db self')
  = dict_get (feedback_key (Py.strip clue_entry) (Py.strip pattern_entry))
             (feedback_db self)
  /\ current_results self'
     = current_results
         (solver_after (Final._solve nl similarity_model self
                          clue_entry pattern_entry)).
Proof.
  intros Hd Hw self'. subst self'.
  unfold Final._submit_correction. cbv zeta.
  rewrite (not_blank_strip_upper _ Hw).
  set (W := Py.upper (Py.strip correct_entry)).
  set (S := save_feedback self clue_entry pattern_entry W).
  cbn [solver_after].
  assert (Hl : dict_get (feedback_key (Py.strip clue_entry)
                           (Py.strip pattern_entry)) (feedback_db S)
               = dict_get (feedback_key (Py.strip clue_entry)
                             (Py.strip pattern_entry)) (feedback_db self)).
  { unfold S. simpl. rewrite dict_get_set, feedback_key_neq; [reflexivity |].
    destruct Hd as [Hd | Hd]; [left | right]; congruence. }
  split.
  - rewrite final__solve_db. exact Hl.
  - rewrite !final__solve_results.
    destruct (Py.is_empty (Py.strip clue_entry)); [reflexivity |].
    rewrite (find_matches_word_list nl self S) by reflexivity.
    rewrite (final_rank_by_clue_db nl similarity_model
               (set_excluded_words self []) (set_excluded_words S []))
      by (reflexivity || exact Hl).
    reflexivity.
Qed.

Lemma X24_witness :
  let self' :=
    solver_after (Final._submit_correction toy_nltk None
                    (toy_solver ["cat"; "cot"] []) "Feline pet " "C?T"
                    "cot") in
  dict_get (feedback_key (Py.strip "Feline pet ") (Py.strip "C?T"))
           (feedback_db self')
  = dict_get (feedback_key (Py.strip "Feline pet ") (Py.strip "C?T"))
             (feedback_db (toy_solver ["cat"; "cot"] []))
  /\ current_results self'
     = current_results
         (solver_after (Final._solve toy_nltk None
                          (toy_solver ["cat"; "cot"] []) "Feline pet "
                          "C?T")).
Proof.
  apply (X24_correction_under_padded_entries toy_nltk None
           (toy_solver ["cat"; "cot"] []) "Feline pet " "C?T" "cot").
  - left. discriminate.
  - reflexivity.
Defined.

(** ** The second program *)

Lemma firstn_2_3 {A} (l : list A) : firstn 2 (firstn 3 l) = firstn 2 l.
Proof. destruct l as [| a [| b [| c l]]]; reflexivity. Qed.

(** X25.  For a non-empty clue with nothing recorded under its key, the
    second program returns the first two of the three candidates the first
    program returns with the dictionary scorer. *)
Theorem X25_second_program_returns_two
    (nl : nltk) (self : CrosswordSolver) (clue pattern : str) :
  clue <> [] ->
  dict_get (feedback_key clue pattern) (feedback_db self) = None ->
  ranked_of (TestVariant.solve nl self clue pattern)
  = option_map (firstn 2) (ranked_of (Final.solve nl None self clue pattern)).
Proof.
  intros Hc Hd.
  rewrite test_solve_ranked, final_solve_ranked,
    (test_rank_by_clue_eq _ _ _ _ _ Hc).
  unfold remembered_answer, other_matches, Final.rank_by_clue, Final.scoring.
  rewrite (is_empty_false _ Hc), Hd. cbv zeta.
  destruct (_wordnet_ranking nl clue _) as [all |] eqn:E; [| reflexivity].
  cbv beta iota delta [bind]. cbn [app option_map].
  destruct (wordnet_ranking_inv _ _ _ _ E) as (t & _ & ->).
  rewrite firstn_2_3.
  destruct (sorted_desc _) as [| a [| b l]]; reflexivity.
Qed.

Lemma X25_witness :
  ranked_of (TestVariant.solve toy_nltk (toy_solver ["pet"; "vet"; "net"] [])
               "household pet" "?ET")
  = option_map (firstn 2)
      (ranked_of (Final.solve toy_nltk None
                    (toy_solver ["pet"; "vet"; "net"] [])
                    "household pet" "?ET")).
Proof.
  apply (X25_second_program_returns_two toy_nltk
           (toy_solver ["pet"; "vet"; "net"] []) "household pet" "?ET").
  - discriminate.
  - reflexivity.
Defined.

(** X26.  In the second program a word entered as the correct one, once it
    passes the check against the pattern, is recorded and shown at once: the
    handler ends normally, the store has the word under the stripped clue and
    the upper-cased pattern, and the result has it first with score 1.0,
    followed by at most two other candidates. *)
Theorem X26_entered_word_is_recorded_and_shown
    (nl : nltk) (self : CrosswordSolver)
    (clue_entry pattern_entry answer : str) :
  word_tokenize nl <> None ->
  forallb Py.isspace clue_entry = false ->
  forallb Py.isspace pattern_entry = false ->
  answer <> [] ->
  satisfies (Py.upper (Py.strip pattern_entry)) (Py.upper (Py.strip answer))
  = true ->
  exists self' shown others,
    TestVariant.enter_correct_word nl self clue_entry pattern_entry
      (Some answer) = Done self' shown
    /\ dict_get (feedback_key (Py.strip clue_entry)
                   (Py.upper (Py.strip pattern_entry))) (feedback_db self')
       = Some (Py.upper (Py.strip answer))
    /\ current_results self'
       = Some ((Py.strip clue_entry, Py.upper (Py.strip pattern_entry)),
               (Py.upper (Py.strip answer), 1,
                first_definition nl (Py.upper (Py.strip answer))
                  "User-provided") :: others)
    /\ (length others <= 2)%nat.
Proof.
  intros Ht Hc Hp Ha Hs.
  destruct (word_tokenize nl) as [t |] eqn:Et; [| congruence].
  assert (Hc' : Py.is_empty (Py.strip clue_entry) = false)
    by (rewrite strip_empty; exact Hc).
  assert (Hp' : Py.is_empty (Py.upper (Py.strip pattern_entry)) = false)
    by (apply not_blank_strip_upper, Hp).
  set (clue := Py.strip clue_entry) in *.
  set (P := Py.upper (Py.strip pattern_entry)) in *.
  set (W := Py.upper (Py.strip answer)) in *.
  set (S := save_feedback self clue P W).
  assert (Hl : dict_get (feedback_key clue P) (feedback_db S) = Some W).
  { unfold S. rewrite (saved_lookup _ _ _ _ _ eq_refl). unfold W.
    rewrite upper_idem. reflexivity. }
  assert (Hcn : clue <> []) by (intros E; rewrite E in Hc'; discriminate).
  assert (Hr : exists others,
             TestVariant.rank_by_clue nl S clue
               (find_matches nl S P clue) P
             = Some ((W, 1, first_definition nl W "User-provided") :: others)
             /\ (length others <= 2)%nat).
  { rewrite (test_rank_by_clue_eq _ _ _ _ _ Hcn).
    unfold remembered_answer, other_matches. rewrite Hl, Hs.
    rewrite (wordnet_ranking_eq _ _ _ _ Et).
    cbv beta iota zeta delta [bind].
    eexists. split; [reflexivity |]. apply firstn_le_length. }
  destruct Hr as (others & Hr & Hlen).
  assert (Happ : TestVariant.app_solve nl S clue_entry pattern_entry
                 = Done (set_current_results S
                           (Some ((clue, P),
                                  (W, 1, first_definition nl W "User-provided")
                                  :: others))) []).
  { unfold TestVariant.app_solve. cbv zeta. fold clue. fold P.
    rewrite Hc', Hp'. cbn [orb]. unfold TestVariant.solve. cbv zeta.
    rewrite Hr. cbv beta iota delta [bind].
    assert (HP : Py.upper P = P) by (unfold P; apply upper_idem).
    rewrite HP. reflexivity. }
  unfold TestVariant.enter_correct_word. cbv zeta. fold clue. fold P.
  rewrite Hc', Hp'. cbn [orb].
  destruct answer as [| a answer]; [contradiction |].
  fold W. rewrite re_match_pattern, <- satisfies_compiled, Hs.
  fold S. rewrite Happ.
  eexists. eexists. exists others.
  split; [reflexivity |]. split; [exact Hl |]. split; [reflexivity | exact Hlen].
Qed.

Lemma X26_witness :
  exists self' shown others,
    TestVariant.enter_correct_word toy_nltk (toy_solver ["cat"; "cot"] [])
      " Feline pet" "c?t" (Some ("cut " : str)) = Done self' shown
    /\ dict_get (feedback_key (Py.strip " Feline pet")
                   (Py.upper (Py.strip "c?t"))) (feedback_db self')
       = Some (Py.upper (Py.strip "cut "))
    /\ current_results self'
       = Some ((Py.strip " Feline pet", Py.upper (Py.strip "c?t")),
               (Py.upper (Py.strip "cut "), 1,
                first_definition toy_nltk (Py.upper (Py.strip "cut "))
                  "User-provided") :: others)
    /\ (length others <= 2)%nat.
Proof.
  apply (X26_entered_word_is_recorded_and_shown toy_nltk
           (toy_solver ["cat"; "cot"] []) " Feline pet" "c?t" "cut ").
  - discriminate.
  - reflexivity.
  - reflexivity.
  - discriminate.
  - reflexivity.
Defined.
